(** * JARVIS query-intent gateway: a shallow embedding and its properties

    The development embeds, function by function, the parts of the
    repository that the gateway specification talks about:

    - [smart-router.py]            task classification ([SmartRouter]);
    - [ai_backend_advanced.py]     the response cache and the conversation
                                   history ([ResponseCache], [ContextManager]);
    - [jarvis/security.py]         the sudo session and the command checker
                                   ([Security]);
    - [enhanced-security.py]       the keyword-activated, time-boxed sudo
                                   manager ([EnhancedSecurity]);
    - [jarvis/command_executor.py] intent parsing and execution
                                   ([CommandExecutor], [Executor]);
    - [jarvis/ai_backend.py]       the query of the base class and its log
                                   ([AIBackend], [QueryHistory]).

    Conventions.

    - Python [str] values are [string]s of ASCII text (code points below
      128): [lower] only touches [A]..[Z], whitespace is the ASCII part of
      [str.isspace], and [int] reads ASCII digits.
    - A reading of the wall clock ([datetime.now()]) is an integer number of
      microseconds, the resolution of [datetime]; a method that reads the
      clock takes its readings as arguments, in the order it takes them.
      A [timedelta] is a number of microseconds too, and
      [int(delta.total_seconds())] is the quotient by one million, rounded
      towards zero.  Times and durations stay within the range of
      [datetime], so no arithmetic on them overflows.
    - A Python [dict] is an association list with distinct keys in
      insertion order, the order that [min], [max] and iteration observe.
    - A method that mutates its object returns the new object next to its
      result; a call that raises returns [None] in place of the object, or
      a [Raises] or [Raised] outcome where the object it leaves matters.
    - What a remote service answers is an argument of the call, like a
      clock reading. *)

From Stdlib Require Import ZArith List String Ascii Bool Lia DecimalString.
Import ListNotations.
Local Open Scope string_scope.
Set Warnings "-register-all".

(* ================================================================== *)
(** * Python string primitives *)
(* ================================================================== *)

Module Py.

(** [c.isupper()] restricted to ASCII. *)
Definition is_upper (c : ascii) : bool :=
  let n := nat_of_ascii c in (65 <=? n)%nat && (n <=? 90)%nat.

Definition lower_char (c : ascii) : ascii :=
  if is_upper c then ascii_of_nat (nat_of_ascii c + 32) else c.

(** [s.lower()] *)
Fixpoint lower (s : string) : string :=
  match s with
  | EmptyString => EmptyString
  | String c s' => String (lower_char c) (lower s')
  end.

(** [c.isspace()] for code points below 128: tab, line feed, vertical
    tab, form feed, carriage return, the four separators 0x1c..0x1f and
    the space. *)
Definition is_space (c : ascii) : bool :=
  let n := nat_of_ascii c in
  ((9 <=? n)%nat && (n <=? 13)%nat) || ((28 <=? n)%nat && (n <=? 32)%nat).

(** [s.lstrip()] *)
Fixpoint lstrip (s : string) : string :=
  match s with
  | EmptyString => EmptyString
  | String c s' => if is_space c then lstrip s' else s
  end.

(** [s.rstrip()] *)
Fixpoint rstrip (s : string) : string :=
  match s with
  | EmptyString => EmptyString
  | String c s' =>
      match rstrip s' with
      | EmptyString => if is_space c then EmptyString else String c EmptyString
      | r => String c r
      end
  end.

(** [s.strip()] *)
Definition strip (s : string) : string := rstrip (lstrip s).

(** [s.startswith(p)] *)
Definition startswith (s p : string) : bool := String.prefix p s.

(** [needle in haystack] *)
Fixpoint contains (needle haystack : string) : bool :=
  String.prefix needle haystack ||
  match haystack with
  | EmptyString => false
  | String _ h' => contains needle h'
  end.

(** [s[n:]] for [n >= 0] *)
Fixpoint drop (n : nat) (s : string) : string :=
  match n, s with
  | O, _ => s
  | S _, EmptyString => EmptyString
  | S n', String _ s' => drop n' s'
  end.

(** [s.split()]: maximal runs of non-whitespace characters.  [cur] is the
    token being read, in reverse. *)
Definition flush (cur : list ascii) (acc : list string) : list string :=
  match cur with
  | [] => acc
  | _ => string_of_list_ascii (rev cur) :: acc
  end.

Fixpoint split_aux (s : string) (cur : list ascii) : list string :=
  match s with
  | EmptyString => flush cur []
  | String c s' =>
      if is_space c then flush cur (split_aux s' [])
      else split_aux s' (c :: cur)
  end.

Definition split (s : string) : list string := split_aux s [].

(** [bool(s)] *)
Definition truthy (s : string) : bool :=
  match s with EmptyString => false | _ => true end.

Definition is_digit (c : ascii) : bool :=
  let n := nat_of_ascii c in (48 <=? n)%nat && (n <=? 57)%nat.

Definition digit_val (c : ascii) : Z := Z.of_nat (nat_of_ascii c) - 48.

(** The digits of an [int] literal as [int()] reads them: a digit first,
    then digits, each optionally preceded by one underscore.  [acc] is
    the value read so far; [None] is [ValueError]. *)
Fixpoint int_digits (s : string) (acc : Z) : option Z :=
  match s with
  | EmptyString => Some acc
  | String c s' =>
      if is_digit c then int_digits s' (10 * acc + digit_val c)
      else if Ascii.eqb c "_" then
        match s' with
        | String d s'' =>
            if is_digit d then int_digits s'' (10 * acc + digit_val d)
            else None
        | EmptyString => None
        end
      else None
  end.

Definition int_unsigned (s : string) : option Z :=
  match s with
  | String c s' => if is_digit c then int_digits s' (digit_val c) else None
  | EmptyString => None
  end.

(** [int(s)] on a token without surrounding whitespace: an optional sign
    and the digits; [None] stands for the [ValueError] it raises. *)
Definition int_of_str (s : string) : option Z :=
  match s with
  | String "+" s' => int_unsigned s'
  | String "-" s' => option_map Z.opp (int_unsigned s')
  | _ => int_unsigned s
  end.

(** [str(n)], the text an f-string substitutes for an [int]. *)
Definition str_of_int (n : Z) : string := NilZero.string_of_int (Z.to_int n).

End Py.

(* ================================================================== *)
(** * Regular expressions: the fragment of [re] the patterns use *)
(* ================================================================== *)

Module Regex.

(** Patterns without groups or anchors.  [Cls l] is a character class
    given by its members, [Dot] is [.] (anything but a line feed). *)
Inductive re : Type :=
| Void : re
| Eps  : re
| Chr  : ascii -> re
| Cls  : list ascii -> re
| Dot  : re
| Seq  : re -> re -> re
| Alt  : re -> re -> re
| Star : re -> re.

Definition opt (r : re) : re := Alt r Eps.          (* r?  *)
Definition plus (r : re) : re := Seq r (Star r).    (* r+  *)

(** A literal run of characters. *)
Fixpoint lit (s : string) : re :=
  match s with
  | EmptyString => Eps
  | String c EmptyString => Chr c
  | String c s' => Seq (Chr c) (lit s')
  end.

(** [r1|r2|...|rn] *)
Fixpoint alts (rs : list re) : re :=
  match rs with
  | [] => Void
  | [r] => r
  | r :: rs' => Alt r (alts rs')
  end.

(** [r1 r2 ... rn] *)
Fixpoint cat (rs : list re) : re :=
  match rs with
  | [] => Eps
  | [r] => r
  | r :: rs' => Seq r (cat rs')
  end.

(** [\d] and [\s] on ASCII text. *)
Definition digit : re := Cls (list_ascii_of_string "0123456789").
Definition space : re :=
  Cls (map ascii_of_nat [9; 10; 11; 12; 13; 28; 29; 30; 31; 32]%nat).

Definition mem (c : ascii) (l : list ascii) : bool :=
  existsb (Ascii.eqb c) l.

Fixpoint nullable (r : re) : bool :=
  match r with
  | Void => false
  | Eps => true
  | Chr _ => false
  | Cls _ => false
  | Dot => false
  | Seq a b => nullable a && nullable b
  | Alt a b => nullable a || nullable b
  | Star _ => true
  end.

(** Constructors that drop the dead branches a derivative leaves. *)
Definition seq' (a b : re) : re :=
  match a, b with
  | Void, _ => Void
  | _, Void => Void
  | Eps, _ => b
  | _, _ => Seq a b
  end.

Definition alt' (a b : re) : re :=
  match a, b with
  | Void, _ => b
  | _, Void => a
  | _, _ => Alt a b
  end.

(** Brzozowski derivative: what is left of [r] after reading [c]. *)
Fixpoint deriv (c : ascii) (r : re) : re :=
  match r with
  | Void => Void
  | Eps => Void
  | Chr d => if Ascii.eqb c d then Eps else Void
  | Cls l => if mem c l then Eps else Void
  | Dot => if Ascii.eqb c (ascii_of_nat 10) then Void else Eps
  | Seq a b =>
      if nullable a then alt' (seq' (deriv c a) b) (deriv c b)
      else seq' (deriv c a) b
  | Alt a b => alt' (deriv c a) (deriv c b)
  | Star a => seq' (deriv c a) (Star a)
  end.

(** [re.match(r, s) is not None]: some prefix of [s] is in [r]. *)
Fixpoint match_prefix (r : re) (s : string) : bool :=
  nullable r ||
  match s with
  | EmptyString => false
  | String c s' => match_prefix (deriv c r) s'
  end.

(** [re.search(r, s) is not None]: a match starts somewhere in [s]. *)
Fixpoint search (r : re) (s : string) : bool :=
  match_prefix r s ||
  match s with
  | EmptyString => false
  | String _ s' => search r s'
  end.

(** The language of a pattern, as a relation, for the matcher's
    correctness statement. *)
Inductive lang : re -> string -> Prop :=
| L_eps : lang Eps ""
| L_chr c : lang (Chr c) (String c "")
| L_cls c l : mem c l = true -> lang (Cls l) (String c "")
| L_dot c : Ascii.eqb c (ascii_of_nat 10) = false -> lang Dot (String c "")
| L_seq a b s t : lang a s -> lang b t -> lang (Seq a b) (s ++ t)
| L_altl a b s : lang a s -> lang (Alt a b) s
| L_altr a b s : lang b s -> lang (Alt a b) s
| L_star0 a : lang (Star a) ""
| L_star1 a c s t :
    lang a (String c s) -> lang (Star a) t -> lang (Star a) (String c s ++ t).

End Regex.

(* ================================================================== *)
(** * smart-router.py *)
(* ================================================================== *)

Module SmartRouter.
Import Regex.

(** [class TaskType(Enum)] *)
Inductive TaskType : Type :=
| RESEARCH | CODE | MATH | CREATIVE | FACTUAL | SYSTEM | GENERAL.

Definition TaskType_eqb (a b : TaskType) : bool :=
  match a, b with
  | RESEARCH, RESEARCH | CODE, CODE | MATH, MATH | CREATIVE, CREATIVE
  | FACTUAL, FACTUAL | SYSTEM, SYSTEM | GENERAL, GENERAL => true
  | _, _ => false
  end.

Definition alt_words (ws : list string) : re := alts (map lit ws).

(** [self.task_patterns], in the order the dict literal declares it. *)
Definition task_patterns : list (TaskType * list re) :=
  [ (RESEARCH,
      [ alt_words ["research"; "find"; "search"; "look up"; "investigate";
                   "explore"; "discover"; "learn about"];
        alts [ cat [lit "what"; opt (Chr "'"); opt (Chr "s"); lit " the latest"];
               lit "recent"; lit "current"; lit "up to date" ];
        alt_words ["tell me about"; "information about"; "facts about"] ]);
    (CODE,
      [ alt_words ["code"; "write"; "implement"; "function"; "class";
                   "script"; "program"; "snippet"];
        alts [ cat [lit "how to"; Star Dot; lit "python"];
               lit "javascript"; lit "java"; lit "c++"; lit "rust"; lit "go" ];
        alts [ cat [lit "solve"; Star Dot; lit "problem"];
               lit "algorithm"; lit "data structure" ] ]);
    (MATH,
      [ alt_words ["calculate"; "solve"; "equation"; "integral"; "derivative";
                   "matrix"; "algebra"; "geometry"];
        alt_words ["math"; "formula"; "proof"; "theorem"; "logic"; "reasoning"];
        alts [ cat [lit "what"; opt (Chr "'"); opt (Chr "s"); opt (Chr " ");
                    plus digit; Star space;
                    Cls (list_ascii_of_string "+-*/")];
               lit "calculus"; lit "linear algebra" ] ]);
    (CREATIVE,
      [ alt_words ["write"; "story"; "poem"; "song"; "creative"; "fiction";
                   "imagine"; "invent"];
        alt_words ["description"; "narrative"; "dialogue"; "script"; "play"];
        alts [ cat [lit "make"; Star Dot; lit "funny"];
               lit "joke"; lit "pun"; lit "humorous" ] ]);
    (FACTUAL,
      [ alt_words ["fact"; "true"; "history"; "biography"; "definition";
                   "who"; "what is"; "explain"];
        alt_words ["when"; "where"; "how many"; "population"; "capital";
                   "president"];
        alt_words ["definition of"; "meaning of"; "do you know"] ]);
    (SYSTEM,
      [ alt_words ["system"; "command"; "shell"; "terminal"; "execute";
                   "run"; "install"; "configure"];
        alt_words ["sudo"; "root"; "permission"; "access"; "security";
                   "firewall"];
        alt_words ["linux"; "ubuntu"; "debian"; "fedora"; "arch"] ]) ].

(** The inner loop: one point for every pattern found in the query. *)
Fixpoint score_patterns (patterns : list re) (query_lower : string) : nat :=
  match patterns with
  | [] => 0
  | p :: ps =>
      (if search p query_lower then 1 else 0) + score_patterns ps query_lower
  end.

(** The [scores] dict after the outer loop, in insertion order. *)
Definition scores_of (table : list (TaskType * list re)) (query_lower : string)
  : list (TaskType * nat) :=
  map (fun tp => (fst tp, score_patterns (snd tp) query_lower)) table.

(** [max(xs)] over a list of naturals ([0] stands in for the empty list,
    which the six-entry table never produces). *)
Definition max_value (xs : list nat) : nat := fold_right Nat.max 0 xs.

(** [max(scores, key=scores.get)]: the running best is replaced only by a
    strictly larger score, so the first maximal key wins. *)
Fixpoint max_by_from (best : TaskType * nat) (rest : list (TaskType * nat))
  : TaskType * nat :=
  match rest with
  | [] => best
  | x :: rest' =>
      if (snd best <? snd x)%nat then max_by_from x rest'
      else max_by_from best rest'
  end.

Definition max_key (scores : list (TaskType * nat)) : option TaskType :=
  match scores with
  | [] => None
  | x :: rest => Some (fst (max_by_from x rest))
  end.

Definition detect_with (table : list (TaskType * list re)) (query : string)
  : TaskType :=
  let query_lower := Py.lower query in
  let scores := scores_of table query_lower in
  if (0 <? max_value (map snd scores))%nat then
    match max_key scores with
    | Some best_task => best_task
    | None => GENERAL
    end
  else GENERAL.

(** [SmartRouter.detect_task_type] *)
Definition detect_task_type (query : string) : TaskType :=
  detect_with task_patterns query.

End SmartRouter.

(* ================================================================== *)
(** * Python dicts keyed by strings *)
(* ================================================================== *)

Module Dict.
Section Ops.
Context {V : Type}.

Definition t : Type := list (string * V).

(** [d.get(k)] / [d[k]] *)
Fixpoint lookup (k : string) (d : t) : option V :=
  match d with
  | [] => None
  | (k', v) :: d' => if String.eqb k k' then Some v else lookup k d'
  end.

(** [k in d] *)
Definition mem (k : string) (d : t) : bool :=
  match lookup k d with Some _ => true | None => false end.

(** [del d[k]] *)
Fixpoint remove (k : string) (d : t) : t :=
  match d with
  | [] => []
  | (k', v) :: d' =>
      if String.eqb k k' then remove k d' else (k', v) :: remove k d'
  end.

(** [d[k] = v]: an existing key keeps its place, a new one goes last. *)
Fixpoint store (k : string) (v : V) (d : t) : t :=
  match d with
  | [] => [(k, v)]
  | (k', v') :: d' =>
      if String.eqb k k' then (k, v) :: d' else (k', v') :: store k v d'
  end.

Definition keys (d : t) : list string := map fst d.

(** [min(d.keys(), key=lambda k: f(d[k]))] from a running candidate:
    only a strictly smaller rank replaces it, so among equal ranks the
    key met first stays. *)
Fixpoint min_from (rank : V -> Z) (best : string * V) (rest : t)
  : string * V :=
  match rest with
  | [] => best
  | x :: rest' =>
      if (rank (snd x) <? rank (snd best))%Z then min_from rank x rest'
      else min_from rank best rest'
  end.

(** [None] is the [ValueError] that [min] raises on an empty sequence. *)
Definition min_key (rank : V -> Z) (d : t) : option string :=
  match d with
  | [] => None
  | x :: rest => Some (fst (min_from rank x rest))
  end.
End Ops.
Arguments t : clear implicits.
End Dict.

(* ================================================================== *)
(** * ai_backend_advanced.py: response cache and conversation history *)
(* ================================================================== *)

(** [timedelta(seconds=n)] in microseconds. *)
Definition timedelta_seconds (n : Z) : Z := n * 1000000.

Module ResponseCache.
Section WithPayload.
(** The cached response, a [Dict[str, Any]] the cache never inspects. *)
Context {P : Type}.

(** [class CachedResponse] *)
Record CachedResponse : Type := mkCached {
  query : string;
  response : P;
  created_at : Z;
  ttl : Z
}.

(** [CachedResponse.__init__], the clock reading being [now]. *)
Definition new_entry (q : string) (r : P) (ttl_seconds now : Z)
  : CachedResponse :=
  {| query := Py.strip (Py.lower q);
     response := r;
     created_at := now;
     ttl := timedelta_seconds ttl_seconds |}.

(** [CachedResponse.is_valid] *)
Definition is_valid (c : CachedResponse) (now : Z) : bool :=
  (now <? created_at c + ttl c)%Z.

(** [class ResponseCache] *)
Record t : Type := mkCache {
  cache : Dict.t CachedResponse;
  max_entries : Z
}.

(** [ResponseCache.__init__] *)
Definition init (max_entries : Z) : t :=
  {| cache := []; max_entries := max_entries |}.

(** [ResponseCache.get]: the answer and the cache it leaves. *)
Definition get (c : t) (q : string) (now : Z) : option P * t :=
  let key := Py.strip (Py.lower q) in
  match Dict.lookup key (cache c) with
  | Some cached =>
      if is_valid cached now then (Some (response cached), c)
      else (None, {| cache := Dict.remove key (cache c);
                     max_entries := max_entries c |})
  | None => (None, c)
  end.

(** The first half of [set]: drop the oldest entry of a full cache.
    [None] is the [ValueError] of [min] on an empty dict. *)
Definition evict (c : t) : option (Dict.t CachedResponse) :=
  if (max_entries c <=? Z.of_nat (List.length (cache c)))%Z then
    match Dict.min_key created_at (cache c) with
    | Some oldest_key => Some (Dict.remove oldest_key (cache c))
    | None => None
    end
  else Some (cache c).

(** [ResponseCache.set]; [None] when it raises. *)
Definition set (c : t) (q : string) (r : P) (ttl_seconds now : Z)
  : option t :=
  match evict c with
  | Some d =>
      let key := Py.strip (Py.lower q) in
      Some {| cache := Dict.store key (new_entry q r ttl_seconds now) d;
              max_entries := max_entries c |}
  | None => None
  end.

(** [ResponseCache.clear] *)
Definition clear (c : t) : t :=
  {| cache := []; max_entries := max_entries c |}.

(** [get_stats()['entries']] and [get_stats()['valid_entries']] *)
Definition entries (c : t) : nat := List.length (cache c).
Definition valid_entries (c : t) (now : Z) : nat :=
  List.length (filter (fun kv => is_valid (snd kv) now) (cache c)).

(** The calls a client can make, and the caches they lead to from a
    fresh one. *)
Inductive op : Type :=
| OpGet (q : string) (now : Z)
| OpSet (q : string) (r : P) (ttl_seconds now : Z)
| OpClear.

(** One call; [None] when the call raises. *)
Definition step (c : t) (o : op) : option t :=
  match o with
  | OpGet q now => Some (snd (get c q now))
  | OpSet q r ttl_seconds now => set c q r ttl_seconds now
  | OpClear => Some (clear c)
  end.

(** A sequence of calls, stopping at the first one that raises. *)
Fixpoint run (c : t) (ops : list op) : option t :=
  match ops with
  | [] => Some c
  | o :: ops' =>
      match step c o with
      | Some c' => run c' ops'
      | None => None
      end
  end.
End WithPayload.
Arguments CachedResponse : clear implicits.
Arguments t : clear implicits.
Arguments op : clear implicits.
End ResponseCache.

Module ContextManager.

(** One entry of [self.history]; [timestamp] is the ISO rendering of the
    clock reading. *)
Record Turn : Type := mkTurn {
  timestamp : string;
  user : string;
  assistant : string
}.

(** [class ContextManager].  The [user_info] mapping is independent of the
    history and is not part of the model. *)
Record t : Type := mkContext {
  history : list Turn;
  max_history : Z
}.

(** [ContextManager.__init__] *)
Definition init (max_history : Z) : t :=
  {| history := []; max_history := max_history |}.

(** [list.pop(0)] on a list known to be non-empty. *)
Definition pop0 (l : list Turn) : list Turn := tl l.

(** [ContextManager.add_turn] *)
Definition add_turn (c : t) (now_iso user_input assistant_response : string)
  : t :=
  let turn := {| timestamp := now_iso;
                 user := user_input;
                 assistant := assistant_response |} in
  let h := (history c ++ [turn])%list in
  {| history := if (max_history c <? Z.of_nat (List.length h))%Z then pop0 h else h;
     max_history := max_history c |}.

(** [ContextManager.clear_history] *)
Definition clear_history (c : t) : t :=
  {| history := []; max_history := max_history c |}.

(** [add_turn] called once per element of [turns], in order. *)
Fixpoint add_turns (c : t) (turns : list Turn) : t :=
  match turns with
  | [] => c
  | x :: rest =>
      add_turns (add_turn c (timestamp x) (user x) (assistant x)) rest
  end.

(** The states a manager can be in: built by the constructor, changed
    only through its methods. *)
Inductive reachable (m : Z) : t -> Prop :=
| R_init : reachable m (init m)
| R_add c ts u a : reachable m c -> reachable m (add_turn c ts u a)
| R_clear c : reachable m c -> reachable m (clear_history c).

End ContextManager.

(* ================================================================== *)
(** * jarvis/security.py *)
(* ================================================================== *)

Module Security.

(** [class SudoSession] *)
Record SudoSession : Type := mkSudo {
  duration_seconds : Z;
  session_start : option Z;
  active : bool
}.

(** [SudoSession.__init__] *)
Definition init (duration_seconds : Z) : SudoSession :=
  {| duration_seconds := duration_seconds;
     session_start := None;
     active := false |}.

(** [SudoSession.deactivate] *)
Definition deactivate (s : SudoSession) : SudoSession :=
  {| duration_seconds := duration_seconds s;
     session_start := None;
     active := false |}.

(** [SudoSession.is_valid]: the answer and the session it leaves. *)
Definition is_valid (s : SudoSession) (now : Z) : bool * SudoSession :=
  if negb (active s) then (false, s)
  else
    match session_start s with
    | None => (false, s)
    | Some start =>
        if (timedelta_seconds (duration_seconds s) <? now - start)%Z
        then (false, deactivate s)
        else (true, s)
    end.

(** [SudoSession.activate]; [now1] and [now2] are the successive clock
    readings it may take.  [is_valid] reads the clock only for a session
    that has a start, so a new session starts at [now2] after such a check
    and at [now1] otherwise. *)
Definition activate (s : SudoSession) (now1 now2 : Z) : bool * SudoSession :=
  let fresh (s0 : SudoSession) (now : Z) :=
    (true, {| duration_seconds := duration_seconds s0;
              session_start := Some now;
              active := true |}) in
  if active s then
    let (valid, s') := is_valid s now1 in
    if valid then (false, s')
    else fresh s' (match session_start s with Some _ => now2 | None => now1 end)
  else fresh s now1.

(** [SudoSession.remaining_time] *)
Definition remaining_time (s : SudoSession) (now1 now2 : Z)
  : Z * SudoSession :=
  let (valid, s') := is_valid s now1 in
  if valid then
    match session_start s' with
    | Some start =>
        (Z.max 0 (Z.quot (timedelta_seconds (duration_seconds s')
                          - (now2 - start)) 1000000), s')
    | None => (0%Z, s')
    end
  else (0%Z, s').

(** The default of [SecurityChecker.__init__]. *)
Definition default_dangerous_keywords : list string :=
  [ "rm -rf"; "mkfs"; ":(){:|:&};:"; "shutdown -h now"; "reboot";
    "poweroff"; "dd if="; "format c:" ].

(** [class SecurityChecker]: its only field. *)
Record SecurityChecker : Type := mkChecker {
  dangerous_keywords : list string
}.

(** [SecurityChecker.__init__]: [None] and the empty list are falsy. *)
Definition new_checker (keywords : option (list string)) : SecurityChecker :=
  match keywords with
  | None | Some [] => {| dangerous_keywords := default_dangerous_keywords |}
  | Some l => {| dangerous_keywords := l |}
  end.

(** The keyword the loop of [is_dangerous] stops at, if any. *)
Fixpoint matched_keyword (keywords : list string) (command_lower : string)
  : option string :=
  match keywords with
  | [] => None
  | keyword :: rest =>
      if Py.contains (Py.lower keyword) command_lower then Some keyword
      else matched_keyword rest command_lower
  end.

(** [SecurityChecker.is_dangerous] *)
Definition is_dangerous (c : SecurityChecker) (command : string) : bool :=
  match matched_keyword (dangerous_keywords c) (Py.lower command) with
  | Some _ => true
  | None => false
  end.

(** [SecurityChecker.check_command] *)
Definition check_command (c : SecurityChecker) (command : string)
           (sudo_active : bool) : bool * string :=
  if negb (Py.truthy command) || negb (Py.truthy (Py.strip command)) then
    (false, "Empty command")
  else if is_dangerous c command then
    if sudo_active then (true, "Allowed under sudo session")
    else (false, "Command contains dangerous keywords and sudo not active")
  else (true, "Command is safe").

End Security.

(* ================================================================== *)
(** * enhanced-security.py *)
(* ================================================================== *)

Module EnhancedSecurity.

Definition nl : string := String (ascii_of_nat 10) "".

(** [class SudoSession] *)
Record SudoSession : Type := mkSession {
  start_time : Z;
  duration : Z;
  end_time : Z;
  is_active : bool
}.

(** [SudoSession.__init__] *)
Definition new_session (duration_seconds now : Z) : SudoSession :=
  {| start_time := now;
     duration := timedelta_seconds duration_seconds;
     end_time := now + timedelta_seconds duration_seconds;
     is_active := true |}.

(** [SudoSession.end_session] *)
Definition end_session (s : SudoSession) : SudoSession :=
  {| start_time := start_time s; duration := duration s;
     end_time := end_time s; is_active := false |}.

(** [SudoSession.is_valid] *)
Definition is_valid (s : SudoSession) (now : Z) : bool * SudoSession :=
  if negb (is_active s) then (false, s)
  else if (end_time s <? now)%Z then (false, end_session s)
  else (true, s).

(** [SudoSession.get_remaining_time] *)
Definition get_remaining_time (s : SudoSession) (now1 now2 : Z)
  : Z * SudoSession :=
  let (valid, s') := is_valid s now1 in
  if valid then (Z.max 0 (Z.quot (end_time s' - now2) 1000000), s')
  else (0%Z, s').

(** The ['security'] section of the configuration dict; an absent key is
    [None]. *)
Record SecurityConfig : Type := mkSecurityConfig {
  cfg_sudo_keyword : option string;
  cfg_sudo_mode_duration : option Z;
  cfg_allow_custom_sudo : option bool;
  cfg_allow_timed_sudo : option bool
}.

(** What the configuration dict holds under ['security']: a mapping, or
    a value of any other kind ([None], a number, a string, a list), which
    has no [get]. *)
Inductive SecurityEntry : Type :=
| Mapping (section : SecurityConfig)
| NotMapping.

(** The configuration dict: its ['security'] entry, [None] when the key is
    absent, and whether it has any other key (an empty dict is falsy). *)
Record Config : Type := mkConfig {
  security : option SecurityEntry;
  other_keys : bool
}.

Definition config_truthy (c : Config) : bool :=
  match security c with Some _ => true | None => other_keys c end.

Definition empty_security : SecurityConfig :=
  {| cfg_sudo_keyword := None; cfg_sudo_mode_duration := None;
     cfg_allow_custom_sudo := None; cfg_allow_timed_sudo := None |}.

Definition dangerous_commands_list : list string :=
  [ "rm -rf"; "dd if="; "mkfs"; "fdisk"; "shutdown"; "reboot"; "halt";
    "kill -9"; "pkill -9"; "chmod 777"; "chown"; "usermod"; "userdel" ].

(** [class EnhancedSecurityManager] *)
Record t : Type := mkManager {
  config : Config;
  sudo_keyword : string;
  default_sudo_duration : Z;
  allow_custom_sudo : bool;
  allow_timed_sudo : bool;
  current_session : option SudoSession;
  dangerous_commands : list string
}.

Definition get_or {A : Type} (o : option A) (d : A) : A :=
  match o with Some a => a | None => d end.

(** The body of [__init__] once [security_config] is a mapping. *)
Definition build (c : Config) (security_config : SecurityConfig) : t :=
  {| config := c;
     sudo_keyword := get_or (cfg_sudo_keyword security_config) "sudo code 0";
     default_sudo_duration :=
       get_or (cfg_sudo_mode_duration security_config) 300%Z;
     allow_custom_sudo := get_or (cfg_allow_custom_sudo security_config) true;
     allow_timed_sudo := get_or (cfg_allow_timed_sudo security_config) true;
     current_session := None;
     dangerous_commands := dangerous_commands_list |}.

(** The body of [__init__] once [self.config] is known:
    [self.config.get('security', {})] and the reads from it.  [None] is
    the [AttributeError] of calling [get] on an entry that is not a
    mapping. *)
Definition init_from (c : Config) : option t :=
  match security c with
  | None => Some (build c empty_security)
  | Some (Mapping security_config) => Some (build c security_config)
  | Some NotMapping => None
  end.

(** [EnhancedSecurityManager.__init__].  [loaded] is what [load_config()]
    returns, [None] when it raises (file missing or not JSON); the result
    is [None] exactly when construction raises. *)
Definition init (cfg : option Config) (loaded : option Config) : option t :=
  let from_file :=
    match loaded with Some c => init_from c | None => None end in
  match cfg with
  | Some c => if config_truthy c then init_from c else from_file
  | None => from_file
  end.

(** The loop over [parts] in [parse_sudo_keyword].  [None]: the loop ran
    out, or [int] raised [ValueError] and the handler passed. *)
Fixpoint scan_parts (parts : list string) : option (bool * Z * option string) :=
  match parts with
  | [] => None
  | part :: rest =>
      if String.eqb part "code" then
        match rest with
        | next :: _ =>
            match Py.int_of_str next with
            | Some time_value =>
                if (0 <? time_value)%Z && (time_value <=? 3600)%Z then
                  Some (true, time_value,
                        Some ("Sudo access for " ++ Py.str_of_int time_value ++ "s"))
                else Some (false, 0%Z, Some "Invalid time (max 1 hour)")
            | None => None
            end
        | [] => scan_parts rest
        end
      else scan_parts rest
  end.

(** [EnhancedSecurityManager.parse_sudo_keyword] *)
Definition parse_sudo_keyword (m : t) (user_input : string)
  : bool * Z * option string :=
  let user_lower := Py.strip (Py.lower user_input) in
  if Py.contains (Py.lower (sudo_keyword m)) user_lower then
    (true, default_sudo_duration m, Some "Default sudo access")
  else
    let timed :=
      if allow_timed_sudo m && Py.contains "sudo code" user_lower
      then scan_parts (Py.split user_lower) else None in
    match timed with
    | Some r => r
    | None =>
        if allow_custom_sudo m
           && String.eqb user_lower (Py.lower (sudo_keyword m))
        then (true, default_sudo_duration m, Some "Custom sudo access")
        else (false, 0%Z, None)
    end.

(** The human-readable duration of [activate_sudo_mode]. *)
Definition duration_str (d : Z) : string :=
  if (d <? 60)%Z then Py.str_of_int d ++ " seconds"
  else if (d <? 3600)%Z then Py.str_of_int (d / 60) ++ " minutes"
  else Py.str_of_int (d / 3600) ++ " hour(s)".

Definition with_session (m : t) (s : option SudoSession) : t :=
  {| config := config m; sudo_keyword := sudo_keyword m;
     default_sudo_duration := default_sudo_duration m;
     allow_custom_sudo := allow_custom_sudo m;
     allow_timed_sudo := allow_timed_sudo m;
     current_session := s;
     dangerous_commands := dangerous_commands m |}.

(** [EnhancedSecurityManager.activate_sudo_mode].  [t1], [t2], [t3] are
    the successive clock readings of the call: with an active session in
    place [t1] serves its validity check and, when it is valid, [t2] and
    [t3] the two readings of [get_remaining_time]; a new session starts at
    the first reading not yet used (a session already ended is dismissed
    without a look at the clock).  Durations are within the range of
    [datetime], so the handler of the [try] is never entered. *)
Definition activate_sudo_mode (m : t) (duration_seconds : option Z)
           (t1 t2 t3 : Z) : (bool * string) * t :=
  let create (m0 : t) (now : Z) :=
    let d := match duration_seconds with
             | Some d => if (d =? 0)%Z then default_sudo_duration m0 else d
             | None => default_sudo_duration m0
             end in
    ((true, "✓ Sudo mode activated for " ++ duration_str d),
     with_session m0 (Some (new_session d now))) in
  match current_session m with
  | Some s =>
      let (valid, s1) := is_valid s t1 in
      if valid then
        let (remaining, s2) := get_remaining_time s1 t2 t3 in
        ((false, "Sudo mode already active for "
                 ++ Py.str_of_int remaining ++ " more seconds"),
         with_session m (Some s2))
      else create (with_session m (Some s1)) (if is_active s then t2 else t1)
  | None => create m t1
  end.

(** [EnhancedSecurityManager.is_sudo_active] *)
Definition is_sudo_active (m : t) (now : Z) : bool * t :=
  match current_session m with
  | None => (false, m)
  | Some s =>
      let (valid, s') := is_valid s now in
      (valid, with_session m (Some s'))
  end.

(** The entry of [dangerous_commands] the loop stops at, if any. *)
Fixpoint matched_command (patterns : list string) (command_lower : string)
  : option string :=
  match patterns with
  | [] => None
  | dangerous :: rest =>
      if Py.contains (Py.lower dangerous) command_lower then Some dangerous
      else matched_command rest command_lower
  end.

(** [EnhancedSecurityManager.check_dangerous_command] *)
Definition check_dangerous_command (m : t) (command : string)
  : bool * option string :=
  match matched_command (dangerous_commands m) (Py.lower command) with
  | Some _ =>
      (true, Some ("⚠️ WARNING: This command is potentially dangerous!"
                   ++ nl ++ "Command: " ++ command))
  | None => (false, None)
  end.

(** What [execute_with_sudo] does with a command: refuse it with a
    message, or hand an argument vector to [subprocess.run]. *)
Inductive outcome : Type :=
| Refused (message : string)
| Subprocess (argv : list string).

(** [EnhancedSecurityManager.execute_with_sudo] up to the process call. *)
Definition execute_with_sudo (m : t) (command : string) (now : Z)
  : outcome * t :=
  let (sudo_active, m') := is_sudo_active m now in
  if negb sudo_active then
    (Refused "❌ Sudo mode not active. Say 'sudo code 0' first.", m')
  else
    match check_dangerous_command m' command with
    | (true, warning) =>
        (Refused (get_or warning "None" ++ nl ++ nl
                  ++ "This command will NOT be executed for safety reasons."),
         m')
    | (false, _) => (Subprocess ("sudo" :: Py.split command), m')
    end.

End EnhancedSecurity.

(* ================================================================== *)
(** * jarvis/command_executor.py *)
(* ================================================================== *)

Module CommandExecutor.

(** What a call does: it returns a value, or it raises. *)
Inductive result (A : Type) : Type :=
| Returns (value : A)
| Raises.
Arguments Returns {A} value.
Arguments Raises {A}.

(** The values a caller can pass where a [str] is expected.  [PyObject]
    is an instance of any other class that is not a [str]; [truth] is what
    the truth test makes of it, the value its [__bool__] or [__len__]
    gives or the exception they raise. *)
Inductive PyValue : Type :=
| PyNone : PyValue
| PyBool : bool -> PyValue
| PyInt : Z -> PyValue
| PyStr : string -> PyValue
| PyBytes : string -> PyValue
| PyList : list PyValue -> PyValue
| PyObject (truth : result bool) : PyValue.

(** [bool(v)], the test behind [not v] *)
Definition truthy (v : PyValue) : result bool :=
  match v with
  | PyNone => Returns false
  | PyBool b => Returns b
  | PyInt n => Returns (negb (n =? 0)%Z)
  | PyStr s => Returns (Py.truthy s)
  | PyBytes s => Returns (Py.truthy s)
  | PyList l => Returns (match l with [] => false | _ => true end)
  | PyObject truth => truth
  end.

(** [isinstance(v, str)] *)
Definition is_str (v : PyValue) : bool :=
  match v with PyStr _ => true | _ => false end.

(** [class CommandIntent] *)
Record CommandIntent : Type := mkIntent {
  intent_type : string;
  action : string;
  params : list (string * string)
}.

(** [CommandIntent.__init__]: [params or {}] *)
Definition new_intent (intent_type action : string)
           (params : option (list (string * string))) : CommandIntent :=
  {| intent_type := intent_type; action := action;
     params := match params with Some p => p | None => [] end |}.

(** The five templates of [parse_intent] that read a capture group:
    - [T_file]:     [(edit|open)\s+(?:file\s+)?(["']?)([^"']+)\2], group 3;
    - [T_download]: [download\s+(?:from\s+)?([^\s]+)], group 1;
    - [T_app]:      [(?:open|launch|start)\s+(["']?)([^"']+)\1], group 2;
    - [T_click]:    [click\s+(?:on\s+)?([^,]+)], group 1;
    - [T_type]:     [type\s+(["']?)([^"']+)\1], group 2. *)
Inductive Template : Type := T_file | T_download | T_app | T_click | T_type.

Section Parse.
(** [re.search(template, text, re.IGNORECASE)] followed by [group(n)]
    for the group listed above; [None] when there is no match.  The
    regular-expression engine is the library's and is taken as given. *)
Variable re_group : Template -> string -> option string.

Definition or_else {A : Type} (a b : option A) : option A :=
  match a with Some _ => a | None => b end.

(** The string case of [parse_intent], after the guard. *)
Definition parse_text (command_text : string) : option CommandIntent :=
  let command_lower := Py.strip (Py.lower command_text) in
  (* Shell command execution *)
  if Py.startswith command_lower "run "
     || Py.startswith command_lower "execute "
     || Py.startswith command_lower "shell "
  then
    let first := hd "" (Py.split command_lower) in
    let action := Py.strip (Py.drop (String.length first + 1) command_text) in
    Some (new_intent "shell" action None)
  else
  (* File operations *)
  or_else
    (if (Py.contains "edit" command_lower || Py.contains "open" command_lower)
        && Py.contains "file" command_lower
     then option_map
            (fun filename =>
               new_intent "file" "edit" (Some [("filename", filename)]))
            (re_group T_file command_text)
     else None)
  (* Download command *)
  (or_else
    (if Py.contains "download" command_lower
     then option_map
            (fun url => new_intent "download" "fetch" (Some [("url", url)]))
            (re_group T_download command_text)
     else None)
  (* App opening *)
  (or_else
    (if Py.contains "open" command_lower
        || Py.contains "launch" command_lower
        || Py.contains "start" command_lower
     then option_map
            (fun app_name => new_intent "app" "open" (Some [("app", app_name)]))
            (re_group T_app command_text)
     else None)
  (* GUI automation *)
  (or_else
    (if Py.contains "click" command_lower
     then option_map
            (fun target =>
               new_intent "gui" "click" (Some [("target", Py.strip target)]))
            (re_group T_click command_text)
     else None)
  (* Scroll command *)
  (or_else
    (if Py.contains "scroll" command_lower
     then
       let direction :=
         if Py.contains "down" command_lower then "down"
         else if Py.contains "up" command_lower then "up" else "down" in
       Some (new_intent "gui" "scroll" (Some [("direction", direction)]))
     else None)
  (* Type command *)
    (if Py.contains "type" command_lower
     then option_map
            (fun text => new_intent "gui" "type" (Some [("text", text)]))
            (re_group T_type command_text)
     else None))))).

(** [CommandExecutor.parse_intent].  The guard tests the truth of
    [command_text] before its type, so an exception of the truth test
    leaves the function; past the guard the value is a [str] and nothing
    raises. *)
Definition parse_intent (command_text : PyValue)
  : result (option CommandIntent) :=
  match truthy command_text with
  | Raises => Raises
  | Returns nonempty =>
      if negb nonempty || negb (is_str command_text) then Returns None
      else
        match command_text with
        | PyStr s => Returns (parse_text s)
        | _ => Returns None
        end
  end.
End Parse.

(** The part of the executor's state that shell execution reads. *)
Record t : Type := mkExecutor {
  allow_system_commands : bool;
  security_checker : Security.SecurityChecker;
  sudo_session : Security.SudoSession
}.

(** [CommandExecutor.__init__], from the ['security'] section:
    [allow_system_commands] (absent: [False]), [dangerous_keywords]
    (absent: [[]]) and [sudo_mode_duration] (absent: 300). *)
Definition init (allow : option bool) (keywords : option (list string))
           (sudo_mode_duration : option Z) : t :=
  {| allow_system_commands := match allow with Some b => b | None => false end;
     security_checker :=
       Security.new_checker
         (Some (match keywords with Some l => l | None => [] end));
     sudo_session :=
       Security.init
         (match sudo_mode_duration with Some d => d | None => 300%Z end) |}.

(** What [_execute_shell] does with a command: return a failure without
    running anything, or pass the command to [subprocess.run]. *)
Inductive outcome : Type :=
| Rejected (reason : string)
| RunShell (command : string).

(** [CommandExecutor._execute_shell] up to the process call. *)
Definition _execute_shell (e : t) (command : string) (now : Z) : outcome * t :=
  if negb (allow_system_commands e) then
    (Rejected "System commands are disabled", e)
  else
    let (sudo_active, session') := Security.is_valid (sudo_session e) now in
    let e' := {| allow_system_commands := allow_system_commands e;
                 security_checker := security_checker e;
                 sudo_session := session' |} in
    let (allowed, reason) :=
      Security.check_command (security_checker e) command sudo_active in
    if negb allowed then (Rejected reason, e')
    else (RunShell command, e').

End CommandExecutor.

(* ================================================================== *)
(** * More Python string and list primitives *)
(* ================================================================== *)

Module PyStr.

(** [s[:n]] for [n >= 0] *)
Fixpoint take (n : nat) (s : string) : string :=
  match n, s with
  | O, _ => EmptyString
  | S _, EmptyString => EmptyString
  | S n', String c s' => String c (take n' s')
  end.

(** [s.split(sep)] for a one-character separator: the pieces between the
    separators, empty ones included; never an empty list. *)
Fixpoint split_on (sep : ascii) (s : string) : list string :=
  match s with
  | EmptyString => [EmptyString]
  | String c s' =>
      if Ascii.eqb c sep then EmptyString :: split_on sep s'
      else
        match split_on sep s' with
        | piece :: rest => String c piece :: rest
        | [] => [String c EmptyString]
        end
  end.

(** [c in s] for a character [c] *)
Fixpoint has_char (c : ascii) (s : string) : bool :=
  match s with
  | EmptyString => false
  | String d s' => Ascii.eqb c d || has_char c s'
  end.

(** [sep.join(pieces)] *)
Fixpoint join (sep : string) (pieces : list string) : string :=
  match pieces with
  | [] => EmptyString
  | [p] => p
  | p :: rest => p ++ sep ++ join sep rest
  end.

(** The start of the slice [l[i:]] for any integer [i], counted from the
    end when negative, clipped to the list. *)
Definition slice_start (i : Z) (len : nat) : nat :=
  if (i <? 0)%Z then Z.to_nat (Z.max (i + Z.of_nat len) 0)
  else Nat.min (Z.to_nat i) len.

(** [l[i:]] *)
Definition slice_from {A : Type} (i : Z) (l : list A) : list A :=
  skipn (slice_start i (List.length l)) l.

(** [s[a:b]] for integers [a], [b] *)
Definition slice (a b : Z) (s : string) : string :=
  let len := String.length s in
  let start := slice_start a len in
  let stop := slice_start b len in
  take (stop - start) (Py.drop start s).

End PyStr.

(* ================================================================== *)
(** * jarvis/security.py: download validation *)
(* ================================================================== *)

Module DownloadValidator.

(** [DownloadValidator.validate_url] on a [str] *)
Definition validate_url (url : string) : bool * string :=
  if negb (Py.truthy url) then (false, "Invalid URL format")
  else if negb (Py.startswith url "http://" || Py.startswith url "https://")
  then (false, "URL must start with http:// or https://")
  else (true, "URL is valid").

(** The characters a file name may not hold: slash, backslash, NUL, line
    feed, carriage return. *)
Definition invalid_chars : list ascii :=
  ["/"%char; "\"%char; ascii_of_nat 0; ascii_of_nat 10; ascii_of_nat 13].

(** [DownloadValidator.validate_filename] on a [str] *)
Definition validate_filename (filename : string) : bool * string :=
  if negb (Py.truthy filename) then (false, "Invalid filename")
  else if existsb (fun char => PyStr.has_char char filename) invalid_chars
  then (false, "Filename contains invalid characters")
  else (true, "Filename is valid").

End DownloadValidator.

(* ================================================================== *)
(** * jarvis/command_executor.py: execution *)
(* ================================================================== *)

Module Executor.
Import CommandExecutor.

(** The ['features'] section of the configuration; an absent flag is
    [False]. *)
Record Features : Type := mkFeatures {
  file_editing : bool;
  downloads : bool;
  gui_automation : bool
}.

(** What [execute] does with an intent, up to the first call that leaves
    the program.  [Pair] is a result returned without any such call; the
    other cases name the call and what [execute] returns after it. *)
Inductive reply : Type :=
| Pair (success : bool) (message : string)
| Shell (command : string)
    (* subprocess.run(command, shell=True); a pair built from its output *)
| Editor (filename : string)
    (* os.system("$EDITOR <path>"); (True, "Opened <path>") *)
| ReadFile (filename : string)
    (* open and read; (True, content[:500]) or (False, "File not found: ...") *)
| Fetch (url filename : string)
    (* urlretrieve(url, "./downloads/<filename>"); (True, "Downloaded to ...") *)
| OpenApp (app : string)
    (* screen_controller.open_app(app), whose bare bool is returned as it is *)
| Scroll (direction : string)
    (* screen_controller.scroll(...); (True, "Scrolled <direction>") *)
| TypeText (text : string)
    (* screen_controller.type_text(text); (True, "Typed: " + text[:50]) *)
| ReturnsNone.
    (* the function ends without a return statement *)

(** [params.get(key, default)] *)
Definition param (params : list (string * string)) (key default : string)
  : string :=
  match Dict.lookup key params with Some v => v | None => default end.

(** [CommandExecutor._execute_file_operation] *)
Definition _execute_file_operation (f : Features) (action : string)
           (params : list (string * string)) : reply :=
  if negb (file_editing f) then Pair false "File editing is disabled"
  else
    let filename := param params "filename" "" in
    if negb (Py.truthy filename) then Pair false "No filename specified"
    else if String.eqb action "edit" then Editor filename
    else if String.eqb action "read" then ReadFile filename
    else ReturnsNone.

(** [CommandExecutor._execute_download] *)
Definition _execute_download (f : Features) (params : list (string * string))
  : reply :=
  if negb (downloads f) then Pair false "Downloads are disabled"
  else
    let url := param params "url" "" in
    if negb (Py.truthy url) then Pair false "No URL specified"
    else
      let (valid, reason) := DownloadValidator.validate_url url in
      if negb valid then Pair false reason
      else
        let last_piece := last (PyStr.split_on "/" url) "" in
        let filename := if Py.truthy last_piece then last_piece else "download" in
        let (valid_fname, fname_reason) :=
          DownloadValidator.validate_filename filename in
        if negb valid_fname then Pair false fname_reason
        else Fetch url filename.

(** [CommandExecutor._execute_app_open] *)
Definition _execute_app_open (f : Features) (params : list (string * string))
  : reply :=
  if negb (gui_automation f) then Pair false "GUI automation is disabled"
  else
    let app := param params "app" "" in
    if negb (Py.truthy app) then Pair false "No app specified"
    else OpenApp app.

(** [CommandExecutor._execute_gui_action] *)
Definition _execute_gui_action (f : Features) (action : string)
           (params : list (string * string)) : reply :=
  if negb (gui_automation f) then Pair false "GUI automation is disabled"
  else if String.eqb action "click" then
    Pair true ("Clicked on " ++ param params "target" "")
  else if String.eqb action "scroll" then
    Scroll (param params "direction" "down")
  else if String.eqb action "type" then
    TypeText (param params "text" "")
  else Pair false ("Unknown GUI action: " ++ action).

(** [CommandExecutor.execute]; [None] is the [None] a caller may pass. *)
Definition execute (e : CommandExecutor.t) (f : Features)
           (intent : option CommandIntent) (now : Z)
  : reply * CommandExecutor.t :=
  match intent with
  | None => (Pair false "No valid intent", e)
  | Some i =>
      if String.eqb (intent_type i) "shell" then
        match _execute_shell e (action i) now with
        | (Rejected reason, e') => (Pair false reason, e')
        | (RunShell command, e') => (Shell command, e')
        end
      else if String.eqb (intent_type i) "file" then
        (_execute_file_operation f (action i) (params i), e)
      else if String.eqb (intent_type i) "download" then
        (_execute_download f (params i), e)
      else if String.eqb (intent_type i) "app" then
        (_execute_app_open f (params i), e)
      else if String.eqb (intent_type i) "gui" then
        (_execute_gui_action f (action i) (params i), e)
      else (Pair false ("Unknown intent type: " ++ intent_type i), e)
  end.

(** [CommandExecutor.check_sudo_keyword].  [keyword] is
    [config['sudo']['keyword']] when present; [now1] and [now2] are the
    clock readings [activate] may take. *)
Definition check_sudo_keyword (e : CommandExecutor.t) (keyword : option string)
           (text : string) (now1 now2 : Z) : bool * CommandExecutor.t :=
  let sudo_keyword := match keyword with Some k => k | None => "sudo code" end in
  if Py.contains (Py.lower sudo_keyword) (Py.lower text) then
    let (activated, session') := Security.activate (sudo_session e) now1 now2 in
    (activated, {| allow_system_commands := allow_system_commands e;
                   security_checker := security_checker e;
                   sudo_session := session' |})
  else (false, e).

(** Whether the value [execute] hands back can be unpacked as
    [success, message]: every result is a pair except the bare bool of
    [open_app] and the [None] of a function that ends without returning. *)
Definition unpacks (r : reply) : bool :=
  match r with
  | OpenApp _ | ReturnsNone => false
  | _ => true
  end.

(** [JARVISAssistant._process_command] of [main_advance.py], as the message
    it speaks.  [outcome] is the message of the pair a call outside the
    program leads to, [ai] the spoken message of the AI backend's answer
    ([None] when it has none). *)
Definition _process_command
           (re_group : Template -> string -> option string)
           (outcome : reply -> string) (ai : string -> option string)
           (e : CommandExecutor.t) (f : Features)
           (command_text : string) (now : Z) : string * CommandExecutor.t :=
  match parse_intent re_group (PyStr command_text) with
  | Returns (Some intent) =>
      let (r, e') := execute e f (Some intent) now in
      if unpacks r then
        (match r with Pair _ message => message | _ => outcome r end, e')
      else ("An error occurred while processing your command", e')
  | Returns None =>
      (match ai command_text with
       | Some spoken_message => spoken_message
       | None => "I'm having trouble processing that right now"
       end, e)
  | Raises => ("An error occurred while processing your command", e)
  end.

End Executor.

(* ================================================================== *)
(** * enhanced-security.py: keyword change, status, and its caller *)
(* ================================================================== *)

Module SudoManager.
Import EnhancedSecurity.

Definition with_keyword (m : EnhancedSecurity.t) (keyword : string)
  : EnhancedSecurity.t :=
  {| config := config m; sudo_keyword := keyword;
     default_sudo_duration := default_sudo_duration m;
     allow_custom_sudo := allow_custom_sudo m;
     allow_timed_sudo := allow_timed_sudo m;
     current_session := current_session m;
     dangerous_commands := dangerous_commands m |}.

(** [EnhancedSecurityManager.customize_sudo_keyword] *)
Definition customize_sudo_keyword (m : EnhancedSecurity.t) (new_keyword : string)
  : (bool * string) * EnhancedSecurity.t :=
  if negb (allow_custom_sudo m) then
    ((false, "Custom sudo keywords are disabled"), m)
  else if negb (Py.truthy new_keyword) || (String.length new_keyword <? 3)%nat
  then ((false, "Sudo keyword must be at least 3 characters"), m)
  else ((true, "✓ Sudo keyword changed to: " ++ new_keyword),
        with_keyword m new_keyword).

(** [EnhancedSecurityManager.get_sudo_status]; [t1], [t2], [t3] are the
    successive clock readings, taken only for a session still marked
    active. *)
Definition get_sudo_status (m : EnhancedSecurity.t) (t1 t2 t3 : Z)
  : string * EnhancedSecurity.t :=
  match current_session m with
  | None => ("❌ Sudo mode: INACTIVE", m)
  | Some s =>
      let (valid, s1) := is_valid s t1 in
      if negb valid then ("❌ Sudo mode: EXPIRED", with_session m (Some s1))
      else
        let (remaining, s2) := get_remaining_time s1 t2 t3 in
        ((if (remaining <? 60)%Z then
            "⏰ Sudo mode: ACTIVE (" ++ Py.str_of_int remaining ++ "s remaining)"
          else if (remaining <? 3600)%Z then
            "⏰ Sudo mode: ACTIVE (" ++ Py.str_of_int (remaining / 60)
            ++ "m remaining)"
          else
            "⏰ Sudo mode: ACTIVE (" ++ Py.str_of_int (remaining / 3600)
            ++ "h remaining)"),
         with_session m (Some s2))
  end.


End SudoManager.

(* ================================================================== *)
(** * smart-router.py: providers and fallbacks *)
(* ================================================================== *)

Module Router.
Import SmartRouter.

(** [task_type.value] *)
Definition value (ty : TaskType) : string :=
  match ty with
  | RESEARCH => "research" | CODE => "code" | MATH => "math"
  | CREATIVE => "creative" | FACTUAL => "factual" | SYSTEM => "system"
  | GENERAL => "general"
  end.

(** The routing part of [class SmartRouter] *)
Record t : Type := mkRouter {
  smart_routing_enabled : bool;
  provider_mapping : Dict.t string
}.

Definition default_provider_mapping : Dict.t string :=
  [ ("research", "gemini"); ("code", "openai"); ("math", "deepseek");
    ("creative", "openai"); ("factual", "gemini"); ("system", "deepseek");
    ("default", "gemini") ].

(** [SmartRouter.__init__]: [config['ai']['smart_routing']] and
    [config['ai']['provider_mapping']], each with its default. *)
Definition init (smart_routing : option bool) (mapping : option (Dict.t string))
  : t :=
  {| smart_routing_enabled :=
       match smart_routing with Some b => b | None => true end;
     provider_mapping :=
       match mapping with Some d => d | None => default_provider_mapping end |}.

(** [d.get(key, default)] *)
Definition get_or (d : Dict.t string) (key default : string) : string :=
  match Dict.lookup key d with Some v => v | None => default end.

(** [SmartRouter.get_provider_for_task] *)
Definition get_provider_for_task (r : t) (task_type : TaskType) : string :=
  if negb (smart_routing_enabled r) then
    get_or (provider_mapping r) "default" "gemini"
  else
    get_or (provider_mapping r) (value task_type)
           (get_or (provider_mapping r) "default" "gemini").

(** [SmartRouter.route_query] *)
Definition route_query (r : t) (query : string) : string * TaskType :=
  let task_type := detect_task_type query in
  (get_provider_for_task r task_type, task_type).

(** [SmartRouter.suggest_provider_override] *)
Definition suggest_provider_override (r : t) (default_provider : string)
           (task_type : TaskType) : option string :=
  match Dict.lookup (value task_type) (provider_mapping r) with
  | Some suggested =>
      if Py.truthy suggested && negb (String.eqb suggested default_provider)
      then Some suggested else None
  | None => None
  end.

(** [ProviderFallback.__init__] *)
Definition fallback_chains : Dict.t (list string) :=
  [ ("openai", ["deepseek"; "gemini"; "custom"]);
    ("deepseek", ["openai"; "gemini"; "custom"]);
    ("gemini", ["openai"; "deepseek"; "custom"]);
    ("custom", ["openai"; "deepseek"; "gemini"]) ].

Definition chain_of (primary_provider : string) : list string :=
  match Dict.lookup primary_provider fallback_chains with
  | Some chain => chain
  | None => ["gemini"]
  end.

(** [ProviderFallback.get_fallback_provider] *)
Definition get_fallback_provider (primary_provider : string) : string :=
  match chain_of primary_provider with
  | first :: _ => first
  | [] => "gemini"
  end.

(** [ProviderFallback.get_full_fallback_chain] *)
Definition get_full_fallback_chain (primary_provider : string) : list string :=
  primary_provider :: chain_of primary_provider.

(** The remote interfaces [AIBackend._query_provider] can reach. *)
Inductive api : Type := OpenAI | Gemini | DeepSeek.

(** The dispatch of [AIBackend._query_provider]; [None] is the
    ["Unknown provider"] branch, which returns [None] without a request. *)
Definition _query_provider (provider : string) : option api :=
  if String.eqb provider "openai" then Some OpenAI
  else if String.eqb provider "gemini" then Some Gemini
  else if String.eqb provider "deepseek" then Some DeepSeek
  else None.

End Router.

(* ================================================================== *)
(** * jarvis/ai_backend.py: the query history *)
(* ================================================================== *)

Module QueryHistory.

(** One entry of [self.query_history] *)
Record Entry : Type := mkEntry {
  timestamp : string;
  query : string;
  response : string;
  provider : string
}.

Record t : Type := mkHistory {
  query_history : list Entry;
  max_history : Z
}.

(** The history part of [AIBackend.__init__] *)
Definition init : t := {| query_history := []; max_history := 50 |}.

(** [AIBackend._add_to_history] *)
Definition _add_to_history (h : t) (now_iso query response provider : string)
  : t :=
  let entry := {| timestamp := now_iso; query := query;
                  response := PyStr.take 500 response;
                  provider := provider |} in
  let appended := (query_history h ++ [entry])%list in
  {| query_history :=
       if (max_history h <? Z.of_nat (List.length appended))%Z
       then PyStr.slice_from (- max_history h) appended
       else appended;
     max_history := max_history h |}.

(** [AIBackend.get_history] *)
Definition get_history (h : t) (limit : Z) : list Entry :=
  match query_history h with
  | [] => []
  | _ => PyStr.slice_from (- limit) (query_history h)
  end.

(** [AIBackend.clear_history] *)
Definition clear_history (h : t) : t :=
  {| query_history := []; max_history := max_history h |}.

(** The histories a backend can hold. *)
Inductive reachable : t -> Prop :=
| R_init : reachable init
| R_add h ts q r p : reachable h -> reachable (_add_to_history h ts q r p)
| R_clear h : reachable h -> reachable (clear_history h).

End QueryHistory.

(* ================================================================== *)
(** * ai_backend_advanced.py: context text, queries and streaming *)
(* ================================================================== *)

Module ContextView.
Import ContextManager.

(** The two lines [get_context] writes for a turn. *)
Definition turn_lines (turn : Turn) : list string :=
  [ "User: " ++ user turn; "Assistant: " ++ assistant turn ].

(** [ContextManager.get_context] *)
Definition get_context (c : ContextManager.t) : string :=
  match history c with
  | [] => "No previous context"
  | _ =>
      PyStr.join EnhancedSecurity.nl
        (flat_map turn_lines (PyStr.slice_from (-3) (history c)))
  end.

End ContextView.

(* ================================================================== *)
(** * jarvis/ai_backend.py: the query of the base class *)
(* ================================================================== *)

Module AIBackend.
Import SmartRouter Router.

(** [str(task_type)] for a member of the enumeration [TaskType] *)
Definition enum_str (task_type : TaskType) : string :=
  "TaskType." ++
  match task_type with
  | RESEARCH => "RESEARCH" | CODE => "CODE" | MATH => "MATH"
  | CREATIVE => "CREATIVE" | FACTUAL => "FACTUAL" | SYSTEM => "SYSTEM"
  | GENERAL => "GENERAL"
  end.

(** The attributes of [class AIBackend] that [query_sync] reads or
    writes; [smart_routing] is [config['ai']['smart_routing']]. *)
Record t : Type := mkBase {
  smart_routing : bool;
  router : Router.t;
  current_provider : string;
  last_query : option string;
  last_response : option string;
  history : QueryHistory.t
}.

(** [AIBackend.__init__]: [config['ai']['smart_routing']] (default
    [True]), [config['ai']['provider_mapping']] and
    [config['ai']['default_provider']] (default ['gemini']). *)
Definition init (routing : option bool) (mapping : option (Dict.t string))
           (default_provider : option string) : t :=
  {| smart_routing := match routing with Some b => b | None => true end;
     router := Router.init routing mapping;
     current_provider :=
       match default_provider with Some p => p | None => "gemini" end;
     last_query := None;
     last_response := None;
     history := QueryHistory.init |}.

Section WithCustomizer.
(** [self.customizer.customize_response(response_text, task_type=...)]:
    the text it returns, on the left, or the message of the exception it
    raises, on the right.  The customizer is taken as given. *)
Variable customize_response : string -> string -> string + string.

(** [AIBackend.query_sync].  [answer] is what the remote interfaces give
    at this call: the text of the dict [{'text': ..., 'provider': ...}],
    or [None] when there is no key, the request fails or the status is not
    200.  [now_iso] is the timestamp of the history entry.  Every path
    returns a [str]; the [except] clause turns an exception into one. *)
Definition query_sync (b : t) (query : string) (provider : option string)
           (answer : api -> option string) (now_iso : string) : string * t :=
  let routed :=
    match provider with
    | None =>
        if smart_routing b then
          let (chosen, task_type) := route_query (router b) query in
          (chosen, enum_str task_type)
        else (current_provider b, "general")
    | Some given =>
        (if Py.truthy given then given else current_provider b, "general")
    end in
  let provider := fst routed in
  let task_type_str := snd routed in
  let b1 := {| smart_routing := smart_routing b; router := router b;
               current_provider := provider;
               last_query := Some query;
               last_response := last_response b;
               history := history b |} in
  let response :=
    match _query_provider provider with
    | Some remote => answer remote
    | None => None
    end in
  match response with
  | None => ("No response received", b1)
  | Some response_text =>
      match customize_response response_text task_type_str with
      | inl customized =>
          (customized,
           {| smart_routing := smart_routing b1; router := router b1;
              current_provider := current_provider b1;
              last_query := last_query b1;
              last_response := Some customized;
              history := QueryHistory._add_to_history (history b1) now_iso
                           query customized provider |})
      | inr message => ("Error processing query: " ++ message, b1)
      end
  end.

End WithCustomizer.
End AIBackend.

Module AdvancedAIBackend.
Section WithResponse.
(** The response; [truthy] is [bool(response)]. *)
Context {P : Type}.
Variable truthy : P -> bool.

(** The attributes that [class AdvancedAIBackend] adds to its base. *)
Record t : Type := mkBackend {
  cache : ResponseCache.t P;
  context : ContextManager.t;
  enable_cache : bool;
  enable_context : bool
}.

(** [AdvancedAIBackend.__init__]: [cache_size] (default 100),
    [history_size] (default 10) and the two feature flags (default on). *)
Definition init (cache_size history_size : option Z)
           (response_caching conversation_context : option bool) : t :=
  {| cache := ResponseCache.init
                (match cache_size with Some n => n | None => 100%Z end);
     context := ContextManager.init
                  (match history_size with Some n => n | None => 10%Z end);
     enable_cache := match response_caching with Some b => b | None => true end;
     enable_context :=
       match conversation_context with Some b => b | None => true end |}.

(** The prompt [query_sync] sends to the provider. *)
Definition enhanced_query (b : t) (query : string) (include_context : bool)
  : string :=
  if include_context && enable_context b then
    let context_text := ContextView.get_context (context b) in
    if negb (String.eqb context_text "No previous context") then
      "Context: " ++ context_text ++ EnhancedSecurity.nl ++ EnhancedSecurity.nl
      ++ "New question: " ++ query
    else query
  else query.

(** [[response] * n] *)
Definition repeat_list (response : P) (n : Z) : list P :=
  repeat response (Z.to_nat n).

(** [AdvancedAIBackend.get_response_with_alternatives], given what its
    [query_sync] returned. *)
Definition alternatives (response : option P) (num_alternatives : Z) : list P :=
  match response with
  | Some r => if truthy r then repeat_list r (Z.min num_alternatives 1) else []
  | None => []
  end.

End WithResponse.
Arguments t : clear implicits.

(** An [AdvancedAIBackend] object: the attributes of the base class and
    its own.  The responses it handles are the strings that the base
    class returns. *)
Record backend : Type := mkObject {
  base : AIBackend.t;
  own : t string
}.

(** How a call ends. *)
Inductive outcome : Type :=
| Returned (response : string)
| Raised (exception : string).

Definition with_cache (b : t string) (c : ResponseCache.t string) : t string :=
  {| cache := c; context := context b;
     enable_cache := enable_cache b; enable_context := enable_context b |}.

Section WithCustomizer.
Variable customize_response : string -> string -> string + string.

(** [AdvancedAIBackend.query_sync].  The clock readings and the remote
    answer come in the order the call uses them: [now1] for the cache
    lookup, [answer] and [now_iso] for [super().query_sync], [now2] for
    the cache store.  The response of the base class is a [str], so
    [response.get('text', '')], evaluated after [self.cache.set] and
    before [add_turn] is entered, raises [AttributeError]; [ValueError]
    is the [min] of an empty cache inside [set]. *)
Definition query_sync (o : backend) (query : string)
           (use_cache include_context : bool)
           (now1 : Z) (answer : Router.api -> option string)
           (now_iso : string) (now2 : Z) : outcome * backend :=
  let looked :=
    if use_cache && enable_cache (own o)
    then ResponseCache.get (cache (own o)) query now1
    else (None, cache (own o)) in
  let b1 := with_cache (own o) (snd looked) in
  let asked :=
    let prompt := enhanced_query b1 query include_context in
    let (response, base') :=
      AIBackend.query_sync customize_response (base o) prompt None
                           answer now_iso in
    if Py.truthy response && enable_cache b1 then
      match ResponseCache.set (cache b1) query response 3600 now2 with
      | Some cache' =>
          (Raised "AttributeError",
           {| base := base'; own := with_cache b1 cache' |})
      | None => (Raised "ValueError", {| base := base'; own := b1 |})
      end
    else (Returned response, {| base := base'; own := b1 |}) in
  match fst looked with
  | Some cached =>
      if Py.truthy cached
      then (Returned cached, {| base := base o; own := b1 |})
      else asked
  | None => asked
  end.

End WithCustomizer.
End AdvancedAIBackend.

Module StreamingAdapter.

(** [class StreamingAdapter] *)
Record t : Type := mkAdapter {
  text : string;
  chunk_size : Z;
  position : Z
}.

(** [StreamingAdapter.__init__] *)
Definition init (text : string) (chunk_size : Z) : t :=
  {| text := text; chunk_size := chunk_size; position := 0 |}.

(** [StreamingAdapter.stream] run to its end: the chunks it yields and the
    adapter afterwards.  Each unit of [fuel] pays for one turn of the
    loop or for its last test; [None] when the fuel runs out first. *)
Fixpoint stream (fuel : nat) (a : t) : option (list string * t) :=
  match fuel with
  | O => None
  | S fuel' =>
      if (position a <? Z.of_nat (String.length (text a)))%Z then
        let chunk :=
          PyStr.slice (position a) (position a + chunk_size a) (text a) in
        match stream fuel' {| text := text a; chunk_size := chunk_size a;
                              position := position a + chunk_size a |} with
        | Some (chunks, a') => Some (chunk :: chunks, a')
        | None => None
        end
      else Some ([], a)
  end.

End StreamingAdapter.

(* ================================================================== *)
(** * Notions the statements use *)
(* ================================================================== *)

(** Keys of a dict are pairwise distinct. *)
Definition dict_wf {V : Type} (d : Dict.t V) : Prop := NoDup (Dict.keys d).

(** The key both [ResponseCache.get] and [ResponseCache.set] compute from a
    query. *)
Definition normalized (q : string) : string := Py.strip (Py.lower q).

(** The size bound together with a capacity that lets [set] evict. *)
Definition cache_inv {P : Type} (c : ResponseCache.t P) : Prop :=
  (1 <= ResponseCache.max_entries c)%Z /\
  (Z.of_nat (List.length (ResponseCache.cache c)) <= ResponseCache.max_entries c)%Z.

(** The token that [parse_sudo_keyword] reads as a duration: the one after
    the first ["code"] token that has a successor. *)
Fixpoint code_argument (parts : list string) : option string :=
  match parts with
  | [] => None
  | part :: rest =>
      if String.eqb part "code" then
        match rest with
        | next :: _ => Some next
        | [] => None
        end
      else code_argument rest
  end.

(** A string with a character that is not whitespace. *)
Fixpoint nonblank (s : string) : bool :=
  match s with
  | EmptyString => false
  | String c s' => negb (Py.is_space c) || nonblank s'
  end.

(** The bound [parse_sudo_keyword] puts on a duration. *)
Definition in_bound (n : Z) : bool := (0 <? n)%Z && (n <=? 3600)%Z.

(** The manager built from a configuration that sets nothing. *)
Definition default_manager : EnhancedSecurity.t :=
  EnhancedSecurity.build
    {| EnhancedSecurity.security := None; EnhancedSecurity.other_keys := true |}
    EnhancedSecurity.empty_security.

(** The texts the specification lets trigger a session: the configured
    keyword itself, or a keyword-plus-integer variant with [0 < N <= 3600],
    be it ["sudo code N"] or the configured keyword followed by [N]. *)
Definition claimed_trigger (m : EnhancedSecurity.t) (text : string) : Prop :=
  normalized text = Py.lower (EnhancedSecurity.sudo_keyword m) \/
  exists N : Z,
    (0 < N <= 3600)%Z /\
    (normalized text = ("sudo code " ++ Py.str_of_int N)%string \/
     normalized text
     = (Py.lower (EnhancedSecurity.sudo_keyword m) ++ " " ++ Py.str_of_int N)%string).

(** The ASCII letters, each in its upper and its lower case. *)
Definition letter_cases : list (ascii * ascii) :=
  combine (list_ascii_of_string "ABCDEFGHIJKLMNOPQRSTUVWXYZ")
          (list_ascii_of_string "abcdefghijklmnopqrstuvwxyz").

(** Two characters that are the same, or one letter in its two cases. *)
Definition same_letter (a b : ascii) : Prop :=
  a = b \/ In (a, b) letter_cases \/ In (b, a) letter_cases.

(** Two texts that differ in the case of their letters at most. *)
Inductive same_but_for_case : string -> string -> Prop :=
| same_empty : same_but_for_case "" ""
| same_next a b s t :
    same_letter a b -> same_but_for_case s t ->
    same_but_for_case (String a s) (String b t).

(** Every entry of a store is filed under its own query, which is in
    normalized form. *)
Definition keyed {P : Type} (d : Dict.t (ResponseCache.CachedResponse P))
  : Prop :=
  forall k e, In (k, e) d -> k = ResponseCache.query e /\ normalized k = k.

Local Open Scope list_scope.

(* ================================================================== *)
(** * Facts about dicts *)
(* ================================================================== *)

Section DictFacts.
Context {V : Type}.
Implicit Types (d : Dict.t V) (k : string) (v : V).

Lemma lookup_store_same k v d : Dict.lookup k (Dict.store k v d) = Some v.
Proof.
  induction d as [|[k' v'] d IH]; simpl.
  - now rewrite String.eqb_refl.
  - destruct (String.eqb k k') eqn:E; simpl.
    + now rewrite String.eqb_refl.
    + now rewrite E.
Qed.

Lemma lookup_remove_same k d : Dict.lookup k (Dict.remove k d) = None.
Proof.
  induction d as [|[k' v'] d IH]; simpl; auto.
  destruct (String.eqb k k') eqn:E; simpl; auto.
  now rewrite E.
Qed.

Lemma length_remove_le k d :
  (List.length (Dict.remove k d) <= List.length d)%nat.
Proof.
  induction d as [|[k' v'] d IH]; simpl; auto.
  destruct (String.eqb k k'); simpl; lia.
Qed.

Lemma length_remove_lt k v d :
  In (k, v) d -> (List.length (Dict.remove k d) < List.length d)%nat.
Proof.
  induction d as [|[k' v'] d IH]; simpl; [tauto|].
  intros [H|H].
  - inversion H; subst. rewrite String.eqb_refl.
    pose proof (length_remove_le k d). lia.
  - specialize (IH H). destruct (String.eqb k k'); simpl; lia.
Qed.

Lemma length_store_le k v d :
  (List.length (Dict.store k v d) <= S (List.length d))%nat.
Proof.
  induction d as [|[k' v'] d IH]; simpl; auto.
  destruct (String.eqb k k'); simpl; lia.
Qed.

Lemma in_store k v d k' v' :
  In (k', v') (Dict.store k v d) -> (k', v') = (k, v) \/ In (k', v') d.
Proof.
  induction d as [|[k0 v0] d IH]; simpl.
  - intros [H|[]]. now left.
  - destruct (String.eqb k k0); simpl; intros [H|H]; auto.
    destruct (IH H); auto.
Qed.

Lemma in_remove k d k' v' :
  In (k', v') (Dict.remove k d) -> In (k', v') d /\ k' <> k.
Proof.
  induction d as [|[k0 v0] d IH]; simpl; [tauto|].
  destruct (String.eqb k k0) eqn:E.
  - intros H. destruct (IH H). auto.
  - simpl. intros [H|H].
    + inversion H; subst. split; auto.
      apply String.eqb_neq in E. congruence.
    + destruct (IH H). auto.
Qed.

Lemma remove_absent k d : ~ In k (Dict.keys d) -> Dict.remove k d = d.
Proof.
  induction d as [|[k0 v0] d IH]; simpl; auto.
  intros H. destruct (String.eqb k k0) eqn:E.
  - apply String.eqb_eq in E. subst. tauto.
  - f_equal. apply IH. tauto.
Qed.

(** Deleting a key of a well-formed dict removes exactly its entry. *)
Lemma remove_split k v pre post :
  dict_wf (pre ++ (k, v) :: post) ->
  Dict.remove k (pre ++ (k, v) :: post) = pre ++ post.
Proof.
  unfold dict_wf, Dict.keys. rewrite map_app. simpl. intros H.
  apply NoDup_remove in H. destruct H as [_ H]. rewrite in_app_iff in H.
  induction pre as [|[k0 v0] pre IH]; simpl in *.
  - rewrite String.eqb_refl. apply remove_absent. tauto.
  - destruct (String.eqb k k0) eqn:E.
    + apply String.eqb_eq in E. subst. tauto.
    + f_equal. apply IH. tauto.
Qed.

Lemma lookup_in k v d : dict_wf d -> In (k, v) d -> Dict.lookup k d = Some v.
Proof.
  unfold dict_wf, Dict.keys.
  induction d as [|[k0 v0] d IH]; simpl; [tauto|].
  intros Hnd [H|H].
  - inversion H; subst. now rewrite String.eqb_refl.
  - inversion Hnd; subst.
    destruct (String.eqb k k0) eqn:E.
    + apply String.eqb_eq in E. subst.
      exfalso. apply H2. change k0 with (fst (k0, v)). now apply in_map.
    + auto.
Qed.

Lemma keys_remove_incl k d x :
  In x (Dict.keys (Dict.remove k d)) -> In x (Dict.keys d).
Proof.
  induction d as [|[k0 v0] d IH]; simpl; auto.
  destruct (String.eqb k k0); simpl; intuition.
Qed.

Lemma wf_remove k d : dict_wf d -> dict_wf (Dict.remove k d).
Proof.
  unfold dict_wf.
  induction d as [|[k0 v0] d IH]; simpl; auto.
  intros H. inversion H; subst.
  destruct (String.eqb k k0); simpl; auto.
  constructor; auto. intros Hin. apply H2. eapply keys_remove_incl; eauto.
Qed.

Lemma keys_store k v d x :
  In x (Dict.keys (Dict.store k v d)) -> x = k \/ In x (Dict.keys d).
Proof.
  induction d as [|[k0 v0] d IH]; simpl.
  - intuition.
  - destruct (String.eqb k k0) eqn:E; simpl.
    + apply String.eqb_eq in E. subst. intuition.
    + intros [H|H]; auto. destruct (IH H); auto.
Qed.

Lemma wf_store k v d : dict_wf d -> dict_wf (Dict.store k v d).
Proof.
  unfold dict_wf.
  induction d as [|[k0 v0] d IH]; simpl.
  - intros _. constructor; [simpl; tauto | constructor].
  - intros H. inversion H; subst.
    destruct (String.eqb k k0) eqn:E; simpl.
    + apply String.eqb_eq in E. subst. now constructor.
    + constructor; auto. intros Hin.
      apply keys_store in Hin. destruct Hin as [->|Hin]; auto.
      now rewrite String.eqb_refl in E.
Qed.

Lemma min_from_le_best (rank : V -> Z) best rest :
  (rank (snd (Dict.min_from rank best rest)) <= rank (snd best))%Z.
Proof.
  revert best. induction rest as [|x rest IH]; intros best; simpl; [lia|].
  destruct (rank (snd x) <? rank (snd best))%Z eqn:E.
  - apply Z.ltb_lt in E. specialize (IH x). lia.
  - apply IH.
Qed.

(** [min] returns the first entry of least rank: everything before it
    ranks strictly higher, everything after it at least as high. *)
Lemma min_from_split (rank : V -> Z) best rest :
  exists pre post,
    best :: rest = pre ++ Dict.min_from rank best rest :: post /\
    Forall (fun x => rank (snd (Dict.min_from rank best rest)) < rank (snd x))%Z pre /\
    Forall (fun x => rank (snd (Dict.min_from rank best rest)) <= rank (snd x))%Z post.
Proof.
  revert best. induction rest as [|x rest IH]; intros best; simpl.
  - exists [], []. repeat split; constructor.
  - destruct (rank (snd x) <? rank (snd best))%Z eqn:E.
    + apply Z.ltb_lt in E.
      pose proof (min_from_le_best rank x rest) as Hle.
      destruct (IH x) as (pre & post & Heq & Hpre & Hpost).
      exists (best :: pre), post. rewrite <- app_comm_cons, <- Heq.
      repeat split; auto. constructor; auto. lia.
    + apply Z.ltb_ge in E.
      destruct (IH best) as (pre & post & Heq & Hpre & Hpost).
      remember (Dict.min_from rank best rest) as r eqn:Hr. clear Hr.
      destruct pre as [|y pre]; simpl in Heq.
      * injection Heq as Hb Hrest. subst r rest.
        exists [], (x :: post). simpl.
        repeat split; auto.
      * injection Heq as Hb Hrest. subst y rest.
        exists (best :: x :: pre), post. simpl.
        repeat split; auto.
        inversion Hpre; subst.
        constructor; auto. constructor; auto; lia.
Qed.

End DictFacts.

(* ================================================================== *)
(** * The response cache *)
(* ================================================================== *)

Section CacheFacts.
Context {P : Type}.
Import ResponseCache.
Implicit Types (c : ResponseCache.t P) (q : string) (r : P).

Lemma min_key_in (d : Dict.t (CachedResponse P)) k :
  Dict.min_key created_at d = Some k -> exists e, In (k, e) d.
Proof.
  destruct d as [|x rest]; simpl; [discriminate|].
  intros H. injection H as <-.
  destruct (min_from_split created_at x rest) as (pre & post & Heq & _).
  exists (snd (Dict.min_from created_at x rest)).
  rewrite <- surjective_pairing.
  assert (Hin : In (Dict.min_from created_at x rest)
                   (pre ++ Dict.min_from created_at x rest :: post))
    by apply in_elt.
  rewrite <- Heq in Hin. exact Hin.
Qed.

(** With room for at least one entry the eviction step never raises and
    leaves room for the entry that follows. *)
Lemma evict_total c :
  cache_inv c ->
  exists d, evict c = Some d /\
            (Z.of_nat (List.length d) <= max_entries c - 1)%Z.
Proof.
  intros [Hm Hlen]. unfold evict.
  destruct (max_entries c <=? Z.of_nat (List.length (cache c)))%Z eqn:E.
  - apply Z.leb_le in E.
    destruct (Dict.min_key created_at (cache c)) as [k|] eqn:Hk.
    + destruct (min_key_in _ _ Hk) as [e He].
      eexists; split; [reflexivity|].
      pose proof (length_remove_lt _ _ _ He). lia.
    + destruct (cache c); simpl in *; [lia | discriminate].
  - apply Z.leb_gt in E. eexists; split; [reflexivity | lia].
Qed.

Lemma set_total c q r ttl_seconds now :
  cache_inv c ->
  exists c', set c q r ttl_seconds now = Some c' /\ cache_inv c' /\
             max_entries c' = max_entries c.
Proof.
  intros Hinv. destruct (evict_total c Hinv) as (d & Hd & Hlen).
  unfold set. rewrite Hd. eexists; split; [reflexivity|].
  destruct Hinv as [Hm _]. unfold cache_inv; simpl.
  pose proof (length_store_le (normalized q) (new_entry q r ttl_seconds now) d).
  unfold normalized in *. repeat split; lia.
Qed.

Lemma get_inv c q now :
  cache_inv c ->
  cache_inv (snd (get c q now)) /\
  max_entries (snd (get c q now)) = max_entries c.
Proof.
  intros [Hm Hlen]. unfold get.
  destruct (Dict.lookup _ (cache c)) as [e|]; [|now split].
  destruct (is_valid e now); [now split|].
  unfold cache_inv; simpl.
  pose proof (length_remove_le (Py.strip (Py.lower q)) (cache c)).
  repeat split; lia.
Qed.

Lemma step_total c (o : op P) :
  cache_inv c ->
  exists c', step c o = Some c' /\ cache_inv c' /\
             max_entries c' = max_entries c.
Proof.
  intros Hinv. destruct o as [q now | q r ttl_seconds now | ]; simpl.
  - eexists; split; [reflexivity|]. now apply get_inv.
  - now apply set_total.
  - eexists; split; [reflexivity|].
    destruct Hinv as [Hm _]. unfold cache_inv; simpl. repeat split; lia.
Qed.

Lemma run_total (ops : list (op P)) c :
  cache_inv c ->
  exists c', run c ops = Some c' /\ cache_inv c' /\
             max_entries c' = max_entries c.
Proof.
  revert c. induction ops as [|o ops IH]; intros c Hinv; simpl.
  - now exists c.
  - destruct (step_total c o Hinv) as (c1 & -> & Hinv1 & Hm1).
    destruct (IH c1 Hinv1) as (c2 & Hrun & Hinv2 & Hm2).
    exists c2. repeat split; auto; try apply Hinv2. congruence.
Qed.

(** Every call keeps the keys of the store distinct. *)
Lemma step_wf c (o : op P) c' :
  dict_wf (cache c) -> step c o = Some c' -> dict_wf (cache c').
Proof.
  intros Hwf. destruct o as [q now | q r ttl_seconds now | ]; simpl.
  - intros H. injection H as <-. unfold get.
    destruct (Dict.lookup _ (cache c)) as [e|]; [|exact Hwf].
    destruct (is_valid e now); [exact Hwf|]. simpl. now apply wf_remove.
  - unfold set, evict.
    destruct (max_entries c <=? _)%Z.
    + destruct (Dict.min_key created_at (cache c)); [|discriminate].
      intros H. injection H as <-. simpl. now apply wf_store, wf_remove.
    + intros H. injection H as <-. simpl. now apply wf_store.
  - intros H. injection H as <-. simpl. constructor.
Qed.

Lemma run_wf (ops : list (op P)) c c' :
  dict_wf (cache c) -> run c ops = Some c' -> dict_wf (cache c').
Proof.
  revert c. induction ops as [|o ops IH]; intros c Hwf; simpl.
  - intros H. injection H as <-. exact Hwf.
  - destruct (step c o) as [c1|] eqn:E; [|discriminate].
    apply IH. eapply step_wf; eassumption.
Qed.

(** C10.  A cache built with [max_entries >= 1] runs every sequence of
    [get], [set] and [clear] calls to the end, none of them raising, and
    the cache it ends in holds at most [max_entries] entries.  Every
    prefix of a sequence is a sequence, so the bound holds after each
    call. *)
Theorem C10_cache_size_bounded (max : Z) (ops : list (op P)) :
  (1 <= max)%Z ->
  exists c, run (init max) ops = Some c /\
            max_entries c = max /\
            (Z.of_nat (entries c) <= max)%Z.
Proof.
  intros Hmax.
  assert (Hinv : cache_inv (init (P := P) max)) by (split; simpl; lia).
  destruct (run_total ops _ Hinv) as (c & Hrun & [_ Hlen] & Hm).
  simpl in Hm. exists c. unfold entries. repeat split; auto. lia.
Qed.

(** The bound is kept step by step, from any cache that satisfies it. *)
Lemma step_keeps_bound c (o : op P) c' :
  cache_inv c -> step c o = Some c' -> cache_inv c'.
Proof.
  intros Hinv Hs. destruct (step_total c o Hinv) as (c1 & H1 & Hinv1 & _).
  congruence.
Qed.

Lemma get_hit c q now p :
  fst (get c q now) = Some p ->
  exists e, Dict.lookup (normalized q) (cache c) = Some e /\
            response e = p /\ (now < created_at e + ttl e)%Z.
Proof.
  unfold get, normalized.
  destruct (Dict.lookup _ (cache c)) as [e|]; [|discriminate].
  unfold is_valid. destruct (now <? created_at e + ttl e)%Z eqn:E;
    simpl; [|discriminate].
  intros H. injection H as <-. exists e. apply Z.ltb_lt in E. auto.
Qed.

Lemma get_expired c q now e :
  Dict.lookup (normalized q) (cache c) = Some e ->
  (created_at e + ttl e <= now)%Z ->
  get c q now = (None, {| cache := Dict.remove (normalized q) (cache c);
                          max_entries := max_entries c |}).
Proof.
  unfold get, normalized. intros -> H. unfold is_valid.
  apply Z.ltb_ge in H. now rewrite H.
Qed.

(** C4.  After [set(q, r, ttl)] at time [now], a [get] of any query with
    the same normalized form returns [r] itself as long as less than
    [ttl] has elapsed, and from [ttl] on it misses and leaves the store
    without the entry.  For every cache and query whatsoever, [get] only
    returns the payload of a stored entry that has not expired, and an
    entry it finds expired is deleted. *)
Theorem C4_get_after_set c c' q q' r ttl_seconds now :
  set c q r ttl_seconds now = Some c' ->
  normalized q' = normalized q ->
  (forall t, (t < timedelta_seconds ttl_seconds)%Z ->
     get c' q' (now + t) = (Some r, c')) /\
  (forall t, (timedelta_seconds ttl_seconds <= t)%Z ->
     fst (get c' q' (now + t)) = None /\
     Dict.lookup (normalized q') (cache (snd (get c' q' (now + t)))) = None) /\
  (forall c0 q0 t0 p, fst (get c0 q0 t0) = Some p ->
     exists e, Dict.lookup (normalized q0) (cache c0) = Some e /\
               response e = p /\ (t0 < created_at e + ttl e)%Z) /\
  (forall c0 q0 t0 e,
     Dict.lookup (normalized q0) (cache c0) = Some e ->
     (created_at e + ttl e <= t0)%Z ->
     fst (get c0 q0 t0) = None /\
     cache (snd (get c0 q0 t0)) = Dict.remove (normalized q0) (cache c0)).
Proof.
  intros Hset Hq. unfold set in Hset.
  destruct (evict c) as [d|]; [|discriminate]. injection Hset as <-.
  assert (Hl : Dict.lookup (normalized q')
                 (Dict.store (normalized q) (new_entry q r ttl_seconds now) d)
               = Some (new_entry q r ttl_seconds now))
    by (rewrite Hq; apply lookup_store_same).
  repeat split.
  - intros t Ht. unfold get; simpl. fold (normalized q') (normalized q).
    rewrite Hl. unfold is_valid; simpl.
    replace (now + t <? now + timedelta_seconds ttl_seconds)%Z with true
      by (symmetry; apply Z.ltb_lt; lia).
    reflexivity.
  - erewrite get_expired; [reflexivity | exact Hl | simpl; lia].
  - erewrite get_expired; [simpl | exact Hl | simpl; lia].
    apply lookup_remove_same.
  - intros c0 q0 t0 p. apply get_hit.
  - erewrite get_expired by eassumption. reflexivity.
  - erewrite get_expired by eassumption. reflexivity.
Qed.

End CacheFacts.

(** C10 at work: a cache of capacity two after three distinct [set]s, a
    [get] and a repeated [set]. *)
Lemma C10_cache_size_bounded_witness :
  exists c : ResponseCache.t nat,
    ResponseCache.run (ResponseCache.init 2)
      [ ResponseCache.OpSet "a" 1%nat 60 0; ResponseCache.OpSet "b" 2%nat 60 1;
        ResponseCache.OpSet "c" 3%nat 60 2; ResponseCache.OpGet "a" 3;
        ResponseCache.OpSet "B " 4%nat 60 4 ] = Some c /\
    ResponseCache.max_entries c = 2%Z /\
    (Z.of_nat (ResponseCache.entries c) <= 2)%Z.
Proof.
  apply (C10_cache_size_bounded 2). lia.
Defined.

(** C4 at work: [" Hello "] was stored for sixty seconds at time [0] and is
    asked for as ["hello"]. *)
Lemma C4_get_after_set_witness :
  let c' := {| ResponseCache.cache :=
                 [("hello", ResponseCache.new_entry " Hello " 7%nat 60 0)];
               ResponseCache.max_entries := 2 |} in
  (forall t, (t < 60000000)%Z ->
     ResponseCache.get c' "hello" (0 + t) = (Some 7%nat, c')) /\
  (forall t, (60000000 <= t)%Z ->
     fst (ResponseCache.get c' "hello" (0 + t)) = None /\
     Dict.lookup "hello"
       (ResponseCache.cache (snd (ResponseCache.get c' "hello" (0 + t)))) = None).
Proof.
  intros c'.
  pose proof (C4_get_after_set (ResponseCache.init 2) c' " Hello " "hello"
                7%nat 60 0 eq_refl eq_refl) as H.
  split; apply H.
Defined.

Section CacheEviction.
Context {P : Type}.
Import ResponseCache.
Implicit Types (c : ResponseCache.t P) (q : string) (r : P).

Lemma min_key_least (d : Dict.t (CachedResponse P)) k :
  Dict.min_key created_at d = Some k ->
  exists pre e post,
    d = pre ++ (k, e) :: post /\
    Forall (fun x => created_at e < created_at (snd x))%Z pre /\
    Forall (fun x => created_at e <= created_at (snd x))%Z post.
Proof.
  destruct d as [|x rest]; simpl; [discriminate|].
  intros H. injection H as <-.
  destruct (min_from_split created_at x rest) as (pre & post & Heq & Hpre & Hpost).
  exists pre, (snd (Dict.min_from created_at x rest)), post.
  rewrite <- surjective_pairing. auto.
Qed.

Lemma in_store_other (d : Dict.t (CachedResponse P)) k v x :
  In x d -> fst x <> k -> In x (Dict.store k v d).
Proof.
  induction d as [|[k0 v0] d IH]; simpl; [tauto|].
  intros [H|H] Hne.
  - subst x. simpl in Hne. destruct (String.eqb k k0) eqn:E.
    + apply String.eqb_eq in E. congruence.
    + now left.
  - destruct (String.eqb k k0); simpl; auto.
Qed.

(** C5.  [set] on a full, non-empty cache removes exactly one entry, the
    first in insertion order among those of least [created_at] (every entry
    before it is strictly newer, every entry after it at least as new), and
    then stores the new entry under the normalized key with [created_at]
    equal to the time of the call.  If no stored entry is from the future,
    the entry just set is the youngest of the resulting cache; and if every
    other surviving entry is strictly older, the key just set is not the
    one the next eviction picks. *)
Theorem C5_set_on_full_cache_evicts_oldest c q r ttl_seconds now :
  dict_wf (cache c) ->
  cache c <> [] ->
  (max_entries c <= Z.of_nat (List.length (cache c)))%Z ->
  exists pre oldest post c',
    cache c = pre ++ oldest :: post /\
    Forall (fun x => created_at (snd oldest) < created_at (snd x))%Z pre /\
    Forall (fun x => created_at (snd oldest) <= created_at (snd x))%Z post /\
    set c q r ttl_seconds now = Some c' /\
    cache c' = Dict.store (normalized q) (new_entry q r ttl_seconds now)
                          (pre ++ post) /\
    Dict.lookup (normalized q) (cache c') = Some (new_entry q r ttl_seconds now) /\
    created_at (new_entry q r ttl_seconds now) = now /\
    ((forall x, In x (cache c) -> created_at (snd x) <= now)%Z ->
     forall x, In x (cache c') -> (created_at (snd x) <= now)%Z) /\
    ((exists x, In x (pre ++ post) /\ fst x <> normalized q) ->
     (forall x, In x (pre ++ post) -> fst x <> normalized q ->
                (created_at (snd x) < now)%Z) ->
     Dict.min_key created_at (cache c') <> Some (normalized q)).
Proof.
  intros Hwf Hne Hfull.
  destruct (Dict.min_key created_at (cache c)) as [k|] eqn:Hk;
    [| destruct (cache c); [congruence | discriminate]].
  destruct (min_key_least _ _ Hk) as (pre & e & post & Heq & Hpre & Hpost).
  assert (Hev : evict c = Some (pre ++ post)).
  { unfold evict. apply Z.leb_le in Hfull. rewrite Hfull, Hk.
    rewrite Heq. rewrite remove_split; [reflexivity | now rewrite <- Heq]. }
  set (entry := new_entry q r ttl_seconds now).
  set (d' := Dict.store (normalized q) entry (pre ++ post)).
  exists pre, (k, e), post, {| cache := d'; max_entries := max_entries c |}.
  assert (Hwf' : dict_wf d').
  { apply wf_store. rewrite <- (remove_split k e pre post) by now rewrite <- Heq.
    apply wf_remove. now rewrite <- Heq. }
  repeat split; auto.
  - unfold set. now rewrite Hev.
  - apply lookup_store_same.
  - intros Hold [k' e'] Hx. simpl in Hx. unfold d' in Hx.
    apply in_store in Hx. destruct Hx as [Hx|Hx].
    + inversion Hx; subst. simpl. lia.
    + apply Hold. rewrite Heq. rewrite in_app_iff in *. simpl. tauto.
  - intros (x & Hx & Hxk) Holder Hmin. simpl in Hmin.
    destruct (min_key_least _ _ Hmin) as (pre' & e' & post' & Heq' & Hpre' & Hpost').
    assert (Hin : In (normalized q, e') d') by (rewrite Heq'; apply in_elt).
    pose proof (lookup_in _ _ _ Hwf' Hin) as Hl.
    unfold d' in Hl. rewrite lookup_store_same in Hl. injection Hl as <-.
    assert (Hx' : In x d') by (apply in_store_other; auto).
    rewrite Heq' in Hx'. apply in_app_or in Hx'.
    specialize (Holder x Hx Hxk).
    rewrite Forall_forall in Hpre', Hpost'. simpl in *.
    destruct Hx' as [Hx'|[Hx'|Hx']].
    + specialize (Hpre' _ Hx'). simpl in Hpre'. lia.
    + subst x. simpl in Hxk. congruence.
    + specialize (Hpost' _ Hx'). simpl in Hpost'. lia.
Qed.

End CacheEviction.

(** C5 at work: capacity two, ["a"] stored at time 2 before ["b"] stored at
    time 1; setting ["c"] at time 5 evicts ["b"], the older one. *)
Lemma C5_set_on_full_cache_evicts_oldest_witness :
  let c := {| ResponseCache.cache :=
                [("a", ResponseCache.new_entry "a" 1%nat 60 2);
                 ("b", ResponseCache.new_entry "b" 2%nat 60 1)];
              ResponseCache.max_entries := 2 |} in
  exists pre oldest post c',
    ResponseCache.cache c = pre ++ oldest :: post /\
    Forall (fun x => ResponseCache.created_at (snd oldest)
                     < ResponseCache.created_at (snd x))%Z pre /\
    Forall (fun x => ResponseCache.created_at (snd oldest)
                     <= ResponseCache.created_at (snd x))%Z post /\
    ResponseCache.set c "c" 3%nat 60 5 = Some c' /\
    ResponseCache.cache c'
    = Dict.store (normalized "c") (ResponseCache.new_entry "c" 3%nat 60 5)
                 (pre ++ post).
Proof.
  intros c.
  destruct (C5_set_on_full_cache_evicts_oldest c "c" 3%nat 60 5)
    as (pre & oldest & post & c' & H1 & H2 & H3 & H4 & H5 & _).
  - repeat constructor; simpl; intuition discriminate.
  - discriminate.
  - simpl. lia.
  - exists pre, oldest, post, c'. auto.
Defined.

(* ================================================================== *)
(** * The conversation history *)
(* ================================================================== *)

Section HistoryFacts.
Import ContextManager.

Lemma turn_eta (x : Turn) :
  {| timestamp := timestamp x; user := user x; assistant := assistant x |} = x.
Proof. now destruct x. Qed.

Lemma tl_app_cons {A : Type} (h : list A) (x : A) (rest : list A) :
  tl (h ++ [x]) ++ rest = tl (h ++ x :: rest).
Proof.
  destruct h as [|a h]; simpl; [reflexivity|].
  now rewrite <- app_assoc.
Qed.

(** A reachable manager keeps its configured bound and never holds more
    turns than the bound. *)
Lemma reachable_bounded (m : Z) (c : ContextManager.t) :
  (0 <= m)%Z -> reachable m c ->
  max_history c = m /\ (List.length (history c) <= Z.to_nat m)%nat.
Proof.
  intros Hm H. induction H as [| c ts u a H [IHm IHl] | c H [IHm IHl]]; simpl.
  - split; [reflexivity | lia].
  - split; [assumption|]. rewrite IHm.
    destruct (m <? _)%Z eqn:E.
    + unfold pop0. destruct (history c); simpl in *; [lia|].
      rewrite length_app. simpl. lia.
    + apply Z.ltb_ge in E. lia.
  - split; [assumption | lia].
Qed.

Lemma add_turn_history (c : ContextManager.t) (x : Turn) :
  history (add_turn c (timestamp x) (user x) (assistant x))
  = (if (max_history c <? Z.of_nat (List.length (history c ++ [x])))%Z
     then tl (history c ++ [x]) else history c ++ [x]) /\
  max_history (add_turn c (timestamp x) (user x) (assistant x)) = max_history c.
Proof. unfold add_turn, pop0; simpl. now rewrite turn_eta. Qed.

(** The history after a batch of [add_turn]s: the old history followed by
    the batch, cut from the front down to the bound. *)
Lemma add_turns_history (m : Z) (turns : list Turn) :
  (0 <= m)%Z ->
  forall c : ContextManager.t,
    max_history c = m -> (List.length (history c) <= Z.to_nat m)%nat ->
    history (add_turns c turns)
    = skipn (List.length (history c) + List.length turns - Z.to_nat m)
            (history c ++ turns).
Proof.
  intros Hm. induction turns as [|x rest IH]; intros c Hmax Hlen; simpl.
  - rewrite app_nil_r.
    replace (_ + 0 - _)%nat with O by lia. reflexivity.
  - destruct (add_turn_history c x) as [Hh Hm1].
    set (c1 := add_turn c (timestamp x) (user x) (assistant x)) in *.
    rewrite Hmax in Hh.
    destruct (Nat.eq_dec (List.length (history c)) (Z.to_nat m)) as [Hfull|Hroom].
    + replace (m <? _)%Z with true in Hh
        by (symmetry; apply Z.ltb_lt; rewrite length_app; simpl; lia).
      assert (Hl : List.length (history c1) = Z.to_nat m).
      { rewrite Hh. destruct (history c); simpl in *; [lia|].
        rewrite length_app. simpl. lia. }
      rewrite IH by (try congruence; lia).
      rewrite Hl, Hh, tl_app_cons.
      replace (List.length (history c) + S (List.length rest) - Z.to_nat m)%nat
        with (S (List.length rest)) by lia.
      replace (Z.to_nat m + List.length rest - Z.to_nat m)%nat
        with (List.length rest) by lia.
      destruct (history c ++ x :: rest) eqn:E; simpl; [|reflexivity].
      now rewrite skipn_nil.
    + replace (m <? _)%Z with false in Hh
        by (symmetry; apply Z.ltb_ge; rewrite length_app; simpl; lia).
      assert (Hl : List.length (history c1) = S (List.length (history c))).
      { rewrite Hh, length_app. simpl. lia. }
      rewrite IH by (try congruence; lia).
      rewrite Hl, Hh, <- app_assoc.
      change ([x] ++ rest) with (x :: rest). f_equal. lia.
Qed.

(** C7.  From any state the manager can be in, with a bound [max >= 1],
    [max + 5] calls of [add_turn] leave exactly [max] turns: the added
    turns without their first five, in the order they were added. *)
Theorem C7_add_turn_keeps_newest (max : Z) (c : ContextManager.t)
        (turns : list Turn) :
  (1 <= max)%Z ->
  reachable max c ->
  List.length turns = (Z.to_nat max + 5)%nat ->
  history (add_turns c turns) = skipn 5 turns /\
  Z.of_nat (List.length (history (add_turns c turns))) = max.
Proof.
  intros Hmax Hreach Hlen.
  destruct (reachable_bounded max c) as [Hm Hl]; [lia | assumption |].
  assert (Hh : history (add_turns c turns) = skipn 5 turns).
  { rewrite (add_turns_history max turns) by (auto; lia).
    rewrite skipn_app, Hlen.
    rewrite skipn_all2 by lia. rewrite app_nil_l.
    f_equal. lia. }
  split; [exact Hh|].
  rewrite Hh, length_skipn, Hlen. lia.
Qed.

End HistoryFacts.

(** C7 at work: bound two, one turn already in the history, seven more
    added; the last two of the seven remain. *)
Lemma C7_add_turn_keeps_newest_witness :
  let mk := fun s => ContextManager.mkTurn "t" s "ok" in
  let c := ContextManager.add_turn (ContextManager.init 2) "t" "old" "ok" in
  let turns := map mk ["1"; "2"; "3"; "4"; "5"; "6"; "7"] in
  ContextManager.history (ContextManager.add_turns c turns) = [mk "6"; mk "7"] /\
  Z.of_nat (List.length (ContextManager.history (ContextManager.add_turns c turns)))
  = 2%Z.
Proof.
  intros mk c turns.
  apply (C7_add_turn_keeps_newest 2 c turns).
  - lia.
  - apply ContextManager.R_add, ContextManager.R_init.
  - reflexivity.
Defined.

(* ================================================================== *)
(** * The pattern matcher finds exactly the matches *)
(* ================================================================== *)

Section RegexFacts.
Import Regex.
Local Open Scope string_scope.

Lemma lang_void_inv s : lang Void s -> False.
Proof. inversion 1. Qed.

Lemma lang_eps_inv s : lang Eps s -> s = "".
Proof. now inversion 1. Qed.

Lemma lang_seq_inv a b s :
  lang (Seq a b) s -> exists u v, s = u ++ v /\ lang a u /\ lang b v.
Proof. inversion 1; subst; eauto. Qed.

Lemma lang_alt_inv a b s : lang (Alt a b) s -> lang a s \/ lang b s.
Proof. inversion 1; subst; auto. Qed.

Lemma lang_star_inv a s :
  lang (Star a) s ->
  s = "" \/
  exists c u v, s = String c u ++ v /\ lang a (String c u) /\ lang (Star a) v.
Proof. inversion 1; subst; eauto 7. Qed.

Lemma append_empty (a b : string) : a ++ b = "" -> a = "" /\ b = "".
Proof. destruct a; simpl; [auto | discriminate]. Qed.

Lemma lang_seq' a b s : lang (seq' a b) s <-> lang (Seq a b) s.
Proof.
  assert (Hv1 : forall x, lang (Seq Void x) s <-> lang Void s).
  { intros x. split; intros H; [|destruct (lang_void_inv _ H)].
    apply lang_seq_inv in H. destruct H as (u & v & _ & H & _).
    destruct (lang_void_inv _ H). }
  assert (Hv2 : forall x, lang (Seq x Void) s <-> lang Void s).
  { intros x. split; intros H; [|destruct (lang_void_inv _ H)].
    apply lang_seq_inv in H. destruct H as (u & v & _ & _ & H).
    destruct (lang_void_inv _ H). }
  assert (He : forall x, lang (Seq Eps x) s <-> lang x s).
  { intros x. split; intros H.
    - apply lang_seq_inv in H. destruct H as (u & v & -> & Hu & Hv).
      apply lang_eps_inv in Hu. now subst u.
    - change s with ("" ++ s). constructor; [constructor | exact H]. }
  destruct a; destruct b; simpl;
    rewrite ?Hv1, ?Hv2, ?He; reflexivity.
Qed.

Lemma lang_alt' a b s : lang (alt' a b) s <-> lang (Alt a b) s.
Proof.
  assert (Hl : forall x, lang (Alt Void x) s <-> lang x s).
  { intros x. split; intros H; [|now apply L_altr].
    apply lang_alt_inv in H. destruct H as [H|H]; [|exact H].
    destruct (lang_void_inv _ H). }
  assert (Hr : forall x, lang (Alt x Void) s <-> lang x s).
  { intros x. split; intros H; [|now apply L_altl].
    apply lang_alt_inv in H. destruct H as [H|H]; [exact H|].
    destruct (lang_void_inv _ H). }
  destruct a; destruct b; simpl; rewrite ?Hl, ?Hr; reflexivity.
Qed.

Lemma nullable_iff r : nullable r = true <-> lang r "".
Proof.
  induction r as [| | c | l | | a IHa b IHb | a IHa b IHb | a IHa]; simpl.
  - split; [discriminate | intros H; destruct (lang_void_inv _ H)].
  - split; [constructor | reflexivity].
  - split; [discriminate | inversion 1].
  - split; [discriminate | inversion 1].
  - split; [discriminate | inversion 1].
  - rewrite andb_true_iff, IHa, IHb. split.
    + intros [Ha Hb]. change "" with ("" ++ ""). now constructor.
    + intros H. apply lang_seq_inv in H.
      destruct H as (u & v & Huv & Hu & Hv).
      symmetry in Huv. apply append_empty in Huv. destruct Huv; subst. auto.
  - rewrite orb_true_iff, IHa, IHb. split.
    + intros [H|H]; [now apply L_altl | now apply L_altr].
    + apply lang_alt_inv.
  - split; [constructor | reflexivity].
Qed.

(** The derivative by [c] accepts [s] exactly when the pattern accepts
    [c] followed by [s]. *)
Lemma deriv_iff c r : forall s, lang (deriv c r) s <-> lang r (String c s).
Proof.
  induction r as [| | d | l | | a IHa b IHb | a IHa b IHb | a IHa];
    intros s; simpl.
  - split; inversion 1.
  - split; inversion 1.
  - destruct (Ascii.eqb c d) eqn:E.
    + apply Ascii.eqb_eq in E. subst d. split.
      * intros H. apply lang_eps_inv in H. subst. constructor.
      * inversion 1; subst. constructor.
    + apply Ascii.eqb_neq in E. split; [inversion 1|].
      inversion 1; subst. congruence.
  - destruct (mem c l) eqn:E.
    + split.
      * intros H. apply lang_eps_inv in H. subst. now constructor.
      * inversion 1; subst. constructor.
    + split; [inversion 1|]. inversion 1; subst. congruence.
  - destruct (Ascii.eqb c (ascii_of_nat 10)) eqn:E.
    + split; [inversion 1|]. inversion 1; subst. congruence.
    + split.
      * intros H. apply lang_eps_inv in H. subst. now constructor.
      * inversion 1; subst. constructor.
  - assert (Hseq : lang (Seq (deriv c a) b) s <->
                   exists u v, s = u ++ v /\ lang a (String c u) /\ lang b v).
    { split.
      - intros H. apply lang_seq_inv in H.
        destruct H as (u & v & -> & Hu & Hv). exists u, v.
        rewrite <- IHa. auto.
      - intros (u & v & -> & Hu & Hv). constructor; [now apply IHa | exact Hv]. }
    assert (Hinv : lang (Seq a b) (String c s) <->
                   (lang a "" /\ lang b (String c s)) \/
                   exists u v, s = u ++ v /\ lang a (String c u) /\ lang b v).
    { split.
      - intros H. apply lang_seq_inv in H.
        destruct H as (u & v & Huv & Hu & Hv).
        destruct u as [|x u]; simpl in Huv.
        + subst v. left. auto.
        + injection Huv as -> ->. right. eauto.
      - intros [[Ha Hb] | (u & v & -> & Hu & Hv)].
        + change (String c s) with ("" ++ String c s). now constructor.
        + change (String c (u ++ v)) with (String c u ++ v). now constructor. }
    rewrite Hinv. destruct (nullable a) eqn:En.
    + rewrite lang_alt'. split.
      * intros H. apply lang_alt_inv in H. destruct H as [H|H].
        -- right. apply Hseq. now apply lang_seq'.
        -- left. split; [now apply nullable_iff | now apply IHb].
      * intros [[_ Hb] | H].
        -- apply L_altr. now apply IHb.
        -- apply L_altl. apply lang_seq'. now apply Hseq.
    + rewrite lang_seq', Hseq. split; [auto|].
      intros [[Ha _] | H]; [|exact H].
      apply nullable_iff in Ha. congruence.
  - rewrite lang_alt'. split.
    + intros H. apply lang_alt_inv in H. destruct H as [H|H].
      * apply L_altl. now apply IHa.
      * apply L_altr. now apply IHb.
    + intros H. apply lang_alt_inv in H. destruct H as [H|H].
      * apply L_altl. now apply IHa.
      * apply L_altr. now apply IHb.
  - rewrite lang_seq'. split.
    + intros H. apply lang_seq_inv in H.
      destruct H as (u & v & -> & Hu & Hv).
      change (String c (u ++ v)) with (String c u ++ v).
      constructor; [now apply IHa | exact Hv].
    + intros H. apply lang_star_inv in H.
      destruct H as [H | (x & u & v & Heq & Hu & Hv)]; [discriminate|].
      simpl in Heq. injection Heq as <- ->.
      constructor; [now apply IHa | exact Hv].
Qed.

Lemma match_prefix_iff r s :
  match_prefix r s = true <-> exists p t, s = p ++ t /\ lang r p.
Proof.
  revert r. induction s as [|c s IH]; intros r; simpl.
  - rewrite orb_false_r, nullable_iff. split.
    + intros H. exists "", "". auto.
    + intros (p & t & Hpt & H). symmetry in Hpt.
      apply append_empty in Hpt. destruct Hpt; subst. exact H.
  - rewrite orb_true_iff, nullable_iff, IH. split.
    + intros [H | (p & t & -> & H)].
      * exists "", (String c s). auto.
      * exists (String c p), t. split; [reflexivity | now apply deriv_iff].
    + intros (p & t & Hpt & H). destruct p as [|x p]; simpl in Hpt.
      * left. exact H.
      * injection Hpt as <- ->. right. exists p, t.
        split; [reflexivity | now apply deriv_iff].
Qed.

(** [search] answers [true] exactly when some stretch of the text is in
    the language of the pattern. *)
Lemma search_iff r s :
  search r s = true <-> exists a p t, s = a ++ p ++ t /\ lang r p.
Proof.
  induction s as [|c s IH]; cbn [search].
  - rewrite orb_false_r, match_prefix_iff. split.
    + intros (p & t & Hpt & H). exists "", p, t. auto.
    + intros (a & p & t & Hapt & H). exists p, t. split; [|exact H].
      symmetry in Hapt. apply append_empty in Hapt.
      destruct Hapt as [_ Hpt]. now symmetry.
  - rewrite orb_true_iff, match_prefix_iff, IH. split.
    + intros [(p & t & Hpt & H) | (a & p & t & -> & H)].
      * exists "", p, t. auto.
      * exists (String c a), p, t. auto.
    + intros (a & p & t & Hapt & H). destruct a as [|x a]; simpl in Hapt.
      * left. eauto.
      * injection Hapt as <- ->. right. eauto.
Qed.

End RegexFacts.

(* ================================================================== *)
(** * Task classification *)
(* ================================================================== *)

Section RouterFacts.
Import Regex SmartRouter.

Lemma max_by_from_ge_best best rest :
  (snd best <= snd (max_by_from best rest))%nat.
Proof.
  revert best. induction rest as [|x rest IH]; intros best; simpl; [lia|].
  destruct (snd best <? snd x)%nat eqn:E.
  - apply Nat.ltb_lt in E. specialize (IH x). lia.
  - apply IH.
Qed.

(** [max] keeps the first entry of greatest score: everything before it
    scores strictly less, everything after it at most as much. *)
Lemma max_by_from_split best rest :
  exists pre post,
    best :: rest = pre ++ max_by_from best rest :: post /\
    Forall (fun x => snd x < snd (max_by_from best rest))%nat pre /\
    Forall (fun x => snd x <= snd (max_by_from best rest))%nat post.
Proof.
  revert best. induction rest as [|x rest IH]; intros best; simpl.
  - exists [], []. repeat split; constructor.
  - destruct (snd best <? snd x)%nat eqn:E.
    + apply Nat.ltb_lt in E.
      pose proof (max_by_from_ge_best x rest) as Hge.
      destruct (IH x) as (pre & post & Heq & Hpre & Hpost).
      exists (best :: pre), post. rewrite <- app_comm_cons, <- Heq.
      repeat split; auto. constructor; auto. lia.
    + apply Nat.ltb_ge in E.
      destruct (IH best) as (pre & post & Heq & Hpre & Hpost).
      remember (max_by_from best rest) as r eqn:Hr. clear Hr.
      destruct pre as [|y pre]; simpl in Heq.
      * injection Heq as Hb Hrest. subst r rest.
        exists [], (x :: post). simpl. repeat split; auto.
      * injection Heq as Hb Hrest. subst y rest.
        exists (best :: x :: pre), post. simpl.
        repeat split; auto.
        inversion Hpre; subst.
        constructor; auto. constructor; auto; lia.
Qed.

Lemma max_value_zero (xs : list nat) :
  max_value xs = 0%nat <-> Forall (fun n => n = 0%nat) xs.
Proof.
  unfold max_value. induction xs as [|x xs IH]; simpl.
  - split; auto.
  - split.
    + intros H. constructor; [lia|]. apply IH. lia.
    + intros H. inversion H; subst. apply IH in H3. lia.
Qed.

(** The score of a category is the number of its patterns found in the
    query. *)
Lemma score_patterns_counts patterns q :
  score_patterns patterns q
  = List.length (filter (fun p => search p q) patterns).
Proof.
  induction patterns as [|p ps IH]; simpl; [reflexivity|].
  destruct (search p q); simpl; now rewrite IH.
Qed.

(** The result of classification over any table of patterns. *)
Lemma detect_with_spec table query :
  let scores := scores_of table (Py.lower query) in
  ((forall x, In x scores -> snd x = 0%nat) ->
   detect_with table query = GENERAL) /\
  ((exists x, In x scores /\ (0 < snd x)%nat) ->
   exists pre n post,
     scores = pre ++ (detect_with table query, n) :: post /\
     (0 < n)%nat /\
     Forall (fun x => snd x < n)%nat pre /\
     Forall (fun x => snd x <= n)%nat post).
Proof.
  intros scores. unfold detect_with. fold scores. split.
  - intros Hz.
    assert (Hm : max_value (map snd scores) = 0%nat).
    { apply max_value_zero, Forall_forall. intros n Hn.
      apply in_map_iff in Hn. destruct Hn as (x & <- & Hx). auto. }
    now rewrite Hm.
  - intros (x & Hx & Hpos).
    destruct (0 <? max_value (map snd scores))%nat eqn:E.
    + destruct scores as [|s0 rest] eqn:Hs; [destruct Hx|]. simpl max_key.
      destruct (max_by_from_split s0 rest) as (pre & post & Heq & Hpre & Hpost).
      exists pre, (snd (max_by_from s0 rest)), post.
      rewrite <- surjective_pairing. repeat split; auto.
      assert (Hin : In x (pre ++ max_by_from s0 rest :: post))
        by (rewrite <- Heq; exact Hx).
      rewrite Forall_forall in Hpre, Hpost.
      apply in_app_or in Hin. destruct Hin as [Hin|[Hin|Hin]].
      * specialize (Hpre _ Hin). lia.
      * subst x. exact Hpos.
      * specialize (Hpost _ Hin). lia.
    + apply Nat.ltb_ge in E.
      assert (Hm : max_value (map snd scores) = 0%nat) by lia.
      apply max_value_zero in Hm. rewrite Forall_forall in Hm.
      specialize (Hm (snd x) (in_map snd _ _ Hx)). lia.
Qed.

Lemma letter_cases_lower (a b : ascii) :
  In (a, b) letter_cases -> Py.lower_char a = b /\ Py.lower_char b = b.
Proof.
  intros H. cbv [letter_cases combine list_ascii_of_string In] in H.
  repeat (destruct H as [H|H];
          [injection H as <- <-; split; reflexivity|]).
  destruct H.
Qed.

(** Texts that differ in letter case only have one lower-case form. *)
Lemma same_but_for_case_lower (s t : string) :
  same_but_for_case s t -> Py.lower s = Py.lower t.
Proof.
  induction 1 as [|a b s t Hab _ IH]; [reflexivity|].
  cbn [Py.lower]. rewrite IH. f_equal.
  destruct Hab as [-> | [H|H]]; [reflexivity | |];
    apply letter_cases_lower in H; destruct H; congruence.
Qed.

(** C6.  Each category's score is the number of its patterns found in the
    lower-cased query, a pattern being found when some stretch of the text
    is in its language.  Letter case never matters: two queries that
    differ in the case of their letters only get the same category.  With
    all scores zero the answer is [GENERAL]; otherwise it is the first
    category, in the order the table declares them, that reaches the
    highest score: every category declared before it scores strictly less
    and none scores more.  The three sample queries classify as [CODE],
    [FACTUAL] and [GENERAL], and so do they in capital letters. *)
Theorem C6_detect_task_type (query : string) :
  let q := Py.lower query in
  let scores := scores_of task_patterns q in
  scores = map (fun tp => (fst tp,
                           List.length (filter (fun p => search p q) (snd tp))))
               task_patterns /\
  (forall p, search p q = true <->
             exists a b c, q = (a ++ b ++ c)%string /\ lang p b) /\
  (forall other, Py.lower other = q ->
                 detect_task_type other = detect_task_type query) /\
  (forall other, same_but_for_case other query ->
                 detect_task_type other = detect_task_type query) /\
  ((forall x, In x scores -> snd x = 0%nat) ->
   detect_task_type query = GENERAL) /\
  ((exists x, In x scores /\ (0 < snd x)%nat) ->
   exists pre n post,
     scores = pre ++ (detect_task_type query, n) :: post /\
     (0 < n)%nat /\
     Forall (fun x => snd x < n)%nat pre /\
     Forall (fun x => snd x <= n)%nat post) /\
  detect_task_type "write a python function" = CODE /\
  detect_task_type "what is the capital of France" = FACTUAL /\
  detect_task_type "hello" = GENERAL /\
  detect_task_type "WRITE A PYTHON FUNCTION" = CODE /\
  detect_task_type "What Is The CAPITAL Of France" = FACTUAL /\
  detect_task_type "HELLO" = GENERAL.
Proof.
  intros q scores.
  split; [|split; [|split; [|split; [|split; [|split]]]]].
  - unfold scores, scores_of. apply map_ext. intros [ty ps]. simpl.
    now rewrite score_patterns_counts.
  - intros p. apply search_iff.
  - intros other Ho. unfold detect_task_type, detect_with. now rewrite Ho.
  - intros other Ho. unfold detect_task_type, detect_with.
    now rewrite (same_but_for_case_lower _ _ Ho).
  - apply (detect_with_spec task_patterns query).
  - apply (detect_with_spec task_patterns query).
  - split; [vm_compute; reflexivity|].
    split; [vm_compute; reflexivity|].
    split; [vm_compute; reflexivity|].
    split; [vm_compute; reflexivity|].
    split; vm_compute; reflexivity.
Qed.

End RouterFacts.

(* ================================================================== *)
(** * Strings: trimming, case and slicing *)
(* ================================================================== *)

Section StringFacts.
Local Open Scope string_scope.

Lemma append_assoc_s (a b c : string) : (a ++ b) ++ c = a ++ (b ++ c).
Proof. induction a as [|x a IH]; simpl; [reflexivity | now rewrite IH]. Qed.

Lemma length_append_s (a b : string) :
  String.length (a ++ b) = (String.length a + String.length b)%nat.
Proof. induction a as [|x a IH]; simpl; [reflexivity | now rewrite IH]. Qed.

Lemma lower_append (a b : string) : Py.lower (a ++ b) = Py.lower a ++ Py.lower b.
Proof. induction a as [|x a IH]; simpl; [reflexivity | now rewrite IH]. Qed.

Lemma lower_length (s : string) : String.length (Py.lower s) = String.length s.
Proof. induction s as [|x s IH]; simpl; [reflexivity | now rewrite IH]. Qed.

(** Lower-casing turns no character into whitespace or out of it. *)
Lemma is_space_lower_char (c : ascii) :
  Py.is_space (Py.lower_char c) = Py.is_space c.
Proof.
  destruct c as [[] [] [] [] [] [] [] []]; vm_compute; reflexivity.
Qed.

Lemma lstrip_lower (s : string) : Py.lstrip (Py.lower s) = Py.lower (Py.lstrip s).
Proof.
  induction s as [|c s IH]; simpl; [reflexivity|].
  rewrite is_space_lower_char. destruct (Py.is_space c); [exact IH | reflexivity].
Qed.

Lemma rstrip_lower (s : string) : Py.rstrip (Py.lower s) = Py.lower (Py.rstrip s).
Proof.
  induction s as [|c s IH]; simpl; [reflexivity|].
  rewrite IH, is_space_lower_char.
  destruct (Py.rstrip s); simpl; [destruct (Py.is_space c)|]; reflexivity.
Qed.

(** Trimming and lower-casing commute. *)
Lemma strip_lower (s : string) : Py.strip (Py.lower s) = Py.lower (Py.strip s).
Proof. unfold Py.strip. now rewrite lstrip_lower, rstrip_lower. Qed.

Lemma lstrip_truthy (s : string) : Py.truthy (Py.lstrip s) = nonblank s.
Proof.
  induction s as [|c s IH]; simpl; [reflexivity|].
  destruct (Py.is_space c); simpl; [exact IH | reflexivity].
Qed.

Lemma rstrip_truthy (s : string) : Py.truthy (Py.rstrip s) = nonblank s.
Proof.
  induction s as [|c s IH]; simpl; [reflexivity|].
  rewrite <- IH. destruct (Py.rstrip s); simpl.
  - destruct (Py.is_space c); reflexivity.
  - now rewrite orb_true_r.
Qed.

Lemma nonblank_lstrip (s : string) : nonblank (Py.lstrip s) = nonblank s.
Proof.
  induction s as [|c s IH]; simpl; [reflexivity|].
  destruct (Py.is_space c) eqn:E; simpl; [exact IH | now rewrite E].
Qed.

Lemma nonblank_rstrip (s : string) : nonblank (Py.rstrip s) = nonblank s.
Proof.
  induction s as [|c s IH]; simpl; [reflexivity|].
  rewrite <- IH. destruct (Py.rstrip s); simpl.
  - destruct (Py.is_space c) eqn:E; simpl; [reflexivity | now rewrite E].
  - reflexivity.
Qed.

(** A trimmed string is non-empty exactly when the original has a
    character that is not whitespace; trimming twice changes nothing in
    that respect. *)
Lemma strip_truthy (s : string) : Py.truthy (Py.strip s) = nonblank s.
Proof. unfold Py.strip. now rewrite rstrip_truthy, nonblank_lstrip. Qed.

Lemma nonblank_strip (s : string) : nonblank (Py.strip s) = nonblank s.
Proof. unfold Py.strip. now rewrite nonblank_rstrip, nonblank_lstrip. Qed.

Lemma nonblank_append (a b : string) :
  nonblank (a ++ b) = nonblank a || nonblank b.
Proof.
  induction a as [|x a IH]; simpl; [reflexivity|].
  now rewrite IH, orb_assoc.
Qed.

Lemma drop_append (n : nat) (a b : string) :
  (n <= String.length a)%nat -> Py.drop n (a ++ b) = Py.drop n a ++ b.
Proof.
  revert a. induction n as [|n IH]; intros a Hn; [reflexivity|].
  destruct a as [|x a]; simpl in *; [lia|]. apply IH. lia.
Qed.

Lemma lstrip_decomp (s : string) : exists ws, s = ws ++ Py.lstrip s.
Proof.
  induction s as [|c s [ws IH]]; simpl.
  - now exists "".
  - destruct (Py.is_space c).
    + exists (String c ws). simpl. now rewrite <- IH.
    + now exists "".
Qed.

Lemma rstrip_decomp (s : string) : exists ws, s = Py.rstrip s ++ ws.
Proof.
  induction s as [|c s [ws IH]]; simpl.
  - now exists "".
  - destruct (Py.rstrip s) eqn:E.
    + destruct (Py.is_space c).
      * exists (String c s). reflexivity.
      * exists s. reflexivity.
    + exists ws. simpl. f_equal. exact IH.
Qed.

Lemma rstrip_idem (s : string) : Py.rstrip (Py.rstrip s) = Py.rstrip s.
Proof.
  induction s as [|c s IH]; simpl; [reflexivity|].
  destruct (Py.rstrip s) as [|d r] eqn:E.
  - destruct (Py.is_space c) eqn:Ec; simpl; [reflexivity | now rewrite Ec].
  - change (Py.rstrip (String c (String d r)))
      with (match Py.rstrip (String d r) with
            | "" => if Py.is_space c then "" else String c ""
            | r' => String c r'
            end).
    now rewrite IH.
Qed.

(** In a right-trimmed string a whitespace character is always followed,
    sooner or later, by one that is not. *)
Lemma rstrip_fixed_tail (a : string) (c : ascii) (rest : string) :
  Py.rstrip (a ++ String c rest) = a ++ String c rest ->
  Py.is_space c = true -> nonblank rest = true.
Proof.
  induction a as [|x a IH]; simpl; intros H Hc.
  - rewrite <- rstrip_truthy. destruct (Py.rstrip rest); [|reflexivity].
    rewrite Hc in H. discriminate.
  - destruct (Py.rstrip (a ++ String c rest)) eqn:E.
    + destruct (Py.is_space x); [discriminate|].
      injection H as H. destruct a; discriminate.
    + injection H as H. apply IH; assumption.
Qed.

(** A lower-cased string that starts with [p] splits accordingly. *)
Lemma prefix_lower_split (p s : string) :
  String.prefix p (Py.lower s) = true ->
  exists a rest, s = a ++ rest /\ Py.lower a = p.
Proof.
  revert s. induction p as [|x p IH]; intros s H.
  - exists "", s. split; reflexivity.
  - destruct s as [|y s]; simpl in H; [discriminate|].
    destruct (ascii_dec x (Py.lower_char y)) as [->|]; [|discriminate].
    destruct (IH s H) as (a & rest & -> & <-).
    exists (String y a), rest. split; reflexivity.
Qed.

Lemma lower_ends_with_space (a p : string) :
  Py.lower a = p ++ " " ->
  exists a' c, a = a' ++ String c "" /\ Py.is_space c = true.
Proof.
  revert a. induction p as [|x p IH]; intros a H.
  - destruct a as [|c [|d a]]; simpl in H; try discriminate.
    exists "", c. split; [reflexivity|].
    rewrite <- is_space_lower_char. injection H as ->. reflexivity.
  - destruct a as [|y a]; simpl in H; [discriminate|].
    injection H as _ H. destruct (IH a H) as (a' & c & -> & Hc).
    exists (String y a'), c. split; [reflexivity | exact Hc].
Qed.

End StringFacts.

(* ================================================================== *)
(** * Intent parsing: the guard *)
(* ================================================================== *)

(** On a string the guard only asks whether it is empty. *)
Lemma parse_intent_str
      (re_group : CommandExecutor.Template -> string -> option string)
      (s : string) :
  CommandExecutor.parse_intent re_group (CommandExecutor.PyStr s)
  = CommandExecutor.Returns
      (if Py.truthy s then CommandExecutor.parse_text re_group s else None).
Proof.
  unfold CommandExecutor.parse_intent.
  cbn [CommandExecutor.truthy CommandExecutor.is_str].
  destruct (Py.truthy s); reflexivity.
Qed.

(** An intent is only ever built from a string that is not empty. *)
Lemma parse_intent_some
      (re_group : CommandExecutor.Template -> string -> option string)
      (v : CommandExecutor.PyValue) (i : CommandExecutor.CommandIntent) :
  CommandExecutor.parse_intent re_group v
  = CommandExecutor.Returns (Some i) ->
  exists s, v = CommandExecutor.PyStr s /\ Py.truthy s = true /\
            CommandExecutor.parse_text re_group s = Some i.
Proof.
  unfold CommandExecutor.parse_intent.
  destruct (CommandExecutor.truthy v) as [nonempty|] eqn:Et; [|discriminate].
  destruct nonempty; cbn [negb orb]; [|discriminate].
  destruct v; cbn [CommandExecutor.is_str negb]; try discriminate.
  intros H. injection H as H. cbn [CommandExecutor.truthy] in Et.
  injection Et as Et. eauto.
Qed.

(** A string of blanks matches none of the templates. *)
Lemma parse_text_blank
      (re_group : CommandExecutor.Template -> string -> option string)
      (s : string) :
  nonblank s = false -> CommandExecutor.parse_text re_group s = None.
Proof.
  intros Hb.
  assert (Hn : Py.strip (Py.lower s) = ""%string).
  { rewrite strip_lower.
    pose proof (strip_truthy s) as Ht. rewrite Hb in Ht.
    destruct (Py.strip s); [reflexivity | discriminate]. }
  unfold CommandExecutor.parse_text. rewrite Hn. reflexivity.
Qed.

(** C9, as the code has it.  Whatever the regular-expression engine
    answers, [parse_intent] returns [None] on the empty string and on
    every value that is not a string and whose truth test returns: the
    guard returns before any template is tried.  The guard tests truth
    before type, so when the truth test of such a value raises,
    [parse_intent] raises.  Either way no intent, partial or complete, is
    built.  On strings nothing raises, and a string of blanks gives [None]
    like the empty one. *)
Theorem C9_parse_intent_rejects_empty_and_non_str
        (re_group : CommandExecutor.Template -> string -> option string)
        (v : CommandExecutor.PyValue) :
  v = CommandExecutor.PyStr "" \/ CommandExecutor.is_str v = false ->
  (forall b, CommandExecutor.truthy v = CommandExecutor.Returns b ->
     CommandExecutor.parse_intent re_group v = CommandExecutor.Returns None) /\
  (CommandExecutor.truthy v = CommandExecutor.Raises ->
   CommandExecutor.parse_intent re_group v = CommandExecutor.Raises) /\
  (forall i, CommandExecutor.parse_intent re_group v
             <> CommandExecutor.Returns (Some i)) /\
  (forall s, CommandExecutor.parse_intent re_group (CommandExecutor.PyStr s)
             <> CommandExecutor.Raises) /\
  (forall s, nonblank s = false ->
     CommandExecutor.parse_intent re_group (CommandExecutor.PyStr s)
     = CommandExecutor.Returns None).
Proof.
  intros Hv.
  assert (Hnone : forall b,
            CommandExecutor.truthy v = CommandExecutor.Returns b ->
            CommandExecutor.parse_intent re_group v
            = CommandExecutor.Returns None).
  { intros b Hb. unfold CommandExecutor.parse_intent. rewrite Hb.
    destruct Hv as [-> | Hs].
    - cbn [CommandExecutor.truthy] in Hb. injection Hb as <-. reflexivity.
    - rewrite Hs. cbn [negb]. now rewrite orb_true_r. }
  split; [exact Hnone|]. split; [|split; [|split]].
  - intros Hr. unfold CommandExecutor.parse_intent. now rewrite Hr.
  - intros i Hi.
    destruct (CommandExecutor.truthy v) as [b|] eqn:Et.
    + rewrite (Hnone b eq_refl) in Hi. discriminate.
    + unfold CommandExecutor.parse_intent in Hi. rewrite Et in Hi.
      discriminate.
  - intros s. rewrite parse_intent_str. discriminate.
  - intros s Hb. rewrite parse_intent_str, parse_text_blank by exact Hb.
    now destruct (Py.truthy s).
Qed.

(** C9 as stated fails: a value that is not a string and whose truth test
    raises, as that of an array of several elements does, makes
    [parse_intent] raise. *)
Lemma C9_truth_test_raises :
  CommandExecutor.is_str (CommandExecutor.PyObject CommandExecutor.Raises)
  = false /\
  CommandExecutor.parse_intent (fun _ s => Some s)
    (CommandExecutor.PyObject CommandExecutor.Raises)
  = CommandExecutor.Raises /\
  CommandExecutor.parse_intent (fun _ s => Some s)
    (CommandExecutor.PyObject CommandExecutor.Raises)
  <> CommandExecutor.Returns None.
Proof. split; [reflexivity|]. split; [reflexivity | discriminate]. Qed.

(** C9 at work: a non-empty list where a string is expected, and an
    object whose truth test returns [True]. *)
Lemma C9_parse_intent_rejects_empty_and_non_str_witness :
  CommandExecutor.parse_intent (fun _ s => Some s)
    (CommandExecutor.PyList [CommandExecutor.PyStr "run ls"])
  = CommandExecutor.Returns None /\
  CommandExecutor.parse_intent (fun _ s => Some s)
    (CommandExecutor.PyObject (CommandExecutor.Returns true))
  = CommandExecutor.Returns None.
Proof.
  split.
  - exact (proj1 (C9_parse_intent_rejects_empty_and_non_str
                    (fun _ s => Some s)
                    (CommandExecutor.PyList [CommandExecutor.PyStr "run ls"])
                    (or_intror eq_refl)) true eq_refl).
  - exact (proj1 (C9_parse_intent_rejects_empty_and_non_str
                    (fun _ s => Some s)
                    (CommandExecutor.PyObject (CommandExecutor.Returns true))
                    (or_intror eq_refl)) true eq_refl).
Defined.

(* ================================================================== *)
(** * The command gate *)
(* ================================================================== *)

Section GateFacts.
Import CommandExecutor.
Local Open Scope string_scope.

Lemma prefix_split (p s : string) :
  String.prefix p s = true -> exists r, s = p ++ r.
Proof.
  revert s. induction p as [|x p IH]; intros s H.
  - now exists s.
  - destruct s as [|y s]; simpl in H; [discriminate|].
    destruct (ascii_dec x y) as [->|]; [|discriminate].
    destruct (IH s H) as [r ->]. now exists r.
Qed.

(** What is left of the text after a command word and one more character
    still has something in it. *)
Lemma shell_tail_nonblank (word text : string) :
  String.prefix (word ++ " ") (Py.strip (Py.lower text)) = true ->
  nonblank (Py.drop (String.length word + 1) text) = true.
Proof.
  intros H. rewrite strip_lower in H.
  destruct (prefix_lower_split _ _ H) as (a & rest & Hcore & Ha).
  destruct (lower_ends_with_space _ _ Ha) as (a' & c & -> & Hc).
  assert (Hrest : nonblank rest = true).
  { apply (rstrip_fixed_tail a' c); [|exact Hc].
    rewrite append_assoc_s in Hcore. simpl in Hcore.
    rewrite <- Hcore. unfold Py.strip. apply rstrip_idem. }
  assert (Hlen : String.length (a' ++ String c "") = (String.length word + 1)%nat).
  { rewrite <- (lower_length (a' ++ String c "")), Ha, length_append_s.
    reflexivity. }
  destruct (lstrip_decomp text) as [ws1 H1].
  destruct (rstrip_decomp (Py.lstrip text)) as [ws2 H2].
  fold (Py.strip text) in H2. rewrite Hcore in H2.
  rewrite H1, H2.
  rewrite append_assoc_s, <- (append_assoc_s ws1).
  rewrite drop_append by (rewrite length_append_s; lia).
  rewrite !nonblank_append, Hrest. now rewrite orb_true_r.
Qed.

Lemma or_else_some {A : Type} (a b : option A) (x : A) :
  or_else a b = Some x -> a = Some x \/ b = Some x.
Proof. destruct a; simpl; auto. Qed.

(** A shell intent comes from the first template only, and its action,
    already trimmed, is never blank. *)
Lemma parse_text_shell re_group (text : string) (i : CommandIntent) :
  parse_text re_group text = Some i ->
  intent_type i = "shell" ->
  nonblank (action i) = true.
Proof.
  unfold parse_text, Py.startswith. intros H Ht.
  destruct (String.prefix "run " _) eqn:E1; simpl in H.
  { injection H as <-. simpl. rewrite nonblank_strip.
    destruct (prefix_split _ _ E1) as [r Hr]. rewrite Hr. simpl.
    apply (shell_tail_nonblank "run"). exact E1. }
  destruct (String.prefix "execute " _) eqn:E2; simpl in H.
  { injection H as <-. simpl. rewrite nonblank_strip.
    destruct (prefix_split _ _ E2) as [r Hr]. rewrite Hr. simpl.
    apply (shell_tail_nonblank "execute"). exact E2. }
  destruct (String.prefix "shell " _) eqn:E3; simpl in H.
  { injection H as <-. simpl. rewrite nonblank_strip.
    destruct (prefix_split _ _ E3) as [r Hr]. rewrite Hr. simpl.
    apply (shell_tail_nonblank "shell"). exact E3. }
  exfalso.
  repeat (apply or_else_some in H; destruct H as [H|H]);
    match type of H with
    | (if ?c then _ else _) = _ => destruct c; [|discriminate]
    end;
    try match type of H with
        | option_map _ ?o = _ => destruct o; [|discriminate]
        end;
    simpl in H; injection H as <-; simpl in Ht; discriminate.
Qed.

Lemma matched_keyword_sound keywords command_lower kw :
  Security.matched_keyword keywords command_lower = Some kw ->
  In kw keywords /\ Py.contains (Py.lower kw) command_lower = true.
Proof.
  induction keywords as [|k ks IH]; simpl; [discriminate|].
  destruct (Py.contains (Py.lower k) command_lower) eqn:E.
  - intros H. injection H as <-. auto.
  - intros H. destruct (IH H). auto.
Qed.

(** [is_dangerous] is the case-insensitive substring test against the
    keyword list. *)
Lemma is_dangerous_iff (c : Security.SecurityChecker) (command : string) :
  Security.is_dangerous c command = true <->
  exists kw, In kw (Security.dangerous_keywords c) /\
             Py.contains (Py.lower kw) (Py.lower command) = true.
Proof.
  unfold Security.is_dangerous.
  destruct (Security.matched_keyword _ _) as [kw|] eqn:E.
  - split; [|reflexivity]. intros _. exists kw.
    now apply matched_keyword_sound.
  - split; [discriminate|]. intros (kw & Hin & Hc). exfalso.
    revert E Hin. generalize (Security.dangerous_keywords c).
    induction l as [|k ks IH]; simpl; [tauto|].
    destruct (Py.contains (Py.lower k) (Py.lower command)) eqn:Ek;
      [discriminate|].
    intros E [->|Hin]; [congruence | auto].
Qed.

Lemma check_command_dangerous (c : Security.SecurityChecker)
      (command : string) (sudo_active : bool) :
  nonblank command = true ->
  Security.is_dangerous c command = true ->
  Security.check_command c command sudo_active
  = if sudo_active then (true, "Allowed under sudo session")
    else (false, "Command contains dangerous keywords and sudo not active").
Proof.
  intros Hn Hd. unfold Security.check_command.
  rewrite strip_truthy, Hn, Hd.
  destruct command; [discriminate | reflexivity].
Qed.

(** [_execute_shell] reaches [subprocess.run] only with the command it was
    given, with system commands enabled, and after [check_command] allowed
    it under the session state read in the same call. *)
Lemma execute_shell_only_when_allowed (e : CommandExecutor.t)
      (command ran : string) (now : Z) :
  fst (_execute_shell e command now) = RunShell ran ->
  ran = command /\
  allow_system_commands e = true /\
  fst (Security.check_command (security_checker e) command
         (fst (Security.is_valid (sudo_session e) now))) = true.
Proof.
  unfold _execute_shell.
  destruct (allow_system_commands e); simpl; [|discriminate].
  destruct (Security.is_valid (sudo_session e) now) as [sudo_active s'].
  destruct (Security.check_command _ _ _) as [allowed reason]. simpl.
  destruct allowed; simpl; [|discriminate].
  intros H. injection H as <-. auto.
Qed.

(** [execute_with_sudo] hands a command to a process only during an active
    session and only if it matches none of the dangerous patterns. *)
Lemma execute_with_sudo_only_safe (m : EnhancedSecurity.t)
      (command : string) (now : Z) (argv : list string) :
  fst (EnhancedSecurity.execute_with_sudo m command now)
  = EnhancedSecurity.Subprocess argv ->
  fst (EnhancedSecurity.is_sudo_active m now) = true /\
  EnhancedSecurity.matched_command
    (EnhancedSecurity.dangerous_commands m) (Py.lower command) = None.
Proof.
  unfold EnhancedSecurity.execute_with_sudo.
  destruct (EnhancedSecurity.is_sudo_active m now) as [active m'] eqn:Ea.
  destruct active; simpl; [|discriminate].
  unfold EnhancedSecurity.check_dangerous_command.
  replace (EnhancedSecurity.dangerous_commands m')
    with (EnhancedSecurity.dangerous_commands m).
  - destruct (EnhancedSecurity.matched_command _ _); simpl;
      [discriminate | auto].
  - unfold EnhancedSecurity.is_sudo_active in Ea.
    destruct (EnhancedSecurity.current_session m) as [s|].
    + destruct (EnhancedSecurity.is_valid s now). injection Ea as _ <-.
      reflexivity.
    + injection Ea as _ <-. reflexivity.
Qed.

End GateFacts.

(** C1, as the code has it.  For every shell intent that [parse_intent]
    produces and whose action contains one of the checker's keywords
    (case-insensitively, as a substring), [check_command] allows it when the
    sudo session is valid at the reading taken by the call and denies it
    otherwise; the denial carries one fixed reason, the same for every
    keyword.  [_execute_shell] runs such a command exactly when the check
    allowed it; it runs no command of any kind unless system commands are
    enabled and the check allowed that command, and with system commands
    disabled it rejects every command without consulting the check.
    The second manager is stricter: [execute_with_sudo] starts a process
    only during an active session and never for a command that matches its
    dangerous list. *)
Theorem C1_gate_on_dangerous_shell_intent
        (re_group : CommandExecutor.Template -> string -> option string)
        (text : string) (i : CommandExecutor.CommandIntent)
        (e : CommandExecutor.t) (now : Z) :
  CommandExecutor.parse_intent re_group (CommandExecutor.PyStr text)
  = CommandExecutor.Returns (Some i) ->
  CommandExecutor.intent_type i = "shell" ->
  (exists kw,
     In kw (Security.dangerous_keywords (CommandExecutor.security_checker e)) /\
     Py.contains (Py.lower kw) (Py.lower (CommandExecutor.action i)) = true) ->
  let sudo_active :=
    fst (Security.is_valid (CommandExecutor.sudo_session e) now) in
  Security.check_command (CommandExecutor.security_checker e)
    (CommandExecutor.action i) sudo_active
  = (if sudo_active then (true, "Allowed under sudo session")
     else (false, "Command contains dangerous keywords and sudo not active")) /\
  (CommandExecutor.allow_system_commands e = true ->
   fst (CommandExecutor._execute_shell e (CommandExecutor.action i) now)
   = if sudo_active then CommandExecutor.RunShell (CommandExecutor.action i)
     else CommandExecutor.Rejected
            "Command contains dangerous keywords and sudo not active") /\
  (forall command ran,
     fst (CommandExecutor._execute_shell e command now)
     = CommandExecutor.RunShell ran ->
     ran = command /\
     CommandExecutor.allow_system_commands e = true /\
     fst (Security.check_command (CommandExecutor.security_checker e)
            command sudo_active) = true) /\
  (CommandExecutor.allow_system_commands e = false ->
   forall command,
     CommandExecutor._execute_shell e command now
     = (CommandExecutor.Rejected "System commands are disabled", e)) /\
  (forall m command t argv,
     fst (EnhancedSecurity.execute_with_sudo m command t)
     = EnhancedSecurity.Subprocess argv ->
     fst (EnhancedSecurity.is_sudo_active m t) = true /\
     EnhancedSecurity.matched_command
       (EnhancedSecurity.dangerous_commands m) (Py.lower command) = None).
Proof.
  intros Hp Ht Hkw sudo_active.
  assert (Hn : nonblank (CommandExecutor.action i) = true).
  { destruct (parse_intent_some _ _ _ Hp) as (s0 & Hs0 & _ & Hpt).
    injection Hs0 as <-. eapply parse_text_shell; eassumption. }
  assert (Hd : Security.is_dangerous (CommandExecutor.security_checker e)
                 (CommandExecutor.action i) = true)
    by (apply is_dangerous_iff; exact Hkw).
  pose proof (check_command_dangerous _ _ sudo_active Hn Hd) as Hc.
  split; [exact Hc|]. split; [|split; [|split]].
  - intros Ha. unfold CommandExecutor._execute_shell. rewrite Ha. simpl.
    unfold sudo_active in Hc.
    destruct (Security.is_valid (CommandExecutor.sudo_session e) now)
      as [active s']. simpl in *. rewrite Hc.
    destruct active; reflexivity.
  - intros command ran H.
    exact (execute_shell_only_when_allowed _ _ _ _ H).
  - intros Hoff command. unfold CommandExecutor._execute_shell.
    now rewrite Hoff.
  - intros m command t argv H.
    exact (execute_with_sudo_only_safe _ _ _ _ H).
Qed.

(** C1 as stated fails.  With the default keywords and no session,
    ["rm -rf /"] matches the keyword ["rm -rf"] and is denied, but the
    reason does not mention that keyword.  And the second manager refuses
    the same command in the middle of an active session. *)
Lemma C1_reason_omits_pattern :
  Security.matched_keyword Security.default_dangerous_keywords
    (Py.lower "rm -rf /") = Some "rm -rf" /\
  Security.check_command (Security.new_checker None) "rm -rf /" false
  = (false, "Command contains dangerous keywords and sudo not active") /\
  Py.contains "rm -rf"
    "Command contains dangerous keywords and sudo not active" = false /\
  (let m := snd (EnhancedSecurity.activate_sudo_mode
                   default_manager (Some 60%Z) 0 0 0) in
   fst (EnhancedSecurity.is_sudo_active m 5) = true /\
   exists message,
     fst (EnhancedSecurity.execute_with_sudo m "rm -rf /" 5)
     = EnhancedSecurity.Refused message).
Proof.
  split; [reflexivity|]. split; [reflexivity|]. split; [reflexivity|].
  split; [reflexivity|]. eexists. reflexivity.
Qed.

(** C1 at work: ["run rm -rf /tmp/x"] with the default keywords and a
    five-minute session started at time 0, checked ten seconds later: run
    with system commands enabled, rejected with them disabled. *)
Lemma C1_gate_on_dangerous_shell_intent_witness :
  let executor allow :=
    {| CommandExecutor.allow_system_commands := allow;
       CommandExecutor.security_checker := Security.new_checker None;
       CommandExecutor.sudo_session :=
         snd (Security.activate (Security.init 300) 0 0) |} in
  Security.check_command (Security.new_checker None) "rm -rf /tmp/x" true
  = (true, "Allowed under sudo session") /\
  fst (CommandExecutor._execute_shell (executor true) "rm -rf /tmp/x" 10000000)
  = CommandExecutor.RunShell "rm -rf /tmp/x" /\
  CommandExecutor._execute_shell (executor false) "rm -rf /tmp/x" 10000000
  = (CommandExecutor.Rejected "System commands are disabled", executor false).
Proof.
  intros executor.
  assert (Hkw : exists kw,
             In kw Security.default_dangerous_keywords /\
             Py.contains (Py.lower kw) (Py.lower "rm -rf /tmp/x") = true)
    by (exists "rm -rf"; split; [left; reflexivity | reflexivity]).
  destruct (C1_gate_on_dangerous_shell_intent
              (fun _ _ => None) "run rm -rf /tmp/x"
              (CommandExecutor.new_intent "shell" "rm -rf /tmp/x" None)
              (executor true) 10000000 eq_refl eq_refl Hkw)
    as (H1 & H2 & _).
  destruct (C1_gate_on_dangerous_shell_intent
              (fun _ _ => None) "run rm -rf /tmp/x"
              (CommandExecutor.new_intent "shell" "rm -rf /tmp/x" None)
              (executor false) 10000000 eq_refl eq_refl Hkw)
    as (_ & _ & _ & H4 & _).
  split; [exact H1|]. split; [exact (H2 eq_refl) | exact (H4 eq_refl _)].
Defined.

(* ================================================================== *)
(** * The sudo manager: sessions *)
(* ================================================================== *)

Section SessionFacts.
Import EnhancedSecurity.

Lemma with_session_same (m : EnhancedSecurity.t) :
  with_session m (current_session m) = m.
Proof. now destruct m. Qed.

Lemma is_valid_active (s : SudoSession) (now : Z) :
  is_active s = true -> (now <= end_time s)%Z -> is_valid s now = (true, s).
Proof.
  intros Ha Hn. unfold is_valid. rewrite Ha. simpl.
  apply Z.ltb_ge in Hn. now rewrite Hn.
Qed.

Lemma get_remaining_time_active (s : SudoSession) (now1 now2 : Z) :
  is_active s = true -> (now1 <= end_time s)%Z -> (now2 <= end_time s)%Z ->
  get_remaining_time s now1 now2 = (((end_time s - now2) / 1000000)%Z, s).
Proof.
  intros Ha H1 H2. unfold get_remaining_time.
  rewrite is_valid_active by assumption.
  rewrite Z.quot_div_nonneg by lia.
  rewrite Z.max_r; [reflexivity|]. apply Z.div_pos; lia.
Qed.

(** C2.  The manager holds at most one session.  While that session is
    active and not expired at any clock reading of the call, a call to
    [activate_sudo_mode], whatever duration it asks for, returns failure
    with the whole seconds the session has left in its message, and the
    manager, its session included, is exactly as before: [end_time] and the
    remaining time are neither reset nor extended. *)
Theorem C2_activate_while_valid_fails
        (m : EnhancedSecurity.t) (s : SudoSession) (d : option Z) (t1 t2 t3 : Z) :
  current_session m = Some s ->
  is_active s = true ->
  (t1 <= t2)%Z -> (t2 <= t3)%Z -> (t3 <= end_time s)%Z ->
  activate_sudo_mode m d t1 t2 t3
  = ((false, ("Sudo mode already active for "
              ++ Py.str_of_int ((end_time s - t3) / 1000000)
              ++ " more seconds")%string), m) /\
  fst (get_remaining_time s t3 t3) = ((end_time s - t3) / 1000000)%Z /\
  fst (is_sudo_active (snd (activate_sudo_mode m d t1 t2 t3)) t3) = true.
Proof.
  intros Hs Ha H12 H23 H3.
  assert (Hact : activate_sudo_mode m d t1 t2 t3
                 = ((false, ("Sudo mode already active for "
                      ++ Py.str_of_int ((end_time s - t3) / 1000000)
                      ++ " more seconds")%string), m)).
  { unfold activate_sudo_mode. rewrite Hs.
    rewrite is_valid_active by (auto; lia).
    rewrite get_remaining_time_active by (auto; lia).
    now rewrite <- Hs, with_session_same. }
  split; [exact Hact|]. split.
  - now rewrite get_remaining_time_active by (auto; lia).
  - rewrite Hact. simpl. unfold is_sudo_active. rewrite Hs.
    now rewrite is_valid_active by (auto; lia).
Qed.

(** The session object of [jarvis/security.py] behaves the same way: an
    [activate] during a valid session returns [False] and changes nothing. *)
Lemma SudoSession_activate_while_valid
      (s : Security.SudoSession) (start now1 now2 : Z) :
  Security.active s = true ->
  Security.session_start s = Some start ->
  (now1 - start <= timedelta_seconds (Security.duration_seconds s))%Z ->
  Security.activate s now1 now2 = (false, s).
Proof.
  intros Ha Hs Hn. unfold Security.activate, Security.is_valid.
  rewrite Ha, Hs. simpl. apply Z.ltb_ge in Hn. now rewrite Hn.
Qed.


End SessionFacts.

(** C2 at work: [activate(60)] at time 0, then [activate(120)] one second
    later; the message reports the 59 whole seconds that remain. *)
Lemma C2_activate_while_valid_fails_witness :
  let m := snd (EnhancedSecurity.activate_sudo_mode default_manager (Some 60%Z) 0 0 0) in
  EnhancedSecurity.activate_sudo_mode m (Some 120%Z) 1000000 1000000 1000000
  = ((false, "Sudo mode already active for 59 more seconds"), m).
Proof.
  intros m.
  exact (proj1 (C2_activate_while_valid_fails m
                  (EnhancedSecurity.new_session 60 0) (Some 120%Z)
                  1000000 1000000 1000000 eq_refl eq_refl
                  ltac:(lia) ltac:(lia) ltac:(simpl; unfold timedelta_seconds; lia))).
Defined.

(* ================================================================== *)
(** * The sudo manager: keyword parsing and construction *)
(* ================================================================== *)

Section KeywordFacts.
Import EnhancedSecurity.

Lemma prefix_refl (s : string) : String.prefix s s = true.
Proof.
  induction s as [|c s IH]; simpl; [reflexivity|].
  destruct (ascii_dec c c); [exact IH | congruence].
Qed.

Lemma contains_refl (s : string) : Py.contains s s = true.
Proof.
  destruct s as [|c s]; [reflexivity|].
  cbn [Py.contains]. now rewrite prefix_refl.
Qed.

Lemma in_bound_iff (n : Z) : in_bound n = true <-> (0 < n <= 3600)%Z.
Proof.
  unfold in_bound. rewrite andb_true_iff, Z.ltb_lt, Z.leb_le. tauto.
Qed.

(** The loop of [parse_sudo_keyword] looks at one token only. *)
Lemma scan_parts_spec (parts : list string) :
  scan_parts parts
  = match code_argument parts with
    | Some tok =>
        match Py.int_of_str tok with
        | Some n =>
            if in_bound n
            then Some (true, n,
                       Some ("Sudo access for " ++ Py.str_of_int n ++ "s")%string)
            else Some (false, 0%Z, Some "Invalid time (max 1 hour)")
        | None => None
        end
    | None => None
    end.
Proof.
  induction parts as [|part rest IH]; simpl; [reflexivity|].
  destruct (String.eqb part "code"); [|exact IH].
  destruct rest as [|next rest']; reflexivity.
Qed.

(** C3, as the code has it.  The trimmed, lower-cased text equal to the
    configured keyword triggers with the default duration.  For a text
    that does not contain the keyword: with timed variants enabled, the
    phrase ["sudo code"] present and the token after ["code"] reading as an
    integer [N], the answer is [(true, N, ...)] when [0 < N <= 3600] and
    [(false, 0, "Invalid time (max 1 hour)")] otherwise, never a clamped
    duration; and the text triggers exactly when such an [N] within the
    bound exists.  Under the default configuration ["sudo code 300"] grants
    300 seconds and ["sudo code 3601"] is refused. *)
Theorem C3_parse_sudo_keyword_characterised
        (m : EnhancedSecurity.t) (text : string) :
  let u := normalized text in
  let kw := Py.lower (sudo_keyword m) in
  (u = kw ->
   parse_sudo_keyword m text
   = (true, default_sudo_duration m, Some "Default sudo access")) /\
  (Py.contains kw u = false ->
   (forall tok N,
      allow_timed_sudo m = true ->
      Py.contains "sudo code" u = true ->
      code_argument (Py.split u) = Some tok ->
      Py.int_of_str tok = Some N ->
      ((0 < N <= 3600)%Z ->
       parse_sudo_keyword m text
       = (true, N, Some ("Sudo access for " ++ Py.str_of_int N ++ "s")%string)) /\
      (~ (0 < N <= 3600)%Z ->
       parse_sudo_keyword m text
       = (false, 0%Z, Some "Invalid time (max 1 hour)"))) /\
   (fst (fst (parse_sudo_keyword m text)) = true <->
    allow_timed_sudo m = true /\
    Py.contains "sudo code" u = true /\
    exists tok N, code_argument (Py.split u) = Some tok /\
                  Py.int_of_str tok = Some N /\ (0 < N <= 3600)%Z)) /\
  parse_sudo_keyword default_manager "sudo code 300"
  = (true, 300%Z, Some "Sudo access for 300s") /\
  parse_sudo_keyword default_manager "sudo code 3601"
  = (false, 0%Z, Some "Invalid time (max 1 hour)").
Proof.
  intros u kw. unfold parse_sudo_keyword, normalized in *. fold u kw.
  split; [|split; [|split; reflexivity]].
  - intros ->. now rewrite contains_refl.
  - intros Hk. rewrite Hk.
    assert (Hneq : String.eqb u kw = false).
    { apply String.eqb_neq. intros ->. rewrite contains_refl in Hk.
      discriminate. }
    rewrite Hneq, andb_false_r. split.
    + intros tok N Ht Hs Hc Hi. rewrite Ht, Hs. simpl.
      rewrite scan_parts_spec, Hc, Hi.
      split; intros HN.
      * apply in_bound_iff in HN. now rewrite HN.
      * destruct (in_bound N) eqn:E; [|reflexivity].
        apply in_bound_iff in E. contradiction.
    + destruct (allow_timed_sudo m); simpl;
        [| split; [discriminate | intros [H _]; discriminate]].
      destruct (Py.contains "sudo code" u); simpl;
        [| split; [discriminate | intros (_ & H & _); discriminate]].
      rewrite scan_parts_spec.
      destruct (code_argument (Py.split u)) as [tok|];
        [| split; [discriminate | intros (_ & _ & t & N & H & _); discriminate]].
      destruct (Py.int_of_str tok) as [n|] eqn:Ei;
        [| split; [discriminate
                  | intros (_ & _ & t & N & H1 & H2 & _);
                    injection H1 as <-; congruence]].
      destruct (in_bound n) eqn:E; simpl.
      * split; [|reflexivity]. intros _. apply in_bound_iff in E.
        repeat split; auto. exists tok, n. auto.
      * split; [discriminate|].
        intros (_ & _ & t & N & H1 & H2 & H3).
        injection H1 as <-. assert (N = n) by congruence. subst N.
        apply in_bound_iff in H3. congruence.
Qed.

(** C3 as stated fails.  Under the default configuration the keyword is
    ["sudo code 0"]: that text, whose numeric token is 0, triggers with the
    default 300 seconds; and so does a longer sentence that merely contains
    the keyword, which is neither the keyword nor ["sudo code N"]. *)
Lemma C3_trigger_outside_claim :
  parse_sudo_keyword default_manager "sudo code 0"
  = (true, 300%Z, Some "Default sudo access") /\
  parse_sudo_keyword default_manager "please sudo code 0"
  = (true, 300%Z, Some "Default sudo access") /\
  ~ claimed_trigger default_manager "please sudo code 0".
Proof.
  split; [reflexivity|]. split; [reflexivity|].
  intros [H | (N & _ & [H | H])]; vm_compute in H; discriminate.
Qed.

(** With a keyword of its own the manager reads ["sudo code 0"] as a timed
    variant and refuses it, as it refuses a negative duration. *)
Lemma parse_sudo_keyword_custom_keyword :
  let sc := {| cfg_sudo_keyword := Some "open sesame";
               cfg_sudo_mode_duration := None;
               cfg_allow_custom_sudo := None;
               cfg_allow_timed_sudo := None |} in
  let m := build {| security := Some (Mapping sc); other_keys := false |} sc in
  parse_sudo_keyword m "Open Sesame" = (true, 300%Z, Some "Default sudo access") /\
  parse_sudo_keyword m "sudo code 300" = (true, 300%Z, Some "Sudo access for 300s") /\
  parse_sudo_keyword m "sudo code 0" = (false, 0%Z, Some "Invalid time (max 1 hour)") /\
  parse_sudo_keyword m "sudo code -5" = (false, 0%Z, Some "Invalid time (max 1 hour)") /\
  parse_sudo_keyword m "sudo code soon" = (false, 0%Z, None).
Proof. repeat split. Qed.



End KeywordFacts.


(* ================================================================== *)
(** * More on strings *)
(* ================================================================== *)

Section MoreStringFacts.
Local Open Scope string_scope.

Lemma nonblank_lower (s : string) : nonblank (Py.lower s) = nonblank s.
Proof.
  induction s as [|c s IH]; simpl; [reflexivity|].
  now rewrite is_space_lower_char, IH.
Qed.

Lemma rstrip_append_nonblank (a b : string) :
  nonblank b = true -> Py.rstrip (a ++ b) = a ++ Py.rstrip b.
Proof.
  intros Hb. induction a as [|x a IH]; simpl; [reflexivity|].
  rewrite IH. pose proof (rstrip_truthy b) as Ht. rewrite Hb in Ht.
  destruct (a ++ Py.rstrip b) eqn:E; [|reflexivity].
  apply append_empty in E. destruct E as [_ E]. rewrite E in Ht. discriminate.
Qed.

Lemma lstrip_blank_append (ws t : string) :
  nonblank ws = false -> Py.lstrip (ws ++ t) = Py.lstrip t.
Proof.
  induction ws as [|x ws IH]; simpl; [reflexivity|].
  intros H. apply orb_false_iff in H. destruct H as [Hx Hws].
  apply negb_false_iff in Hx. rewrite Hx. auto.
Qed.

Lemma strip_blank_append (ws t : string) :
  nonblank ws = false -> Py.strip (ws ++ t) = Py.strip t.
Proof. intros H. unfold Py.strip. now rewrite lstrip_blank_append. Qed.

Lemma drop_all (n : nat) (s : string) :
  (String.length s <= n)%nat -> Py.drop n s = "".
Proof.
  revert s. induction n as [|n IH]; intros s H.
  - destruct s; simpl in *; [reflexivity | lia].
  - destruct s as [|x s]; simpl in *; [reflexivity|]. apply IH. lia.
Qed.

(** Cutting [n] characters off a text that starts with blanks, then
    trimming, is cutting that many fewer off the text behind the blanks. *)
Lemma strip_drop_blank (ws t : string) (n : nat) :
  nonblank ws = false ->
  Py.strip (Py.drop n (ws ++ t)) = Py.strip (Py.drop (n - String.length ws) t).
Proof.
  revert n. induction ws as [|x ws IH]; intros n H.
  - simpl. now rewrite Nat.sub_0_r.
  - pose proof H as H'. simpl in H'. apply orb_false_iff in H'.
    destruct H' as [_ Hws]. destruct n as [|n].
    + change (Py.drop 0 (String x ws ++ t)) with (String x ws ++ t).
      now rewrite strip_blank_append.
    + simpl. now apply IH.
Qed.

Lemma lower_char_idem (c : ascii) :
  Py.lower_char (Py.lower_char c) = Py.lower_char c.
Proof.
  destruct c as [[] [] [] [] [] [] [] []]; vm_compute; reflexivity.
Qed.

Lemma lower_idem (s : string) : Py.lower (Py.lower s) = Py.lower s.
Proof.
  induction s as [|c s IH]; simpl; [reflexivity|].
  now rewrite lower_char_idem, IH.
Qed.

Lemma lstrip_rstrip_lstrip (s : string) :
  Py.lstrip (Py.rstrip (Py.lstrip s)) = Py.rstrip (Py.lstrip s).
Proof.
  induction s as [|c s IH]; simpl; [reflexivity|].
  destruct (Py.is_space c) eqn:E; [exact IH|].
  simpl. destruct (Py.rstrip s); rewrite ?E; simpl; now rewrite E.
Qed.

Lemma strip_idem (s : string) : Py.strip (Py.strip s) = Py.strip s.
Proof.
  unfold Py.strip. now rewrite lstrip_rstrip_lstrip, rstrip_idem.
Qed.

(** Normalizing a key twice is normalizing it once. *)
Lemma normalized_idem (q : string) : normalized (normalized q) = normalized q.
Proof.
  unfold normalized.
  now rewrite strip_lower, strip_idem, <- strip_lower, lower_idem.
Qed.

Lemma prefix_length (p s : string) :
  String.prefix p s = true -> (String.length p <= String.length s)%nat.
Proof.
  intros H. destruct (prefix_split _ _ H) as [r ->].
  rewrite length_append_s. lia.
Qed.

Lemma contains_length (needle haystack : string) :
  Py.contains needle haystack = true ->
  (String.length needle <= String.length haystack)%nat.
Proof.
  induction haystack as [|c h IH]; cbn [Py.contains]; intros H.
  - rewrite orb_false_r in H. now apply prefix_length.
  - apply orb_true_iff in H. destruct H as [H|H].
    + now apply prefix_length.
    + specialize (IH H). simpl. lia.
Qed.

Lemma lstrip_length (s : string) :
  (String.length (Py.lstrip s) <= String.length s)%nat.
Proof.
  destruct (lstrip_decomp s) as [ws H]. rewrite H at 2.
  rewrite length_append_s. lia.
Qed.

Lemma rstrip_length (s : string) :
  (String.length (Py.rstrip s) <= String.length s)%nat.
Proof.
  destruct (rstrip_decomp s) as [ws H]. rewrite H at 2.
  rewrite length_append_s. lia.
Qed.

Lemma append_nil_r_s (s : string) : s ++ "" = s.
Proof. induction s as [|c s IH]; simpl; [reflexivity | now rewrite IH]. Qed.

(** Trimming a string that it changes makes it shorter. *)
Lemma strip_shorter (s : string) :
  Py.strip s <> s -> (String.length (Py.strip s) < String.length s)%nat.
Proof.
  intros Hne. unfold Py.strip in *.
  destruct (lstrip_decomp s) as [ws1 H1].
  destruct (rstrip_decomp (Py.lstrip s)) as [ws2 H2].
  assert (Hlen : String.length s
                 = (String.length ws1 + (String.length (Py.rstrip (Py.lstrip s))
                                         + String.length ws2))%nat).
  { rewrite H1 at 1. rewrite length_append_s. rewrite H2 at 1.
    now rewrite length_append_s. }
  destruct ws1 as [|x ws1]; [|simpl in Hlen; lia].
  destruct ws2 as [|y ws2]; [|simpl in Hlen; lia].
  exfalso. apply Hne. simpl in H1. rewrite append_nil_r_s in H2.
  congruence.
Qed.

End MoreStringFacts.

(* ================================================================== *)
(** * Intent parsing and execution *)
(* ================================================================== *)

Section ExecutionFacts.
Import CommandExecutor Executor.
Local Open Scope string_scope.

Lemma prefix_empty (s : string) : String.prefix "" s = true.
Proof. now destruct s. Qed.

(** Decides [is_space] on the characters of a literal. *)
Ltac eval_is_space :=
  repeat match goal with
         | |- context [Py.is_space ?ch] =>
             let b := eval vm_compute in (Py.is_space ch) in
             change (Py.is_space ch) with b
         end.

(** The normalized form of a command word, a blank and a command, behind
    any run of leading blanks. *)
Lemma normalized_command (ws word c : string) (x : ascii) (w : string) :
  nonblank ws = false -> nonblank c = true ->
  Py.lower word = String x w -> Py.is_space x = false ->
  Py.strip (Py.lower (ws ++ word ++ " " ++ c))
  = Py.lower word ++ " " ++ Py.rstrip (Py.lower c).
Proof.
  intros Hws Hc Hw Hx. rewrite lower_append.
  rewrite strip_blank_append by now rewrite nonblank_lower.
  rewrite !lower_append. unfold Py.strip.
  assert (Hl : Py.lstrip (Py.lower word ++ Py.lower " " ++ Py.lower c)
               = Py.lower word ++ Py.lower " " ++ Py.lower c).
  { rewrite Hw. simpl. now rewrite Hx. }
  rewrite Hl, <- append_assoc_s.
  rewrite rstrip_append_nonblank by now rewrite nonblank_lower.
  now rewrite append_assoc_s.
Qed.

(** X1.  A text that is a command word ([run], [execute] or [shell], in
    any letter case), one space and a command always parses as a shell
    intent, whatever else it mentions.  The action is cut from the raw
    text, letter case kept: without leading blanks it is the trimmed
    command, and every leading blank moves the cut one character to the
    left, into the command word. *)
Theorem X1_shell_action_is_cut_from_raw_text
        (re_group : Template -> string -> option string)
        (ws word c : string) :
  nonblank ws = false ->
  In (Py.lower word) ["run"; "execute"; "shell"] ->
  nonblank c = true ->
  parse_intent re_group (PyStr (word ++ " " ++ c))
  = Returns (Some (new_intent "shell" (Py.strip c) None)) /\
  parse_intent re_group (PyStr (ws ++ word ++ " " ++ c))
  = Returns (Some (new_intent "shell"
                     (Py.strip (Py.drop (String.length word + 1
                                         - String.length ws)
                                        (word ++ " " ++ c)))
                     None)).
Proof.
  intros Hws Hword Hc.
  assert (Hgen : forall ws', nonblank ws' = false ->
            parse_intent re_group (PyStr (ws' ++ word ++ " " ++ c))
            = Returns (Some (new_intent "shell"
                               (Py.strip (Py.drop (String.length word + 1
                                                   - String.length ws')
                                                  (word ++ " " ++ c)))
                               None))).
  { intros ws' Hws'.
    assert (Hnonempty : Py.truthy (ws' ++ word ++ " " ++ c) = true).
    { destruct ws'; [|reflexivity]. destruct word; [|reflexivity].
      simpl in Hword. intuition discriminate. }
    rewrite parse_intent_str, Hnonempty. f_equal.
    unfold parse_text, Py.startswith.
    assert (Hlen : String.length word = String.length (Py.lower word))
      by (symmetry; apply lower_length).
    simpl in Hword.
    destruct Hword as [Hw | [Hw | [Hw | []]]];
      (erewrite (normalized_command ws' word c _ _ Hws' Hc)
         by (first [symmetry; exact Hw | reflexivity]));
      rewrite Hlen, <- Hw; cbn [String.append];
      cbn -[Py.strip Py.drop String.append Nat.sub];
      eval_is_space; rewrite ?prefix_empty;
      cbn -[Py.strip Py.drop String.append Nat.sub];
      now rewrite strip_drop_blank. }
  split; [|now apply Hgen].
  specialize (Hgen "" eq_refl).
  change ("" ++ word ++ " " ++ c) with (word ++ " " ++ c) in Hgen.
  change (String.length "") with 0%nat in Hgen.
  rewrite Hgen. rewrite Nat.sub_0_r, <- append_assoc_s.
  rewrite drop_append by (rewrite length_append_s; simpl; lia).
  rewrite drop_all by (rewrite length_append_s; simpl; lia).
  reflexivity.
Qed.

(** X1 at work: ["Run LS -la"] keeps its case, and two leading blanks turn
    ["run ls"] into the action ["n ls"]. *)
Lemma X1_shell_action_is_cut_from_raw_text_witness :
  parse_intent (fun _ _ => None) (PyStr "Run LS -la ")
  = Returns (Some (new_intent "shell" "LS -la" None)) /\
  parse_intent (fun _ _ => None) (PyStr "  run ls")
  = Returns (Some (new_intent "shell" "n ls" None)).
Proof.
  split.
  - exact (proj1 (X1_shell_action_is_cut_from_raw_text
                    (fun _ _ => None) "" "Run" "LS -la "
                    eq_refl (or_introl eq_refl) eq_refl)).
  - exact (proj2 (X1_shell_action_is_cut_from_raw_text
                    (fun _ _ => None) "  " "run" "ls"
                    eq_refl (or_introl eq_refl) eq_refl)).
Defined.

(** The intents [parse_intent] can build, template by template. *)
Lemma parse_text_shapes re_group (text : string) (i : CommandIntent) :
  parse_text re_group text = Some i ->
  (intent_type i = "shell" /\ params i = []) \/
  (intent_type i = "file" /\ action i = "edit" /\
   exists v, params i = [("filename", v)]) \/
  (intent_type i = "download" /\ action i = "fetch" /\
   exists v, params i = [("url", v)]) \/
  (intent_type i = "app" /\ action i = "open" /\
   exists v, params i = [("app", v)]) \/
  (intent_type i = "gui" /\ action i = "click" /\
   exists v, params i = [("target", v)]) \/
  (intent_type i = "gui" /\ action i = "scroll" /\
   (params i = [("direction", "down")] \/ params i = [("direction", "up")])) \/
  (intent_type i = "gui" /\ action i = "type" /\
   exists v, params i = [("text", v)]).
Proof.
  unfold parse_text. intros H.
  destruct (_ || _ || _); [injection H as <-; left; now split|].
  apply or_else_some in H. destruct H as [H|H].
  { right; left. destruct (_ && _); [|discriminate].
    destruct (re_group T_file text); [|discriminate].
    injection H as <-. simpl. eauto. }
  apply or_else_some in H. destruct H as [H|H].
  { right; right; left. destruct (Py.contains _ _); [|discriminate].
    destruct (re_group T_download text); [|discriminate].
    injection H as <-. simpl. eauto. }
  apply or_else_some in H. destruct H as [H|H].
  { right; right; right; left. destruct (_ || _ || _); [|discriminate].
    destruct (re_group T_app text); [|discriminate].
    injection H as <-. simpl. eauto. }
  apply or_else_some in H. destruct H as [H|H].
  { right; right; right; right; left.
    destruct (Py.contains _ _); [|discriminate].
    destruct (re_group T_click text); [|discriminate].
    injection H as <-. simpl. eauto. }
  apply or_else_some in H. destruct H as [H|H].
  { right; right; right; right; right; left.
    destruct (Py.contains "scroll" _); [|discriminate].
    injection H as <-. simpl.
    destruct (Py.contains "down" _); [auto|].
    destruct (Py.contains "up" _); auto. }
  right; right; right; right; right; right.
  destruct (Py.contains _ _); [|discriminate].
  destruct (re_group T_type text); [|discriminate].
  injection H as <-. simpl. eauto.
Qed.

(** Splits the goal along every test and pair the reply depends on. *)
Ltac split_reply :=
  repeat match goal with
         | |- context [if ?b then _ else _] => destruct b
         | |- context [let (_, _) := ?p in _] => destruct p
         | |- context [match ?p with (_, _) => _ end] => destruct p
         | |- context [match ?o with Rejected _ => _ | RunShell _ => _ end] =>
             destruct o
         end;
  simpl; try discriminate.

(** X2.  Whatever the regular expressions capture, an intent that
    [parse_intent] returns has one of the five types [execute] knows,
    carries the parameter its handler reads, and has an action its handler
    knows ([edit] for a file, [click], [scroll] or [type] for the GUI).  So
    [execute] never takes a fallback branch for it: the file handler never
    ends without a result, and no parsed intent ever reads a file. *)
Theorem X2_parsed_intents_fit_execute
        (re_group : Template -> string -> option string) (v : PyValue)
        (i : CommandIntent) (e : CommandExecutor.t) (f : Features) (now : Z) :
  parse_intent re_group v = Returns (Some i) ->
  In (intent_type i) ["shell"; "file"; "download"; "app"; "gui"] /\
  (intent_type i = "file" ->
   action i = "edit" /\ Dict.mem "filename" (params i) = true) /\
  (intent_type i = "download" -> Dict.mem "url" (params i) = true) /\
  (intent_type i = "app" -> Dict.mem "app" (params i) = true) /\
  (intent_type i = "gui" -> In (action i) ["click"; "scroll"; "type"]) /\
  fst (execute e f (Some i) now) <> ReturnsNone /\
  (forall name, fst (execute e f (Some i) now) <> ReadFile name).
Proof.
  intros Hp.
  destruct (parse_intent_some _ _ _ Hp) as (text & -> & _ & Hpt).
  clear Hp. rename Hpt into Hp.
  apply parse_text_shapes in Hp.
  destruct i as [ty act ps]. simpl in *.
  destruct Hp as [[-> ->] | [(-> & -> & v & ->) | [(-> & -> & v & ->)
    | [(-> & -> & v & ->) | [(-> & -> & v & ->) | [(-> & -> & [-> | ->])
    | (-> & -> & v & ->)]]]]]];
    (split; [simpl; tauto|]);
    (split; [intros; try discriminate; split; reflexivity|]);
    (split; [intros; try discriminate; reflexivity|]);
    (split; [intros; try discriminate; reflexivity|]);
    (split; [intros; try discriminate; simpl; tauto|]);
    unfold execute, _execute_file_operation, _execute_download,
      _execute_app_open, _execute_gui_action, param; simpl;
    (split; [| intros name]); split_reply.
Qed.

(** X2 at work: ["scroll up"] becomes a GUI intent that [execute] answers
    without a fallback. *)
Lemma X2_parsed_intents_fit_execute_witness :
  In (intent_type (new_intent "gui" "scroll" (Some [("direction", "up")])))
     ["shell"; "file"; "download"; "app"; "gui"].
Proof.
  exact (proj1 (X2_parsed_intents_fit_execute
                  (fun _ _ => None) (PyStr "scroll up")
                  (new_intent "gui" "scroll" (Some [("direction", "up")]))
                  (CommandExecutor.init None None None)
                  (mkFeatures false false false) 0 eq_refl)).
Defined.

(** X3.  [execute] reaches a call outside the program only through the
    switch of the intent's kind: a shell command needs
    [allow_system_commands] and the consent of [check_command], an editor
    or a file read needs [file_editing], a download needs [downloads], and
    opening an application, scrolling, typing or reporting a click needs
    [gui_automation].  With every switch off, as in an empty configuration,
    every intent is answered with a failure and nothing else happens. *)
Theorem X3_effects_need_their_switch
        (e : CommandExecutor.t) (f : Features)
        (intent : option CommandIntent) (now : Z) :
  match fst (execute e f intent now) with
  | Shell command =>
      allow_system_commands e = true /\
      fst (Security.check_command (security_checker e) command
             (fst (Security.is_valid (sudo_session e) now))) = true
  | Editor _ | ReadFile _ | ReturnsNone => file_editing f = true
  | Fetch _ _ => downloads f = true
  | OpenApp _ | Scroll _ | TypeText _ | Pair true _ => gui_automation f = true
  | Pair false _ => True
  end /\
  (allow_system_commands e = false ->
   file_editing f = false -> downloads f = false -> gui_automation f = false ->
   exists message, fst (execute e f intent now) = Pair false message).
Proof.
  destruct intent as [[ty act ps]|]; [|split; [exact I | intros; eexists; reflexivity]].
  unfold execute; simpl.
  destruct (String.eqb ty "shell").
  { destruct (_execute_shell e act now) as [[reason|command] e'] eqn:E; simpl.
    - split; [exact I | intros; eexists; reflexivity].
    - assert (H : fst (_execute_shell e act now) = RunShell command)
        by now rewrite E.
      apply execute_shell_only_when_allowed in H.
      destruct H as (<- & Ha & Hc). split; [auto|].
      intros Hoff. congruence. }
  destruct (String.eqb ty "file").
  { unfold _execute_file_operation. simpl.
    destruct (file_editing f); simpl; [|split; [exact I | intros; eexists; reflexivity]].
    split; [|discriminate]. split_reply; auto. }
  destruct (String.eqb ty "download").
  { unfold _execute_download. simpl.
    destruct (downloads f); simpl; [|split; [exact I | intros; eexists; reflexivity]].
    split; [|discriminate]. split_reply; auto. }
  destruct (String.eqb ty "app").
  { unfold _execute_app_open. simpl.
    destruct (gui_automation f); simpl; [|split; [exact I | intros; eexists; reflexivity]].
    split; [|discriminate]. split_reply; auto. }
  destruct (String.eqb ty "gui").
  { unfold _execute_gui_action. simpl.
    destruct (gui_automation f); simpl; [|split; [exact I | intros; eexists; reflexivity]].
    split; [|discriminate]. split_reply; auto. }
  split; [exact I | intros; eexists; reflexivity].
Qed.

Lemma existsb_false_forall {A : Type} (p : A -> bool) (l : list A) :
  existsb p l = false -> Forall (fun x => p x = false) l.
Proof.
  induction l as [|x l IH]; simpl; [constructor|].
  intros H. apply orb_false_iff in H. destruct H. constructor; auto.
Qed.

(** X4.  [_execute_download] fetches only when downloads are switched on,
    the URL starts with [http://] or [https://], and the name it saves
    under, the last piece of the URL after a slash or ["download"] when
    that piece is empty, is not empty and holds no slash, backslash, NUL,
    line feed or carriage return: the file lands directly in
    [./downloads]. *)
Theorem X4_download_is_guarded
        (f : Features) (params : list (string * string)) (url filename : string) :
  _execute_download f params = Fetch url filename ->
  downloads f = true /\
  url = param params "url" "" /\
  (Py.startswith url "http://" = true \/ Py.startswith url "https://" = true) /\
  filename <> "" /\
  Forall (fun ch => PyStr.has_char ch filename = false)
         DownloadValidator.invalid_chars /\
  (filename = last (PyStr.split_on "/" url) "" \/
   last (PyStr.split_on "/" url) "" = "" /\ filename = "download").
Proof.
  unfold _execute_download, DownloadValidator.validate_url,
    DownloadValidator.validate_filename.
  destruct (downloads f); cbn [negb]; [|discriminate].
  set (u := param params "url" "").
  destruct (Py.truthy u); cbn [negb]; [|discriminate].
  destruct (Py.startswith u "http://" || Py.startswith u "https://") eqn:Es;
    cbn [negb]; [|discriminate].
  set (piece := last (PyStr.split_on "/" u) "").
  set (name := if Py.truthy piece then piece else "download").
  destruct (Py.truthy name) eqn:Et; cbn [negb]; [|discriminate].
  destruct (existsb _ DownloadValidator.invalid_chars) eqn:Ex;
    cbn [negb]; [discriminate|].
  intros H. injection H as <- <-.
  apply orb_true_iff in Es.
  split; [reflexivity|]. split; [reflexivity|]. split; [exact Es|].
  split; [|split].
  - intros Hn. rewrite Hn in Et. discriminate.
  - now apply existsb_false_forall in Ex.
  - unfold name, piece.
    destruct (last (PyStr.split_on "/" u) "") eqn:Ep; simpl;
      [right; split; reflexivity | left; reflexivity].
Qed.

(** X4 at work: a URL that ends in a slash is saved as ["download"]. *)
Lemma X4_download_is_guarded_witness :
  downloads (mkFeatures false true false) = true /\
  Forall (fun ch => PyStr.has_char ch "download" = false)
         DownloadValidator.invalid_chars.
Proof.
  destruct (X4_download_is_guarded (mkFeatures false true false)
              [("url", "https://example.org/files/")]
              "https://example.org/files/" "download" eq_refl)
    as (H1 & _ & _ & _ & H5 & _).
  split; assumption.
Defined.

(** X5.  An intent of type [app] with a name to open is passed to
    [open_app], and so to a shell, as soon as GUI automation is on: neither
    the security checker nor the sudo session is consulted.  [execute] then
    returns the bare bool of [open_app] instead of a pair, which
    [_process_command] cannot unpack, so after launching the application it
    speaks its general error message. *)
Theorem X5_app_intent_skips_the_gate
        (re_group : Template -> string -> option string)
        (outcome : reply -> string) (ai : string -> option string)
        (e : CommandExecutor.t) (f : Features)
        (text : string) (i : CommandIntent) (now : Z) :
  parse_intent re_group (PyStr text) = Returns (Some i) ->
  intent_type i = "app" ->
  gui_automation f = true ->
  param (params i) "app" "" <> "" ->
  execute e f (Some i) now = (OpenApp (param (params i) "app" ""), e) /\
  _process_command re_group outcome ai e f text now
  = ("An error occurred while processing your command", e).
Proof.
  intros Hp Ht Hg Happ.
  assert (Hex : execute e f (Some i) now
                = (OpenApp (param (params i) "app" ""), e)).
  { unfold execute. rewrite Ht. simpl.
    unfold _execute_app_open. rewrite Hg. simpl.
    destruct (param (params i) "app" ""); [congruence | reflexivity]. }
  split; [exact Hex|].
  unfold _process_command. now rewrite Hp, Hex.
Qed.

(** X5 at work: ["open rm -rf ~"] with the application name the expression
    captures. *)
Lemma X5_app_intent_skips_the_gate_witness :
  let re_group := fun t (_ : string) =>
                    match t with T_app => Some "rm -rf ~" | _ => None end in
  let e := CommandExecutor.init None None None in
  let f := mkFeatures false false true in
  execute e f (Some (new_intent "app" "open" (Some [("app", "rm -rf ~")]))) 0
  = (OpenApp "rm -rf ~", e) /\
  _process_command re_group (fun _ => "") (fun _ => None) e f "open rm -rf ~" 0
  = ("An error occurred while processing your command", e).
Proof.
  intros re_group e f.
  apply (X5_app_intent_skips_the_gate re_group (fun _ => "") (fun _ => None)
           e f "open rm -rf ~"
           (new_intent "app" "open" (Some [("app", "rm -rf ~")])) 0);
    [reflexivity | reflexivity | reflexivity | discriminate].
Defined.

End ExecutionFacts.

(* ================================================================== *)
(** * The sudo session of the executor *)
(* ================================================================== *)

Section ExecutorSessionFacts.
Import CommandExecutor Executor.
Local Open Scope string_scope.

Lemma executor_eta (e : CommandExecutor.t) :
  {| allow_system_commands := allow_system_commands e;
     security_checker := security_checker e;
     sudo_session := sudo_session e |} = e.
Proof. now destruct e. Qed.

Lemma is_valid_true_same (s : Security.SudoSession) (now : Z) :
  fst (Security.is_valid s now) = true -> snd (Security.is_valid s now) = s.
Proof.
  unfold Security.is_valid.
  destruct (negb (Security.active s)); [discriminate|].
  destruct (Security.session_start s); [|discriminate].
  destruct (_ <? _)%Z; [discriminate | reflexivity].
Qed.

(** X6.  [check_sudo_keyword] returns [True] exactly when the text contains
    the keyword, whatever the letter case, and no valid session was in
    place at that moment: it then starts a new one.  When it returns
    [False] the executor is unchanged; said during a valid session the
    keyword gives [False] although the session is active, and neither
    restarts nor extends it. *)
Theorem X6_check_sudo_keyword_starts_sessions
        (e : CommandExecutor.t) (keyword : option string) (text : string)
        (now1 now2 : Z) :
  let k := Py.lower (match keyword with Some k => k | None => "sudo code" end) in
  let r := check_sudo_keyword e keyword text now1 now2 in
  (fst r = true <->
   Py.contains k (Py.lower text) = true /\
   fst (Security.is_valid (sudo_session e) now1) = false) /\
  (fst r = false -> snd r = e) /\
  (Py.contains k (Py.lower text) = true ->
   Security.active (sudo_session (snd r)) = true /\
   Security.duration_seconds (sudo_session (snd r))
   = Security.duration_seconds (sudo_session e)) /\
  (fst r = true ->
   Security.session_start (sudo_session (snd r)) = Some now1 \/
   Security.session_start (sudo_session (snd r)) = Some now2).
Proof.
  intros k r. unfold r, check_sudo_keyword. fold k.
  destruct (Py.contains k (Py.lower text)); simpl.
  2:{ split; [|split; [|split]]; try discriminate; auto.
      split; [discriminate | intros [H _]; discriminate]. }
  destruct e as [allow checker [d start active]]. simpl.
  unfold Security.activate, Security.is_valid; simpl.
  destruct active; simpl.
  - destruct start as [st|]; simpl.
    + destruct (timedelta_seconds d <? now1 - st)%Z; simpl;
        repeat split; auto; try discriminate; intuition discriminate.
    + repeat split; auto; try discriminate; intuition discriminate.
  - repeat split; auto; try discriminate; intuition discriminate.
Qed.



(** X8.  [remaining_time] is never negative, is zero for a session that is
    not valid, and never exceeds the configured duration as long as the
    clock does not read earlier than the start of the session. *)
Theorem X8_remaining_time_is_bounded
        (s : Security.SudoSession) (now1 now2 : Z) :
  (0 <= fst (Security.remaining_time s now1 now2))%Z /\
  (fst (Security.is_valid s now1) = false ->
   fst (Security.remaining_time s now1 now2) = 0%Z) /\
  (forall start, Security.session_start s = Some start -> (start <= now2)%Z ->
     (fst (Security.remaining_time s now1 now2)
      <= Z.max 0 (Security.duration_seconds s))%Z).
Proof.
  unfold Security.remaining_time.
  destruct (Security.is_valid s now1) as [valid s'] eqn:E.
  destruct valid; simpl.
  - assert (Hs : s' = s).
    { rewrite <- (is_valid_true_same s now1); now rewrite E. }
    subst s'. destruct (Security.session_start s) as [st|]; simpl.
    + split; [lia|]. split; [discriminate|].
      intros start Hst Hle. injection Hst as <-.
      unfold timedelta_seconds.
      destruct (Z_le_gt_dec 0 (Security.duration_seconds s * 1000000 - (now2 - st))).
      * rewrite Z.quot_div_nonneg by lia.
        assert ((Security.duration_seconds s * 1000000 - (now2 - st)) / 1000000
                <= Security.duration_seconds s)%Z.
        { apply Z.div_le_upper_bound; lia. }
        lia.
      * assert (Z.quot (Security.duration_seconds s * 1000000 - (now2 - st))
                       1000000 <= 0)%Z.
        { apply Z.quot_le_upper_bound; lia. }
        lia.
    + split; [lia|]. split; [discriminate | intros; discriminate].
  - split; [lia|]. split; [reflexivity|]. intros. lia.
Qed.

End ExecutorSessionFacts.

(* ================================================================== *)
(** * The sudo manager over time *)
(* ================================================================== *)

Section ManagerLifecycle.
Import EnhancedSecurity SudoManager.
Local Open Scope string_scope.




(** X10.  [customize_sudo_keyword] succeeds exactly when custom keywords
    are allowed and the new keyword has at least three characters; a
    failure changes nothing, a success changes the keyword only.  A new
    keyword without blanks around it then triggers when spoken as it is.
    One accepted with a blank at either end, and without ["sudo code"] in
    it, is not triggered by speaking it: the spoken text is trimmed and
    the keyword is not.  (A keyword that holds ["sudo code"] is read by
    the timed-phrase branch instead, which this property leaves open.) *)
Theorem X10_customized_keyword_and_blanks
        (m : EnhancedSecurity.t) (new_keyword : string) :
  let r := customize_sudo_keyword m new_keyword in
  (fst (fst r) = true <->
   allow_custom_sudo m = true /\ (3 <= String.length new_keyword)%nat) /\
  (fst (fst r) = false -> snd r = m) /\
  (fst (fst r) = true ->
   snd r = with_keyword m new_keyword /\
   (Py.strip new_keyword = new_keyword ->
    parse_sudo_keyword (snd r) new_keyword
    = (true, default_sudo_duration m, Some "Default sudo access")) /\
   (Py.strip new_keyword <> new_keyword ->
    Py.contains "sudo code" (normalized new_keyword) = false ->
    parse_sudo_keyword (snd r) new_keyword = (false, 0%Z, None))).
Proof.
  intros r. unfold r, customize_sudo_keyword.
  destruct (allow_custom_sudo m) eqn:Ea; simpl.
  2:{ split; [split; [discriminate | intros [H _]; discriminate]|].
      split; [reflexivity | discriminate]. }
  destruct (negb (Py.truthy new_keyword) || (String.length new_keyword <? 3)%nat)
    eqn:E; simpl.
  - split; [split; [discriminate|]|split; [reflexivity | discriminate]].
    intros [_ Hlen]. apply orb_true_iff in E. destruct E as [E|E].
    + destruct new_keyword; simpl in *; [lia | discriminate].
    + apply Nat.ltb_lt in E. lia.
  - apply orb_false_iff in E. destruct E as [_ E]. apply Nat.ltb_ge in E.
    split; [split; auto|]. split; [discriminate|]. intros _.
    split; [reflexivity|]. unfold parse_sudo_keyword; simpl. split.
    + intros Hs. rewrite strip_lower, Hs. now rewrite contains_refl.
    + intros Hs Hcode. unfold normalized in Hcode.
      assert (Hshort : (String.length (Py.strip (Py.lower new_keyword))
                        < String.length (Py.lower new_keyword))%nat).
      { rewrite strip_lower, !lower_length. now apply strip_shorter. }
      destruct (Py.contains (Py.lower new_keyword)
                            (Py.strip (Py.lower new_keyword))) eqn:Ec.
      { apply contains_length in Ec. lia. }
      rewrite Hcode, andb_false_r.
      destruct (String.eqb (Py.strip (Py.lower new_keyword))
                           (Py.lower new_keyword)) eqn:Ee.
      { apply String.eqb_eq in Ee. rewrite Ee in Hshort. lia. }
      now rewrite andb_false_r.
Qed.



(** X12.  The status text and [is_sudo_active] agree: the text reports
    [ACTIVE] exactly when sudo is active at the first clock reading, it
    reports [INACTIVE] exactly when there has never been a session, and an
    ended or expired session is reported as [EXPIRED]. *)
Theorem X12_status_agrees_with_is_sudo_active
        (m : EnhancedSecurity.t) (t1 t2 t3 : Z) :
  let status := fst (get_sudo_status m t1 t2 t3) in
  String.prefix "⏰ Sudo mode: ACTIVE (" status = fst (is_sudo_active m t1) /\
  (status = "❌ Sudo mode: INACTIVE" <-> current_session m = None) /\
  (status = "❌ Sudo mode: EXPIRED" <->
   current_session m <> None /\ fst (is_sudo_active m t1) = false).
Proof.
  unfold get_sudo_status, is_sudo_active.
  destruct (current_session m) as [s|]; simpl.
  2:{ split; [reflexivity|]. split; [tauto|].
      split; [discriminate | intros [H _]; congruence]. }
  destruct (is_valid s t1) as [valid s1]. destruct valid; simpl.
  - destruct (get_remaining_time s1 t2 t3) as [remaining s2]. simpl.
    destruct (remaining <? 60)%Z; [|destruct (remaining <? 3600)%Z]; simpl;
      (split; [apply prefix_empty|]);
      (split; [split; discriminate|]);
      (split; [discriminate | intros [_ H]; discriminate]).
  - split; [reflexivity|]. split; [split; discriminate|].
    split; [intros _; split; [discriminate | reflexivity] | reflexivity].
Qed.

End ManagerLifecycle.

(* ================================================================== *)
(** * Providers: routing, overrides and fallbacks *)
(* ================================================================== *)

Section ProviderFacts.
Import SmartRouter Router.
Local Open Scope string_scope.

Lemma get_or_cases (d : Dict.t string) (key default : string) :
  (exists k, Dict.lookup k d = Some (get_or d key default)) \/
  get_or d key default = default.
Proof.
  unfold get_or. destruct (Dict.lookup key d) eqn:E; [left; eauto | now right].
Qed.


(** X14.  For every router: the provider of a query is an entry of the
    mapping or the built-in ["gemini"]; with smart routing off it is the
    same for all queries; and an override is suggested only if it is a
    non-empty entry of the mapping other than the current default, which
    with smart routing on is the provider the router itself selects for
    that task. *)
Theorem X14_routing_follows_the_mapping (r : Router.t) :
  (forall query,
     (exists k, Dict.lookup k (provider_mapping r)
                = Some (fst (route_query r query))) \/
     fst (route_query r query) = "gemini") /\
  (smart_routing_enabled r = false ->
   forall q1 q2, fst (route_query r q1) = fst (route_query r q2)) /\
  (forall default_provider task_type suggested,
     suggest_provider_override r default_provider task_type = Some suggested ->
     suggested <> default_provider /\ suggested <> "" /\
     Dict.lookup (value task_type) (provider_mapping r) = Some suggested /\
     (smart_routing_enabled r = true ->
      get_provider_for_task r task_type = suggested)).
Proof.
  split; [|split].
  - intros query. unfold route_query, get_provider_for_task. cbn [fst].
    destruct (smart_routing_enabled r); cbn [negb].
    + destruct (get_or_cases (provider_mapping r)
                  (value (detect_task_type query))
                  (get_or (provider_mapping r) "default" "gemini"))
        as [H|H]; [now left|].
      rewrite H. apply get_or_cases.
    + apply get_or_cases.
  - intros Hoff q1 q2. unfold route_query, get_provider_for_task.
    rewrite Hoff. reflexivity.
  - intros d ty s. unfold suggest_provider_override, get_provider_for_task.
    destruct (Dict.lookup (value ty) (provider_mapping r)) as [v|] eqn:E;
      [|discriminate].
    destruct (Py.truthy v) eqn:Ht; [|discriminate].
    destruct (String.eqb v d) eqn:Ed; [discriminate|]. cbn [andb negb].
    intros H. injection H as <-.
    split; [now apply String.eqb_neq|].
    split; [intros ->; discriminate|].
    split; [reflexivity|].
    intros ->. cbn [negb]. unfold get_or. now rewrite E.
Qed.

(** X15.  The first fallback of a provider is never that provider, and its
    full chain starts with it, has a fallback behind it, and names no
    provider twice; for a provider without a chain of its own the fallback
    is ["gemini"]. *)
Theorem X15_fallback_is_another_provider (primary_provider : string) :
  get_fallback_provider primary_provider <> primary_provider /\
  In (get_fallback_provider primary_provider)
     (tl (get_full_fallback_chain primary_provider)) /\
  NoDup (get_full_fallback_chain primary_provider) /\
  (Dict.lookup primary_provider fallback_chains = None ->
   get_full_fallback_chain primary_provider = [primary_provider; "gemini"]).
Proof.
  unfold get_fallback_provider, get_full_fallback_chain, chain_of,
    fallback_chains.
  cbn [Dict.lookup tl].
  destruct (String.eqb primary_provider "openai") eqn:E1;
    [apply String.eqb_eq in E1; subst|];
    [|destruct (String.eqb primary_provider "deepseek") eqn:E2;
      [apply String.eqb_eq in E2; subst|]];
    [| |destruct (String.eqb primary_provider "gemini") eqn:E3;
        [apply String.eqb_eq in E3; subst|]];
    [| | |destruct (String.eqb primary_provider "custom") eqn:E4;
          [apply String.eqb_eq in E4; subst|]].
  1-4: split; [discriminate|]; split; [now left|];
       split; [|discriminate];
       repeat (constructor; [simpl; intuition discriminate|]); constructor.
  apply String.eqb_neq in E3.
  split; [congruence|]. split; [now left|]. split; [|reflexivity].
  constructor; [simpl; intuition congruence|].
  constructor; [simpl; tauto | constructor].
Qed.

End ProviderFacts.

(* ================================================================== *)
(** * Streaming a text in chunks *)
(* ================================================================== *)

Section StreamFacts.
Import StreamingAdapter.
Local Open Scope string_scope.

Lemma take_min_drop (k : nat) (s : string) :
  PyStr.take (Nat.min k (String.length s)) s ++ Py.drop k s = s.
Proof.
  revert s. induction k as [|k IH]; intros [|c s]; simpl; try reflexivity.
  now rewrite IH.
Qed.

Lemma slice_chunk (s : string) (p k : nat) :
  PyStr.take (Nat.min (p + k) (String.length s) - p) (Py.drop p s)
  ++ Py.drop (p + k) s = Py.drop p s.
Proof.
  revert s. induction p as [|p IH]; intros s.
  - simpl. rewrite Nat.sub_0_r. apply take_min_drop.
  - destruct s as [|c s]; simpl.
    + now destruct (Nat.min (p + k) 0 - p)%nat.
    + apply IH.
Qed.

Lemma take_length (n : nat) (s : string) :
  String.length (PyStr.take n s) = Nat.min n (String.length s).
Proof.
  revert s. induction n as [|n IH]; intros [|c s]; simpl; auto.
Qed.

Lemma drop_length (n : nat) (s : string) :
  String.length (Py.drop n s) = (String.length s - n)%nat.
Proof.
  revert s. induction n as [|n IH]; intros [|c s]; simpl; auto.
Qed.

Lemma join_empty_cons (p : string) (rest : list string) :
  PyStr.join "" (p :: rest) = p ++ PyStr.join "" rest.
Proof.
  destruct rest; cbn [PyStr.join]; [now rewrite append_nil_r_s | reflexivity].
Qed.

(** The chunk cut at a position inside the text. *)
Lemma slice_inside (s : string) (pos size : Z) :
  (0 <= pos < Z.of_nat (String.length s))%Z -> (1 <= size)%Z ->
  PyStr.slice pos (pos + size) s
  = PyStr.take (Nat.min (Z.to_nat pos + Z.to_nat size) (String.length s)
                - Z.to_nat pos)
               (Py.drop (Z.to_nat pos) s).
Proof.
  intros Hp Hs. unfold PyStr.slice, PyStr.slice_start.
  replace (pos <? 0)%Z with false by (symmetry; apply Z.ltb_ge; lia).
  replace (pos + size <? 0)%Z with false by (symmetry; apply Z.ltb_ge; lia).
  replace (Nat.min (Z.to_nat pos) (String.length s)) with (Z.to_nat pos)
    by lia.
  now rewrite Z2Nat.inj_add by lia.
Qed.

Lemma stream_from (fuel : nat) (txt : string) (size pos : Z) :
  (1 <= size)%Z -> (0 <= pos)%Z ->
  (Z.max 0 (Z.of_nat (String.length txt) - pos) < Z.of_nat fuel)%Z ->
  exists chunks a',
    stream fuel {| text := txt; chunk_size := size; position := pos |}
    = Some (chunks, a') /\
    PyStr.join "" chunks = Py.drop (Z.to_nat pos) txt /\
    Forall (fun c => (1 <= Z.of_nat (String.length c) <= size)%Z) chunks /\
    text a' = txt /\ chunk_size a' = size /\
    (Z.of_nat (String.length txt) <= position a')%Z.
Proof.
  intros Hs. revert pos.
  induction fuel as [|fuel IH]; intros pos Hp Hf.
  - exfalso. lia.
  - cbn [stream text chunk_size position].
    destruct (pos <? Z.of_nat (String.length txt))%Z eqn:E.
    + apply Z.ltb_lt in E.
      destruct (IH (pos + size)%Z) as (chunks & a' & -> & Hj & Hall & Ht);
        [lia | lia |].
      eexists; eexists; split; [reflexivity|].
      rewrite slice_inside by lia.
      split; [|split; [|exact Ht]].
      * rewrite join_empty_cons, Hj, Z2Nat.inj_add by lia.
        apply slice_chunk.
      * constructor; [|exact Hall].
        rewrite take_length, drop_length. lia.
    + apply Z.ltb_ge in E.
      eexists; eexists; split; [reflexivity|].
      cbn [PyStr.join text chunk_size position].
      rewrite drop_all by lia.
      split; [reflexivity|]. split; [constructor|]. auto.
Qed.

(** X16.  With a chunk size of at least one, [stream] ends after at most
    one turn per character: the chunks it yields, put together, are the
    text, every chunk holds between one and [chunk_size] characters, and
    the adapter is left positioned at or behind the end of the text. *)
Theorem X16_stream_chunks_rebuild_the_text
        (txt : string) (size : Z) (fuel : nat) :
  (1 <= size)%Z -> (String.length txt < fuel)%nat ->
  exists chunks a',
    stream fuel (init txt size) = Some (chunks, a') /\
    PyStr.join "" chunks = txt /\
    Forall (fun c => (1 <= Z.of_nat (String.length c) <= size)%Z) chunks /\
    text a' = txt /\
    (Z.of_nat (String.length txt) <= position a')%Z.
Proof.
  intros Hs Hf.
  destruct (stream_from fuel txt size 0) as (chunks & a' & H & Hj & Ha & Ht & _ & Hp);
    [lia | lia | lia |].
  exists chunks, a'. unfold init. rewrite H. simpl in Hj. auto.
Qed.

Lemma X16_stream_chunks_rebuild_the_text_witness :
  exists chunks a',
    stream 6 (init "hello" 2) = Some (chunks, a') /\
    PyStr.join "" chunks = "hello" /\
    Forall (fun c => (1 <= Z.of_nat (String.length c) <= 2)%Z) chunks /\
    text a' = "hello" /\
    (Z.of_nat (String.length "hello") <= position a')%Z.
Proof.
  apply (X16_stream_chunks_rebuild_the_text "hello" 2 6); simpl; lia.
Defined.

Lemma stream_stuck (fuel : nat) (txt : string) (size pos : Z) :
  (size <= 0)%Z -> (pos <= 0)%Z -> txt <> "" ->
  stream fuel {| text := txt; chunk_size := size; position := pos |} = None.
Proof.
  intros Hs Hp Hne. revert pos Hp.
  induction fuel as [|fuel IH]; intros pos Hp; [reflexivity|].
  cbn [stream text chunk_size position].
  replace (pos <? Z.of_nat (String.length txt))%Z with true
    by (symmetry; apply Z.ltb_lt; destruct txt; simpl; [congruence | lia]).
  rewrite IH by lia. reflexivity.
Qed.

(** X17.  With a chunk size of zero or less the position never moves
    forward, so on a text that is not empty the loop of [stream] has no
    last turn: no number of turns completes the stream. *)
Theorem X17_stream_without_progress_never_ends
        (txt : string) (size : Z) (fuel : nat) :
  (size <= 0)%Z -> txt <> "" ->
  stream fuel (init txt size) = None.
Proof.
  intros Hs Hne. unfold init. apply stream_stuck; [exact Hs | lia | exact Hne].
Qed.

Lemma X17_stream_without_progress_never_ends_witness :
  stream 1000 (init "hello" 0) = None.
Proof.
  apply (X17_stream_without_progress_never_ends "hello" 0 1000);
    [lia | discriminate].
Defined.

End StreamFacts.

(* ================================================================== *)
(** * Histories: the query log and the conversation context *)
(* ================================================================== *)

Section RecordFacts.
Local Open Scope string_scope.

Lemma slice_from_suffix {A : Type} (i : Z) (l : list A) :
  exists older, l = (older ++ PyStr.slice_from i l)%list.
Proof.
  unfold PyStr.slice_from.
  exists (firstn (PyStr.slice_start i (List.length l)) l).
  symmetry. apply firstn_skipn.
Qed.

Lemma slice_from_length {A : Type} (i : Z) (l : list A) :
  List.length (PyStr.slice_from i l)
  = (List.length l - PyStr.slice_start i (List.length l))%nat.
Proof. unfold PyStr.slice_from. apply length_skipn. Qed.

(** [l[-m:]] of a list one longer than [m >= 1] is the list without its
    first element. *)
Lemma slice_from_one_over {A : Type} (m : Z) (l : list A) :
  (1 <= m)%Z -> Z.of_nat (List.length l) = (m + 1)%Z ->
  PyStr.slice_from (- m) l = tl l.
Proof.
  intros Hm Hl. unfold PyStr.slice_from, PyStr.slice_start.
  replace (- m <? 0)%Z with true by (symmetry; apply Z.ltb_lt; lia).
  replace (Z.to_nat (Z.max (- m + Z.of_nat (List.length l)) 0)) with 1%nat
    by lia.
  now destruct l.
Qed.

Section QueryLog.
Import QueryHistory.

Lemma get_history_slice (h : QueryHistory.t) (limit : Z) :
  get_history h limit = PyStr.slice_from (- limit) (query_history h).
Proof.
  unfold get_history. destruct (query_history h) eqn:E; [|reflexivity].
  unfold PyStr.slice_from. now rewrite skipn_nil.
Qed.

Lemma add_keeps_bound (h : QueryHistory.t) (ts q r p : string) :
  max_history h = 50%Z ->
  (List.length (query_history h) <= 50)%nat ->
  query_history (_add_to_history h ts q r p)
  = ((if (List.length (query_history h) =? 50)%nat
      then tl (query_history h) else query_history h)
     ++ [mkEntry ts q (PyStr.take 500 r) p])%list.
Proof.
  intros Hm Hl. unfold _add_to_history. cbn [query_history].
  rewrite Hm, length_app. cbn [List.length].
  destruct (List.length (query_history h) =? 50)%nat eqn:E.
  - apply Nat.eqb_eq in E.
    replace (50 <? _)%Z with true by (symmetry; apply Z.ltb_lt; lia).
    rewrite slice_from_one_over by (rewrite ?length_app; simpl; lia).
    destruct (query_history h); [discriminate | reflexivity].
  - apply Nat.eqb_neq in E.
    replace (50 <? _)%Z with false by (symmetry; apply Z.ltb_ge; lia).
    reflexivity.
Qed.

(** X18.  The query log of a backend never holds more than fifty entries
    nor a response of more than five hundred characters, and each call of
    [_add_to_history] puts the new entry last, dropping the oldest entry
    and no other when the log was full. *)
Theorem X18_query_log_is_bounded (h : QueryHistory.t) :
  QueryHistory.reachable h ->
  max_history h = 50%Z /\
  (List.length (query_history h) <= 50)%nat /\
  Forall (fun e => (String.length (response e) <= 500)%nat) (query_history h) /\
  (forall ts q r p,
     query_history (_add_to_history h ts q r p)
     = ((if (List.length (query_history h) =? 50)%nat
         then tl (query_history h) else query_history h)
        ++ [mkEntry ts q (PyStr.take 500 r) p])%list).
Proof.
  intros H.
  assert (Hinv : max_history h = 50%Z /\
                 (List.length (query_history h) <= 50)%nat /\
                 Forall (fun e => (String.length (response e) <= 500)%nat)
                        (query_history h)).
  { induction H as [| h ts q r p H (IHm & IHl & IHr) | h H (IHm & IHl & IHr)].
    - split; [reflexivity|]. split; [simpl; lia | constructor].
    - split; [exact IHm|].
      rewrite add_keeps_bound by assumption.
      split.
      + rewrite length_app. cbn [List.length].
        destruct (List.length (query_history h) =? 50)%nat eqn:E;
          [apply Nat.eqb_eq in E | apply Nat.eqb_neq in E].
        * destruct (query_history h); simpl in *; lia.
        * lia.
      + apply Forall_app. split.
        * destruct (List.length (query_history h) =? 50)%nat; [|exact IHr].
          destruct (query_history h); [constructor|].
          now inversion IHr.
        * constructor; [|constructor]. cbn [response].
          rewrite take_length. lia.
    - split; [exact IHm|]. split; [simpl; lia | constructor]. }
  destruct Hinv as (Hm & Hl & Hr).
  split; [exact Hm|]. split; [exact Hl|]. split; [exact Hr|].
  intros ts q r p. now apply add_keeps_bound.
Qed.

(** X19.  [get_history] always returns the end of the log.  For a limit of
    at least one it is the newest [limit] entries, or all when there are
    fewer; a limit of zero returns the whole log, not an empty list; a
    negative limit leaves out that many of the oldest entries. *)
Theorem X19_get_history_returns_the_end_of_the_log
        (h : QueryHistory.t) (limit : Z) :
  (exists older, query_history h = (older ++ get_history h limit)%list) /\
  ((1 <= limit)%Z ->
   List.length (get_history h limit)
   = Nat.min (Z.to_nat limit) (List.length (query_history h))) /\
  (limit = 0%Z -> get_history h limit = query_history h) /\
  ((limit < 0)%Z ->
   List.length (get_history h limit)
   = (List.length (query_history h) - Z.to_nat (- limit))%nat).
Proof.
  rewrite get_history_slice.
  split; [apply slice_from_suffix|].
  split; [|split].
  - intros Hl. rewrite slice_from_length. unfold PyStr.slice_start.
    replace (- limit <? 0)%Z with true by (symmetry; apply Z.ltb_lt; lia).
    lia.
  - intros ->. reflexivity.
  - intros Hl. rewrite slice_from_length. unfold PyStr.slice_start.
    replace (- limit <? 0)%Z with false by (symmetry; apply Z.ltb_ge; lia).
    lia.
Qed.

End QueryLog.

Section Conversation.
Import ContextManager ContextView.

Lemma get_context_eq (c : ContextManager.t) :
  history c <> [] ->
  get_context c
  = PyStr.join EnhancedSecurity.nl
      (flat_map turn_lines (PyStr.slice_from (-3) (history c))).
Proof. unfold get_context. destruct (history c); [congruence | reflexivity]. Qed.

Lemma get_context_starts (c : ContextManager.t) :
  history c <> [] ->
  exists turn rest,
    get_context c = "User: " ++ user turn ++ EnhancedSecurity.nl ++ rest.
Proof.
  intros Hne. rewrite get_context_eq by exact Hne.
  destruct (PyStr.slice_from (-3) (history c)) as [|turn turns] eqn:E.
  - exfalso.
    pose proof (slice_from_length (-3) (history c)) as Hl.
    rewrite E in Hl. unfold PyStr.slice_start in Hl.
    change (-3 <? 0)%Z with true in Hl. cbn [List.length] in Hl.
    destruct (history c); [congruence | simpl List.length in Hl; lia].
  - exists turn. cbn [flat_map turn_lines app].
    change (PyStr.join EnhancedSecurity.nl
              (("User: " ++ user turn)
               :: ("Assistant: " ++ assistant turn)
               :: flat_map turn_lines turns))
      with (("User: " ++ user turn) ++ EnhancedSecurity.nl
            ++ PyStr.join EnhancedSecurity.nl
                 (("Assistant: " ++ assistant turn)
                  :: flat_map turn_lines turns)).
    eexists. reflexivity.
Qed.

Lemma get_context_sentinel (c : ContextManager.t) :
  get_context c = "No previous context" <-> history c = [].
Proof.
  split.
  - intros H. destruct (history c) as [|x l] eqn:E; [reflexivity|].
    exfalso.
    destruct (get_context_starts c) as (turn & rest & Hs); [congruence|].
    rewrite Hs in H. discriminate.
  - intros H. unfold get_context. now rewrite H.
Qed.

(** X20.  The context text is the sentinel ["No previous context"] exactly
    when no turn is stored; otherwise it starts with a ["User: "] line,
    and with three or more turns stored it is the six lines of the last
    three turns, whatever came before them. *)
Theorem X20_context_is_the_last_three_turns (c : ContextManager.t) :
  (get_context c = "No previous context" <-> history c = []) /\
  (history c <> [] -> String.prefix "User: " (get_context c) = true) /\
  (forall older x y z,
     history c = (older ++ [x; y; z])%list ->
     get_context c
     = PyStr.join EnhancedSecurity.nl
         (turn_lines x ++ turn_lines y ++ turn_lines z)%list).
Proof.
  split; [apply get_context_sentinel|]. split.
  - intros Hne. destruct (get_context_starts c Hne) as (turn & rest & ->).
    simpl. apply prefix_empty.
  - intros older x y z H.
    rewrite get_context_eq by (rewrite H; now destruct older).
    rewrite H. unfold PyStr.slice_from, PyStr.slice_start.
    change (-3 <? 0)%Z with true. cbv iota.
    rewrite length_app. cbn [List.length].
    replace (Z.to_nat (Z.max (-3 + Z.of_nat (List.length older + 3)) 0))
      with (List.length older + 0)%nat by lia.
    rewrite skipn_app, Nat.add_0_r, skipn_all.
    replace (List.length older - List.length older)%nat with O by lia.
    reflexivity.
Qed.

(** X21.  A manager built with a bound of zero or less never holds a
    turn: every [add_turn] removes the turn it has just appended, so the
    context text stays the sentinel. *)
Theorem X21_no_capacity_no_context (m : Z) (c : ContextManager.t) :
  (m <= 0)%Z -> reachable m c ->
  history c = [] /\ get_context c = "No previous context".
Proof.
  intros Hm H.
  assert (Hinv : max_history c = m /\ history c = []).
  { induction H as [| c ts u a H [IHm IHh] | c H [IHm IHh]].
    - now split.
    - split; [exact IHm|]. unfold add_turn. cbn [history].
      rewrite IHh, IHm. cbn [app List.length].
      replace (m <? Z.of_nat 1)%Z with true
        by (symmetry; apply Z.ltb_lt; lia).
      reflexivity.
    - now split. }
  destruct Hinv as [_ Hh]. split; [exact Hh|].
  now apply get_context_sentinel.
Qed.

End Conversation.
End RecordFacts.

Lemma X18_query_log_is_bounded_witness :
  let h := QueryHistory._add_to_history QueryHistory.init "t" "q" "r" "gemini" in
  QueryHistory.max_history h = 50%Z /\
  (List.length (QueryHistory.query_history h) <= 50)%nat /\
  Forall (fun e => (String.length (QueryHistory.response e) <= 500)%nat)
         (QueryHistory.query_history h) /\
  (forall ts q r p,
     QueryHistory.query_history (QueryHistory._add_to_history h ts q r p)
     = (if (List.length (QueryHistory.query_history h) =? 50)%nat
        then tl (QueryHistory.query_history h)
        else QueryHistory.query_history h)
       ++ [QueryHistory.mkEntry ts q (PyStr.take 500 r) p]).
Proof.
  intros h. apply (X18_query_log_is_bounded h).
  apply QueryHistory.R_add, QueryHistory.R_init.
Defined.

Lemma X21_no_capacity_no_context_witness :
  let c := ContextManager.add_turn (ContextManager.init 0) "t" "hello" "hi" in
  ContextManager.history c = [] /\
  ContextView.get_context c = "No previous context"%string.
Proof.
  intros c. apply (X21_no_capacity_no_context 0 c); [lia|].
  apply ContextManager.R_add, ContextManager.R_init.
Defined.

(* ================================================================== *)
(** * The cache keeps its entries under their own queries *)
(* ================================================================== *)

Section CacheKeys.
Context {P : Type}.
Import ResponseCache.
Implicit Types (c : ResponseCache.t P).

Lemma keyed_remove k (d : Dict.t (CachedResponse P)) :
  keyed d -> keyed (Dict.remove k d).
Proof. intros H k' e Hin. apply H. now apply in_remove in Hin. Qed.

Lemma keyed_store (d : Dict.t (CachedResponse P)) q r ttl_seconds now :
  keyed d ->
  keyed (Dict.store (normalized q) (new_entry q r ttl_seconds now) d).
Proof.
  intros H k e Hin. apply in_store in Hin. destruct Hin as [Heq|Hin].
  - inversion Heq; subst. split; [reflexivity | apply normalized_idem].
  - now apply H.
Qed.

Lemma step_keyed c (o : op P) c' :
  keyed (cache c) -> step c o = Some c' -> keyed (cache c').
Proof.
  intros Hk. destruct o as [q now | q r ttl_seconds now | ]; simpl.
  - intros H. injection H as <-. unfold get.
    destruct (Dict.lookup _ (cache c)) as [e|]; [|exact Hk].
    destruct (is_valid e now); [exact Hk|]. simpl. now apply keyed_remove.
  - unfold set, evict.
    destruct (max_entries c <=? _)%Z.
    + destruct (Dict.min_key created_at (cache c)); [|discriminate].
      intros H. injection H as <-. simpl.
      now apply keyed_store, keyed_remove.
    + intros H. injection H as <-. simpl. now apply keyed_store.
  - intros H. injection H as <-. intros k e [].
Qed.

Lemma run_keyed (ops : list (op P)) c c' :
  keyed (cache c) -> run c ops = Some c' -> keyed (cache c').
Proof.
  revert c. induction ops as [|o ops IH]; intros c Hk; simpl.
  - intros H. injection H as <-. exact Hk.
  - destruct (step c o) as [c1|] eqn:E; [|discriminate].
    apply IH. eapply step_keyed; eassumption.
Qed.

(** X22.  In a cache that [get], [set] and [clear] calls have built, every
    entry is stored under its own query, which is in normalized form, and
    asking for that query returns the entry's response for as long as the
    entry has not expired, leaving the cache as it is. *)
Theorem X22_stored_entries_answer_their_own_query
        (max : Z) (ops : list (op P)) c k e :
  run (init max) ops = Some c ->
  In (k, e) (cache c) ->
  k = query e /\ normalized k = k /\
  Dict.lookup k (cache c) = Some e /\
  (forall q now,
     normalized q = k -> (now < created_at e + ttl e)%Z ->
     get c q now = (Some (response e), c)).
Proof.
  intros Hrun Hin.
  assert (Hk : keyed (cache c)).
  { eapply run_keyed; [|exact Hrun]. intros k' e' []. }
  assert (Hwf : dict_wf (cache c)).
  { eapply run_wf; [|exact Hrun]. constructor. }
  destruct (Hk k e Hin) as [Hq Hn].
  pose proof (lookup_in _ _ _ Hwf Hin) as Hl.
  split; [exact Hq|]. split; [exact Hn|]. split; [exact Hl|].
  intros q now Hqk Hv. unfold get. fold (normalized q).
  rewrite Hqk, Hl. unfold is_valid.
  replace (now <? created_at e + ttl e)%Z with true
    by (symmetry; now apply Z.ltb_lt).
  reflexivity.
Qed.

End CacheKeys.

Lemma X22_stored_entries_answer_their_own_query_witness :
  let e := ResponseCache.new_entry "  What Is Rocq? " 7%nat 3600 0 in
  "what is rocq?"%string = ResponseCache.query e /\
  normalized "what is rocq?" = "what is rocq?"%string /\
  Dict.lookup "what is rocq?"
    (ResponseCache.cache
       {| ResponseCache.cache := [("what is rocq?"%string, e)];
          ResponseCache.max_entries := 2 |}) = Some e /\
  (forall q now,
     normalized q = "what is rocq?"%string ->
     (now < ResponseCache.created_at e + ResponseCache.ttl e)%Z ->
     ResponseCache.get
       {| ResponseCache.cache := [("what is rocq?"%string, e)];
          ResponseCache.max_entries := 2 |} q now
     = (Some (ResponseCache.response e),
        {| ResponseCache.cache := [("what is rocq?"%string, e)];
           ResponseCache.max_entries := 2 |})).
Proof.
  intros e.
  apply (X22_stored_entries_answer_their_own_query 2
           [ResponseCache.OpSet "  What Is Rocq? " 7%nat 3600 0]
           {| ResponseCache.cache := [("what is rocq?"%string, e)];
              ResponseCache.max_entries := 2 |}
           "what is rocq?"%string e).
  - reflexivity.
  - left. reflexivity.
Defined.

(* ================================================================== *)
(** * Queries through the cache and the conversation context *)
(* ================================================================== *)

Section BackendFacts.
Context {P : Type}.
Import AdvancedAIBackend.
Local Open Scope string_scope.

Lemma backend_eta (b : AdvancedAIBackend.t P) :
  {| cache := cache b; context := context b;
     enable_cache := enable_cache b; enable_context := enable_context b |} = b.
Proof. now destruct b. Qed.

Lemma enhanced_query_cache (b : AdvancedAIBackend.t P)
      (c : ResponseCache.t P) (caching : bool) q ic :
  enhanced_query {| cache := c; context := context b;
                    enable_cache := caching;
                    enable_context := enable_context b |} q ic
  = enhanced_query b q ic.
Proof. reflexivity. Qed.

(** X23.  The prompt sent to the provider is the bare query exactly when
    context is not asked for, is disabled, or no turn is stored; in every
    other case it is the context text followed by the query under
    ["New question: "]. *)
Theorem X23_prompt_carries_context_iff_there_is_some
        (b : AdvancedAIBackend.t P) (q : string) (include_context : bool) :
  (enhanced_query b q include_context = q <->
   include_context && enable_context b = false \/
   ContextManager.history (context b) = []) /\
  (include_context && enable_context b = true ->
   ContextManager.history (context b) <> [] ->
   enhanced_query b q include_context
   = "Context: " ++ ContextView.get_context (context b)
     ++ EnhancedSecurity.nl ++ EnhancedSecurity.nl ++ "New question: " ++ q).
Proof.
  unfold enhanced_query.
  destruct (include_context && enable_context b) eqn:E.
  2:{ split; [split; auto | discriminate]. }
  destruct (String.eqb (ContextView.get_context (context b))
                       "No previous context") eqn:Es; cbn [negb].
  - apply String.eqb_eq, get_context_sentinel in Es.
    split; [split; auto | congruence].
  - apply String.eqb_neq in Es.
    assert (Hne : ContextManager.history (context b) <> [])
      by (intros H; apply Es; now apply get_context_sentinel).
    split; [|reflexivity].
    split; [|intros [H|H]; [discriminate | congruence]].
    intros H. exfalso.
    apply (f_equal String.length) in H.
    rewrite !length_append_s in H. simpl in H. lia.
Qed.

End BackendFacts.

Section QueryFacts.
Variable customize_response : string -> string -> string + string.
Import AdvancedAIBackend.
Local Open Scope string_scope.







End QueryFacts.



(* ================================================================== *)
(** * Alternatives *)
(* ================================================================== *)

Section AlternativeFacts.
Context {P : Type}.
Variable truthy : P -> bool.
Import AdvancedAIBackend.

(** X27.  However many alternatives are asked for,
    [get_response_with_alternatives] returns at most one: the response of
    [query_sync] itself when at least one is asked for and the response is
    not empty, and nothing when the number asked for is zero or negative
    or there is no response. *)
Theorem X27_at_most_one_alternative
        (response : option P) (num_alternatives : Z) :
  (List.length (alternatives truthy response num_alternatives) <= 1)%nat /\
  (forall r, In r (alternatives truthy response num_alternatives) ->
             response = Some r /\ truthy r = true /\
             (1 <= num_alternatives)%Z) /\
  (forall r, response = Some r -> truthy r = true ->
             (1 <= num_alternatives)%Z ->
             alternatives truthy response num_alternatives = [r]).
Proof.
  unfold alternatives, repeat_list.
  destruct response as [r|]; [|simpl; split; [lia | split; [tauto | discriminate]]].
  destruct (truthy r) eqn:Ht;
    [|simpl; split; [lia | split; [tauto | intros r' H; inversion H; congruence]]].
  destruct (Z_le_dec 1 num_alternatives) as [Hn|Hn].
  - replace (Z.min num_alternatives 1) with 1%Z by lia.
    change (Z.to_nat 1) with 1%nat. cbn [repeat List.length].
    split; [lia|]. split.
    + intros r' [<-|[]]. auto.
    + intros r' H _ _. now inversion H.
  - replace (Z.to_nat (Z.min num_alternatives 1)) with 0%nat by lia.
    cbn [repeat List.length].
    split; [lia|]. split; [intros r' [] | intros; lia].
Qed.

End AlternativeFacts.
